(** * Response normalisation and transform workflow of the image styling page

    A shallow embedding of the two page variants of the repository
    ([src/unnamed/part_000] and [src/app/page.tsx]): the response
    extractors [extractImageUrl] and [extractTransformationDetails], and
    the asynchronous [handleTransform] workflow of each variant.

    JavaScript values are modelled as a JSON-like tree, strings as
    sequences of UTF-16 code units, objects as property lists in
    [Object.keys] order. *)

From Stdlib Require Import String Ascii DecimalString DecimalN.
From Stdlib Require Import List NArith ZArith Bool Lia.
Import ListNotations.
Local Open Scope list_scope.

Set Implicit Arguments.

(* ===================================================================== *)
(** * JavaScript strings *)
(* ===================================================================== *)

(** A JavaScript string is a finite sequence of UTF-16 code units. *)
Definition jstr := list N.

(** ASCII literals of the source, as code-unit sequences. *)
Definition lit (s : string) : jstr :=
  map N_of_ascii (list_ascii_of_string s).
Arguments lit : simpl never.

Fixpoint jstr_eqb (a b : jstr) : bool :=
  match a, b with
  | [], [] => true
  | x :: a', y :: b' => N.eqb x y && jstr_eqb a' b'
  | _, _ => false
  end.

(** [WhiteSpace] and [LineTerminator] code points of ECMAScript: the set
    removed by [String.prototype.trim] and matched by [\s]. *)
Definition is_js_whitespace (c : N) : bool :=
  (N.leb 9 c && N.leb c 13)
  || N.eqb c 32 || N.eqb c 160 || N.eqb c 5760
  || (N.leb 8192 c && N.leb c 8202)
  || N.eqb c 8232 || N.eqb c 8233 || N.eqb c 8239 || N.eqb c 8287
  || N.eqb c 12288 || N.eqb c 65279.

Fixpoint trimStart (s : jstr) : jstr :=
  match s with
  | c :: s' => if is_js_whitespace c then trimStart s' else s
  | [] => []
  end.

Definition trimEnd (s : jstr) : jstr := rev (trimStart (rev s)).

(** [String.prototype.trim]. *)
Definition trim (s : jstr) : jstr := trimEnd (trimStart s).

(* ===================================================================== *)
(** * JavaScript values *)
(* ===================================================================== *)

(** A number, kept as the decimal [mantissa * 10 ^ exponent10] it was
    written as; the program never computes with numbers, it only tests
    them for truthiness and passes them on. *)
Record number := { mantissa : Z; exponent10 : Z }.

(** A number is falsy when the double nearest to it is zero, that is when
    its magnitude is at most [2 ^ -1075] (half of the least subnormal,
    the tie going to the even neighbour [0]). *)
Definition number_truthy (n : number) : bool :=
  if Z.eqb (mantissa n) 0 then false
  else if Z.leb 0 (exponent10 n) then true
  else Z.ltb (10 ^ (- exponent10 n)) (Z.abs (mantissa n) * 2 ^ 1075).

#[warnings="-register-all"]
Inductive JsVal : Type :=
| JUndefined
| JNull
| JBool (b : bool)
| JNum (n : number)
| JStr (s : jstr)
| JArr (elems : list JsVal)
| JObj (fields : list (jstr * JsVal)).

(** The own enumerable properties of an object, in [Object.keys] order. *)
Definition props := list (jstr * JsVal).

(** ToBoolean. *)
Definition truthy (v : JsVal) : bool :=
  match v with
  | JUndefined | JNull => false
  | JBool b => b
  | JNum n => number_truthy n
  | JStr [] => false
  | JStr (_ :: _) => true
  | JArr _ | JObj _ => true
  end.

(** [a || b]. *)
Definition js_or (a b : JsVal) : JsVal := if truthy a then a else b.

(** [typeof v === 'string'] and [typeof v === 'object']. *)
Definition is_string (v : JsVal) : bool :=
  match v with JStr _ => true | _ => false end.

Definition typeof_object (v : JsVal) : bool :=
  match v with JNull | JArr _ | JObj _ => true | _ => false end.

Definition Array_isArray (v : JsVal) : bool :=
  match v with JArr _ => true | _ => false end.

Fixpoint lookup (k : jstr) (ps : props) : option JsVal :=
  match ps with
  | [] => None
  | (k', v) :: ps' => if jstr_eqb k k' then Some v else lookup k ps'
  end.

(** Array index keys: the canonical decimal numerals. *)
Definition key_of_index (i : N) : jstr :=
  lit (NilZero.string_of_uint (N.to_uint i)).

Definition digit_of (c : N) : option N :=
  if N.leb 48 c && N.leb c 57 then Some (c - 48)%N else None.

Fixpoint digits_value (acc : N) (s : jstr) : option N :=
  match s with
  | [] => Some acc
  | c :: s' =>
      match digit_of c with
      | Some d => digits_value (10 * acc + d)%N s'
      | None => None
      end
  end.

Definition index_of_key (k : jstr) : option N :=
  match k with
  | [] => None
  | _ :: _ =>
      match digits_value 0 k with
      | Some i => if jstr_eqb (key_of_index i) k then Some i else None
      | None => None
      end
  end.

(** Property read [v?.k] (and [v.k], [v[k]] on a value already known not
    to be [null] or [undefined]).  Only own properties are modelled: the
    program asks for fixed names that no built-in prototype defines, and
    for the keys [Object.keys] has just listed. *)
Definition get (v : JsVal) (k : jstr) : JsVal :=
  match v with
  | JObj ps =>
      match lookup k ps with Some x => x | None => JUndefined end
  | JArr l =>
      match index_of_key k with
      | Some i => nth (N.to_nat i) l JUndefined
      | None =>
          if jstr_eqb k (lit "length")
          then JNum {| mantissa := Z.of_nat (length l); exponent10 := 0 |}
          else JUndefined
      end
  | JStr s =>
      match index_of_key k with
      | Some i =>
          match nth_error s (N.to_nat i) with
          | Some c => JStr [c]
          | None => JUndefined
          end
      | None =>
          if jstr_eqb k (lit "length")
          then JNum {| mantissa := Z.of_nat (length s); exponent10 := 0 |}
          else JUndefined
      end
  | _ => JUndefined
  end.

(** [Object.keys(v)] for a value that is not [null] or [undefined]. *)
Definition Object_keys (v : JsVal) : list jstr :=
  match v with
  | JObj ps => map fst ps
  | JArr l => map (fun i => key_of_index (N.of_nat i)) (seq 0 (length l))
  | JStr s => map (fun i => key_of_index (N.of_nat i)) (seq 0 (length s))
  | _ => []
  end.

(** The elements of an array, for [a.length] and [a[0]]. *)
Definition elements (v : JsVal) : list JsVal :=
  match v with JArr l => l | _ => [] end.

(** [a[0]] on an array. *)
Definition elem0 (l : list JsVal) : JsVal := nth 0 l JUndefined.

(* ===================================================================== *)
(** * Regular expressions *)
(* ===================================================================== *)

(** The fragment of ECMAScript patterns the page uses. *)
Inductive regex : Type :=
| Chr (c : N)                   (* a pattern character *)
| Class (member : N -> bool)    (* a character class *)
| Seq (r1 r2 : regex)
| Alt (r1 r2 : regex)           (* r1|r2, r1 tried first *)
| Opt (r : regex)               (* r?, greedy *)
| Plus (r : regex).             (* r+, greedy *)

(** Canonicalize of the [i] flag, on the ASCII letters.  A code unit
    outside ASCII never canonicalizes to an ASCII one, and the patterns
    below hold ASCII characters only. *)
Definition canonicalize (ignoreCase : bool) (c : N) : N :=
  if ignoreCase && N.leb 97 c && N.leb c 122 then c - 32 else c.

Section Matcher.
Variable ignoreCase : bool.
Variable A : Type.

(** RepeatMatcher of ECMA-262 for a greedy, unbounded quantifier whose
    lower bound is used up: another round of [m], refused when it eats
    nothing, before the continuation [c] is tried. *)
Fixpoint repeat_matcher (m : jstr -> (jstr -> option A) -> option A)
         (c : jstr -> option A) (fuel : nat) (y : jstr) {struct fuel}
  : option A :=
  match fuel with
  | O => c y
  | S fuel' =>
      match
        m y (fun z => if Nat.ltb (length z) (length y)
                      then repeat_matcher m c fuel' z else None)
      with
      | Some a => Some a
      | None => c y
      end
  end.

(** Backtracking matchers in continuation-passing style, as ECMA-262
    defines them: [matcher r x c] matches [r] at the front of [x] and
    hands the rest to [c]; a failing continuation makes the matcher try
    its next alternative. *)
Fixpoint matcher (r : regex) : jstr -> (jstr -> option A) -> option A :=
  match r with
  | Chr p => fun x c =>
      match x with
      | y :: x' =>
          if N.eqb (canonicalize ignoreCase y) (canonicalize ignoreCase p)
          then c x' else None
      | [] => None
      end
  | Class member => fun x c =>
      match x with
      | y :: x' => if member y then c x' else None
      | [] => None
      end
  | Seq r1 r2 => fun x c => matcher r1 x (fun y => matcher r2 y c)
  | Alt r1 r2 => fun x c =>
      match matcher r1 x c with
      | Some a => Some a
      | None => matcher r2 x c
      end
  | Opt r1 => fun x c =>
      match matcher r1 x c with
      | Some a => Some a
      | None => c x
      end
  | Plus r1 => fun x c =>
      matcher r1 x (repeat_matcher (matcher r1) c (length x))
  end.
End Matcher.

(** A pattern with its flags. *)
Record RegExp := { source : regex; flag_i : bool }.

(** One attempt of the pattern at the front of [x]: the matched prefix. *)
Definition match_here (re : RegExp) (x : jstr) : option jstr :=
  match matcher (flag_i re) (source re) x (fun rest => Some rest) with
  | Some rest => Some (firstn (length x - length rest) x)
  | None => None
  end.

(** [s.match(re)[0]] for a pattern without the [g] flag: the attempt is
    made at every index from the left, the first success wins. *)
Fixpoint String_match (re : RegExp) (s : jstr) : option jstr :=
  match match_here re s with
  | Some m => Some m
  | None =>
      match s with
      | [] => None
      | _ :: s' => String_match re s'
      end
  end.

Fixpoint Lit (s : jstr) (k : regex) : regex :=
  match s with
  | [] => k
  | c :: s' => Seq (Chr c) (Lit s' k)
  end.

Fixpoint Word (s : jstr) : regex :=
  match s with
  | [] => Class (fun _ => false)
  | [c] => Chr c
  | c :: s' => Seq (Chr c) (Word s')
  end.

Fixpoint OneOf (ws : list jstr) : regex :=
  match ws with
  | [] => Class (fun _ => false)
  | [w] => Word w
  | w :: ws' => Alt (Word w) (OneOf ws')
  end.

Definition c_dquote : N := 34.
Definition c_squote : N := 39.
Definition c_lt : N := 60.
Definition c_gt : N := 62.
Definition c_backslash : N := 92.

(** The class of the message pattern: any code unit but white space, the
    double quote, the apostrophe, [<] and [>]. *)
Definition url_char (c : N) : bool :=
  negb (is_js_whitespace c || N.eqb c c_dquote || N.eqb c c_squote
        || N.eqb c c_lt || N.eqb c c_gt).

(** The class of the raw-response pattern: the same, less the backslash. *)
Definition url_char_raw (c : N) : bool :=
  negb (is_js_whitespace c || N.eqb c c_dquote || N.eqb c c_squote
        || N.eqb c c_lt || N.eqb c c_gt || N.eqb c c_backslash).

Definition url_pattern (member : N -> bool) (exts : list jstr) : regex :=
  Lit (lit "http")
    (Seq (Opt (Chr 115))
       (Lit (lit "://")
          (Seq (Plus (Class member))
             (Seq (Chr 46) (OneOf exts))))).

Definition message_exts : list jstr :=
  [lit "png"; lit "jpg"; lit "jpeg"; lit "webp"; lit "gif"; lit "svg";
   lit "bmp"].

Definition raw_exts : list jstr :=
  [lit "png"; lit "jpg"; lit "jpeg"; lit "webp"; lit "gif"].

(** The pattern scanned for in [response.message], flag [i]:
    [https?:\/\/] , one or more class characters, [\.] and one of
    [png|jpg|jpeg|webp|gif|svg|bmp]. *)
Definition MESSAGE_URL_RE : RegExp :=
  {| source := url_pattern url_char message_exts; flag_i := true |}.

(** The pattern scanned for in a [raw_response] that is not JSON, flag
    [i]: as above with the narrower class and [png|jpg|jpeg|webp|gif]. *)
Definition RAW_URL_RE : RegExp :=
  {| source := url_pattern url_char_raw raw_exts; flag_i := true |}.

(* ===================================================================== *)
(** * The runtime *)
(* ===================================================================== *)

(** What the page takes from the JavaScript runtime without defining it.
    [JSON_parse] answers [None] where [JSON.parse] throws. *)
Class JsRuntime := {
  JSON_parse : jstr -> option JsVal;
  JSON_stringify : JsVal -> jstr;
  (** [String(v)] for a [v] that is not a string *)
  ToString_other : JsVal -> jstr;
  (** the [message] of the TypeError raised by reading property [k] of
      [v], a [null] or [undefined] *)
  TypeError_message : JsVal -> jstr -> jstr
}.

(** ToString, as [new Error(v)] applies it to its argument. *)
Definition ToString `{JsRuntime} (v : JsVal) : jstr :=
  match v with
  | JStr s => s
  | _ => ToString_other v
  end.

Notation "v # k" := (get v (lit k)) (at level 20, left associativity).

(** [Array.isArray(files) && files.length > 0 && files[0]?.field], and the
    [files[0].field] then returned. *)
Definition first_with (files : JsVal) (field : string) : option JsVal :=
  if Array_isArray files && Nat.ltb 0 (length (elements files))
     && truthy (elem0 (elements files) # field)
  then Some (elem0 (elements files) # field) else None.

(** Early return: [Some v] stands for [return v], [None] for falling
    through to the next statement. *)
Definition or_else {A : Type} (a b : option A) : option A :=
  match a with Some v => Some v | None => b end.

(** The details record both pages keep in their state.  Its fields are
    declared [string]; at run time they hold whatever the expressions
    that fill them evaluate to. *)
Record TransformationDetails := {
  transformation_description : JsVal;
  style_elements_applied : JsVal;
  color_palette_used : JsVal
}.

(* ===================================================================== *)
(** * The transform workflow *)
(* ===================================================================== *)

(** The browser's [File] handle; the workflow only passes it on. *)
Record File := { file_type : jstr }.

(** What a [throw] or a rejected promise carries: an [Error] object with
    its [message], or any other value. *)
Inductive Exn : Type :=
| ErrorObject (message : jstr)
| NotAnError (v : JsVal).

Inductive Completion (A : Type) : Type :=
| Normal (a : A)
| Throw (e : Exn).
Arguments Normal {A} a.
Arguments Throw {A} e.

(** The state of the page that [handleTransform] reads and sets. *)
Record Session := {
  selectedFile : option File;
  styleNote : jstr;
  isTransforming : bool;
  error : option jstr;
  resultImageUrl : JsVal;
  transformationDetails : option TransformationDetails;
  statusMessage : option jstr
}.

(** A handler run, up to its next call to a collaborator. *)
Inductive Action (A : Type) : Type :=
| Done (a : A)
| AwaitUpload (file : File) (k : Completion props -> Action A)
| AwaitAgent (message agent_id : jstr) (assets : list JsVal)
    (k : Completion props -> Action A)
| ConsoleError (label : jstr) (payload : props) (k : Action A).
Arguments Done {A} a.
Arguments AwaitUpload {A} file k.
Arguments AwaitAgent {A} message agent_id assets k.
Arguments ConsoleError {A} label payload k.

Fixpoint act_bind {A B : Type} (a : Action A) (f : A -> Action B)
  : Action B :=
  match a with
  | Done x => f x
  | AwaitUpload file k => AwaitUpload file (fun r => act_bind (k r) f)
  | AwaitAgent m i l k => AwaitAgent m i l (fun r => act_bind (k r) f)
  | ConsoleError l p k => ConsoleError l p (act_bind k f)
  end.

(** Handler code: it reads and sets the session, may throw, and awaits
    collaborators. *)
Definition M (A : Type) : Type := Session -> Action (Completion A * Session).

Definition ret {A : Type} (a : A) : M A := fun s => Done (Normal a, s).

Definition bind {A B : Type} (m : M A) (f : A -> M B) : M B :=
  fun s =>
    act_bind (m s)
      (fun r =>
         match r with
         | (Normal a, s') => f a s'
         | (Throw e, s') => Done (Throw e, s')
         end).

Definition throw {A : Type} (e : Exn) : M A := fun s => Done (Throw e, s).

(** [try { body } catch (err) { handler }] *)
Definition try_catch {A : Type} (body : M A) (handler : Exn -> M A) : M A :=
  fun s =>
    act_bind (body s)
      (fun r =>
         match r with
         | (Normal a, s') => Done (Normal a, s')
         | (Throw e, s') => handler e s'
         end).

(** [try { body } finally { final }] *)
Definition try_finally {A : Type} (body : M A) (final : M unit) : M A :=
  fun s =>
    act_bind (body s)
      (fun r =>
         act_bind (final (snd r))
           (fun f =>
              match f with
              | (Normal _, s'') => Done (fst r, s'')
              | (Throw e, s'') => Done (Throw e, s'')
              end)).

(** [await p]: a rejected promise throws at the [await]. *)
Definition await (a : (Completion props -> Action (Completion props * Session))
                      -> Action (Completion props * Session)) : M props :=
  fun s => a (fun r => Done (r, s)).

Definition uploadFiles (file : File) : M props :=
  await (AwaitUpload file).

Definition callAIAgent (message agent_id : jstr) (assets : list JsVal)
  : M props :=
  await (AwaitAgent message agent_id assets).

Definition console_error (label : jstr) (payload : props) : M unit :=
  fun s => ConsoleError label payload (Done (Normal tt, s)).

Definition modify (f : Session -> Session) : M unit :=
  fun s => Done (Normal tt, f s).

Definition setIsTransforming (b : bool) : M unit :=
  modify (fun s =>
    {| selectedFile := selectedFile s; styleNote := styleNote s;
       isTransforming := b; error := error s;
       resultImageUrl := resultImageUrl s;
       transformationDetails := transformationDetails s;
       statusMessage := statusMessage s |}).

Definition setError (e : option jstr) : M unit :=
  modify (fun s =>
    {| selectedFile := selectedFile s; styleNote := styleNote s;
       isTransforming := isTransforming s; error := e;
       resultImageUrl := resultImageUrl s;
       transformationDetails := transformationDetails s;
       statusMessage := statusMessage s |}).

Definition setResultImageUrl (u : JsVal) : M unit :=
  modify (fun s =>
    {| selectedFile := selectedFile s; styleNote := styleNote s;
       isTransforming := isTransforming s; error := error s;
       resultImageUrl := u;
       transformationDetails := transformationDetails s;
       statusMessage := statusMessage s |}).

Definition setTransformationDetails (d : option TransformationDetails)
  : M unit :=
  modify (fun s =>
    {| selectedFile := selectedFile s; styleNote := styleNote s;
       isTransforming := isTransforming s; error := error s;
       resultImageUrl := resultImageUrl s;
       transformationDetails := d;
       statusMessage := statusMessage s |}).

Definition setStatusMessage (m : option jstr) : M unit :=
  modify (fun s =>
    {| selectedFile := selectedFile s; styleNote := styleNote s;
       isTransforming := isTransforming s; error := error s;
       resultImageUrl := resultImageUrl s;
       transformationDetails := transformationDetails s;
       statusMessage := m |}).

Declare Scope handler_scope.
Delimit Scope handler_scope with handler.
Notation "x <- m ;; k" := (bind m (fun x => k))
  (at level 61, m at next level, right associativity) : handler_scope.
Notation "m ;; k" := (bind m (fun _ => k))
  (at level 61, right associativity) : handler_scope.

(** [new Error(v)] *)
Definition new_Error `{JsRuntime} (v : JsVal) : Exn :=
  ErrorObject (ToString v).

(** A property read [v.k] that is not guarded by [?.]. *)
Definition get_strict `{JsRuntime} (v : JsVal) (k : string) : M JsVal :=
  match v with
  | JUndefined | JNull => throw (ErrorObject (TypeError_message v (lit k)))
  | _ => ret (v # k)
  end.

Definition AGENT_ID : jstr := lit "699c802522d60b5dbc439726".

Definition BRAND_INSTRUCTION : jstr :=
  lit "Transform this uploaded image into Lyzr brand style using the company color palette (deep purples #7458e8, vibrant blues, electric accents) with clean gradients and modern tech-forward aesthetic.".

(** Step 2 of both handlers: the message sent to the agent. *)
Definition build_message (styleNote : jstr) : jstr :=
  let message := BRAND_INSTRUCTION in
  match trim styleNote with
  | _ :: _ =>
      message ++ lit " Additional style direction: " ++ trim styleNote
  | [] => message
  end.

(** [catch (err)] of both handlers. *)
Definition on_error (err : Exn) : M unit :=
  (let errorMessage :=
     match err with
     | ErrorObject message => message
     | NotAnError _ => lit "Something went wrong. Please try again."
     end in
   setError (Some errorMessage) ;;
   setStatusMessage None)%handler.

(** Step 1 of both handlers: the upload and the check of its answer. *)
Definition upload_step `{JsRuntime} (file : File) : M JsVal :=
  (uploadResult <- uploadFiles file ;;
   if negb (truthy (JObj uploadResult # "success"))
      || negb (Array_isArray (JObj uploadResult # "asset_ids"))
      || Nat.eqb (length (elements (JObj uploadResult # "asset_ids"))) 0
   then
     throw (new_Error (js_or (JObj uploadResult # "error")
                         (JStr (lit "Failed to upload image"))))
   else ret (elem0 (elements (JObj uploadResult # "asset_ids"))))%handler.

(** Step 3 of both handlers: the agent call and the check of its flag. *)
Definition invoke_step `{JsRuntime} (message : jstr) (assetId : JsVal)
  : M props :=
  (result <- callAIAgent message AGENT_ID [assetId] ;;
   if truthy (JObj result # "success") then ret result
   else
     throw (new_Error
              (js_or (js_or (JObj result # "error")
                            (JObj result # "response" # "message"))
                     (JStr (lit "Transformation failed")))))%handler.

Definition NO_IMAGE : jstr :=
  lit "No image was generated. Please try again.".

(* ===================================================================== *)
(** * The extractors of [src/unnamed/part_000] *)
(* ===================================================================== *)

Module Part000.
Section Extractors.
Context `{RT : JsRuntime}.

(** Path 1: [module_outputs.artifact_files] at top level. *)
Definition path1 (result : props) : option JsVal :=
  let files := JObj result # "module_outputs" # "artifact_files" in
  if truthy files then first_with files "file_url" else None.

(** The [for (const key of Object.keys(mo))] loop of path 2. *)
Fixpoint scan_keys (mo : JsVal) (keys : list jstr) : option JsVal :=
  match keys with
  | [] => None
  | key :: keys' =>
      let val := get mo key in
      or_else (first_with val "file_url")
        (or_else (first_with val "url")
           (scan_keys mo keys'))
  end.

(** Path 2: [module_outputs] at top level with other structures. *)
Definition path2 (result : props) : option JsVal :=
  let mo := JObj result # "module_outputs" in
  if truthy mo then
    if truthy (mo # "url") then Some (mo # "url")
    else if truthy (mo # "image_url") then Some (mo # "image_url")
    else scan_keys mo (Object_keys mo)
  else None.

(** Path 3: [response.result] may contain the image URL. *)
Definition path3 (result : props) : option JsVal :=
  let agentResult := JObj result # "response" # "result" in
  if truthy agentResult && typeof_object agentResult then
    let r := agentResult in
    if truthy (r # "image_url") then Some (r # "image_url")
    else if truthy (r # "url") then Some (r # "url")
    else if truthy (r # "image") then Some (r # "image")
    else if truthy (r # "output_image") then Some (r # "output_image")
    else if truthy (r # "generated_image")
    then Some (r # "generated_image")
    else if truthy (r # "file_url") then Some (r # "file_url")
    else
      if Array_isArray (r # "artifact_files")
         && Nat.ltb 0 (length (elements (r # "artifact_files")))
      then
        Some (js_or (js_or (elem0 (elements (r # "artifact_files"))
                              # "file_url")
                           (elem0 (elements (r # "artifact_files"))
                              # "url"))
                    JNull)
      else
        let files := r # "module_outputs" # "artifact_files" in
        if truthy files then first_with files "file_url" else None
  else None.

(** Path 4: [response.message] scanned for a URL. *)
Definition path4 (result : props) : option JsVal :=
  match JObj result # "response" # "message" with
  | JStr (c :: message) =>
      match String_match MESSAGE_URL_RE (c :: message) with
      | Some urlMatch => Some (JStr urlMatch)
      | None => None
      end
  | _ => None
  end.

(** Path 5: [raw_response], parsed, or scanned when it does not parse. *)
Definition path5 (result : props) : option JsVal :=
  match JObj result # "raw_response" with
  | JStr (c :: raw_response) =>
      match JSON_parse (c :: raw_response) with
      | Some raw =>
          or_else
            (let files := raw # "module_outputs" # "artifact_files" in
             if truthy files then first_with files "file_url" else None)
            (let files :=
               raw # "response" # "module_outputs" # "artifact_files" in
             if truthy files then first_with files "file_url" else None)
      | None =>
          match String_match RAW_URL_RE (c :: raw_response) with
          | Some urlMatch => Some (JStr urlMatch)
          | None => None
          end
      end
  | _ => None
  end.

Definition extractImageUrl (result : props) : JsVal :=
  match path1 result with
  | Some v => v
  | None =>
  match path2 result with
  | Some v => v
  | None =>
  match path3 result with
  | Some v => v
  | None =>
  match path4 result with
  | Some v => v
  | None =>
  match path5 result with
  | Some v => v
  | None => JNull
  end end end end end.

(** [typeof v === 'string' ? v : JSON.stringify(v)] *)
Definition stringified (v : JsVal) : JsVal :=
  if is_string v then v else JStr (JSON_stringify v).

Definition result_desc (r : JsVal) : JsVal :=
  js_or (js_or (js_or (js_or (r # "transformation_description")
                             (r # "description"))
                      (r # "text"))
               (r # "message"))
        (JStr []).

Definition result_styles (r : JsVal) : JsVal :=
  js_or (js_or (js_or (r # "style_elements_applied") (r # "styles"))
               (r # "elements"))
        (JStr []).

Definition result_colors (r : JsVal) : JsVal :=
  js_or (js_or (js_or (r # "color_palette_used") (r # "colors"))
               (r # "palette"))
        (JStr []).

(** The first [if] of [extractTransformationDetails]: the record read
    off [response.result]. *)
Definition details_of_result (result : props)
  : option TransformationDetails :=
  let agentResult := JObj result # "response" # "result" in
  if truthy agentResult && typeof_object agentResult then
    let r := agentResult in
    let desc := result_desc r in
    let styles := result_styles r in
    let colors := result_colors r in
    if truthy (js_or (js_or desc styles) colors) then
      Some {| transformation_description := stringified desc;
              style_elements_applied := stringified styles;
              color_palette_used := stringified colors |}
    else None
  else None.

Definition extractTransformationDetails (result : props)
  : option TransformationDetails :=
  or_else (details_of_result result)
    (if truthy (JObj result # "response" # "message") then
       Some {| transformation_description :=
                 JObj result # "response" # "message";
               style_elements_applied := JStr [];
               color_palette_used := JStr [] |}
     else None).

(** The transform handler of the page. *)
Definition handleTransform : M unit :=
  fun s =>
    match selectedFile s with
    | None => ret tt s
    | Some file =>
        (setIsTransforming true ;;
         setError None ;;
         setResultImageUrl JNull ;;
         setTransformationDetails None ;;
         setStatusMessage (Some (lit "Uploading image...")) ;;
         try_finally
           (try_catch
              (assetId <- upload_step file ;;
               setStatusMessage (Some (lit "Transforming with AI...")) ;;
               result <- invoke_step (build_message (styleNote s)) assetId ;;
               (if truthy (extractImageUrl result)
                then setResultImageUrl (extractImageUrl result)
                else
                  console_error
                    (lit "No image found in agent response. Full result:")
                    result ;;
                  throw (new_Error (JStr NO_IMAGE))) ;;
               match extractTransformationDetails result with
               | Some details => setTransformationDetails (Some details)
               | None => ret tt
               end ;;
               setStatusMessage None)
              on_error)
           (setIsTransforming false))%handler s
    end.

End Extractors.
End Part000.

(* ===================================================================== *)
(** * The handler of [src/app/page.tsx] *)
(* ===================================================================== *)

Module AppPage.
Section Handler.
Context `{RT : JsRuntime}.

(** The transform handler of the page. *)
Definition handleTransform : M unit :=
  fun s =>
    match selectedFile s with
    | None => ret tt s
    | Some file =>
        (setIsTransforming true ;;
         setError None ;;
         setResultImageUrl JNull ;;
         setTransformationDetails None ;;
         setStatusMessage (Some (lit "Uploading image...")) ;;
         try_finally
           (try_catch
              (assetId <- upload_step file ;;
               setStatusMessage (Some (lit "Transforming with AI...")) ;;
               result <- invoke_step (build_message (styleNote s)) assetId ;;
               (let artifactFiles :=
                  JObj result # "module_outputs" # "artifact_files" in
                if Array_isArray artifactFiles
                   && Nat.ltb 0 (length (elements artifactFiles))
                then
                  file_url <- get_strict (elem0 (elements artifactFiles))
                                "file_url" ;;
                  setResultImageUrl file_url
                else throw (new_Error (JStr NO_IMAGE))) ;;
               (let agentResult := JObj result # "response" # "result" in
                if truthy agentResult && typeof_object agentResult then
                  setTransformationDetails
                    (Some
                       {| transformation_description :=
                            js_or (agentResult # "transformation_description")
                              (JStr []);
                          style_elements_applied :=
                            js_or (agentResult # "style_elements_applied")
                              (JStr []);
                          color_palette_used :=
                            js_or (agentResult # "color_palette_used")
                              (JStr []) |})
                else ret tt) ;;
               setStatusMessage None)
              on_error)
           (setIsTransforming false))%handler s
    end.

End Handler.
End AppPage.

(* ===================================================================== *)
(** * Running a handler against its collaborators *)
(* ===================================================================== *)

(** The calls a run makes, in order. *)
Inductive Call : Type :=
| UploadCall (file : File)
| AgentCall (message agent_id : jstr) (assets : list JsVal)
| ConsoleErrorCall (label : jstr) (payload : props).

(** The collaborators of one run: what the upload and the agent answer. *)
Record Collaborators := {
  upload_answer : File -> Completion props;
  agent_answer : jstr -> jstr -> list JsVal -> Completion props
}.

Fixpoint run {A : Type} (env : Collaborators) (a : Action A)
  : list Call * A :=
  match a with
  | Done x => ([], x)
  | AwaitUpload file k =>
      let r := run env (k (upload_answer env file)) in
      (UploadCall file :: fst r, snd r)
  | AwaitAgent m i l k =>
      let r := run env (k (agent_answer env m i l)) in
      (AgentCall m i l :: fst r, snd r)
  | ConsoleError l p k =>
      let r := run env k in
      (ConsoleErrorCall l p :: fst r, snd r)
  end.

(** The calls made and the session left by a handler started in [s]. *)
Definition calls_of (env : Collaborators) (h : M unit) (s : Session)
  : list Call := fst (run env (h s)).

Definition session_after (env : Collaborators) (h : M unit) (s : Session)
  : Session := snd (snd (run env (h s))).

Definition is_agent_call (c : Call) : bool :=
  match c with AgentCall _ _ _ => true | _ => false end.


(* ===================================================================== *)
(** * A reference runtime *)
(* ===================================================================== *)

(** [JSON.parse] by recursive descent over the JSON grammar (ECMA-404),
    and the string conversions of values, to run the page on concrete
    envelopes. *)
Module Reference.

Inductive parsed (A : Type) : Type :=
| Parsed (a : A) (rest : jstr)
| SyntaxError
| OutOfFuel.
Arguments Parsed {A} a rest.
Arguments SyntaxError {A}.
Arguments OutOfFuel {A}.

Definition is_json_ws (c : N) : bool :=
  N.eqb c 32 || N.eqb c 9 || N.eqb c 10 || N.eqb c 13.

Fixpoint skip_ws (s : jstr) : jstr :=
  match s with
  | c :: s' => if is_json_ws c then skip_ws s' else s
  | [] => []
  end.

Definition hex_value (c : N) : option N :=
  if N.leb 48 c && N.leb c 57 then Some (c - 48)%N
  else if N.leb 97 c && N.leb c 102 then Some (c - 87)%N
  else if N.leb 65 c && N.leb c 70 then Some (c - 55)%N
  else None.

Definition hex4 (a b c d : N) : option N :=
  match hex_value a, hex_value b, hex_value c, hex_value d with
  | Some x, Some y, Some z, Some w =>
      Some (((x * 16 + y) * 16 + z) * 16 + w)%N
  | _, _, _, _ => None
  end.

(** The character an escape letter stands for. *)
Definition unescape (e : N) : option N :=
  if N.eqb e 34 || N.eqb e 92 || N.eqb e 47 then Some e
  else if N.eqb e 98 then Some 8%N
  else if N.eqb e 102 then Some 12%N
  else if N.eqb e 110 then Some 10%N
  else if N.eqb e 114 then Some 13%N
  else if N.eqb e 116 then Some 9%N
  else None.

(** The characters of a string up to its closing quote, and what
    follows the quote. *)
Fixpoint string_chars (s : jstr) : option (jstr * jstr) :=
  match s with
  | [] => None
  | c :: rest =>
      if N.eqb c 34 then Some ([], rest)
      else if N.eqb c 92 then
        match rest with
        | [] => None
        | e :: rest1 =>
            if N.eqb e 117 then
              match rest1 with
              | h1 :: h2 :: h3 :: h4 :: rest2 =>
                  match hex4 h1 h2 h3 h4, string_chars rest2 with
                  | Some u, Some (str, r) => Some (u :: str, r)
                  | _, _ => None
                  end
              | _ => None
              end
            else
              match unescape e, string_chars rest1 with
              | Some u, Some (str, r) => Some (u :: str, r)
              | _, _ => None
              end
        end
      else if N.ltb c 32 then None
      else
        match string_chars rest with
        | Some (str, r) => Some (c :: str, r)
        | None => None
        end
  end.

Fixpoint take_digits (s : jstr) : list N * jstr :=
  match s with
  | c :: s' =>
      match digit_of c with
      | Some d => (d :: fst (take_digits s'), snd (take_digits s'))
      | None => ([], s)
      end
  | [] => ([], [])
  end.

Definition digits_Z (ds : list N) : Z :=
  fold_left (fun a d => 10 * a + Z.of_N d)%Z ds 0%Z.

(** The integer part: a lone [0], or digits that do not start with [0]. *)
Definition int_part (s : jstr) : option (list N * jstr) :=
  match s with
  | c :: s' =>
      if N.eqb c 48 then Some ([0%N], s')
      else
        match take_digits s with
        | ([], _) => None
        | (ds, r) => Some (ds, r)
        end
  | [] => None
  end.

Definition frac_part (s : jstr) : option (list N * jstr) :=
  match s with
  | c :: s' =>
      if N.eqb c 46 then
        match take_digits s' with
        | ([], _) => None
        | (ds, r) => Some (ds, r)
        end
      else Some ([], s)
  | [] => Some ([], [])
  end.

Definition exp_part (s : jstr) : option (Z * jstr) :=
  match s with
  | c :: s' =>
      if N.eqb c 101 || N.eqb c 69 then
        let signed :=
          match s' with
          | g :: s'' =>
              if N.eqb g 45 then (true, s'')
              else if N.eqb g 43 then (false, s'')
              else (false, s')
          | [] => (false, [])
          end in
        match take_digits (snd signed) with
        | ([], _) => None
        | (ds, r) =>
            Some ((if fst signed then - digits_Z ds else digits_Z ds)%Z, r)
        end
      else Some (0%Z, s)
  | [] => Some (0%Z, [])
  end.

Definition parse_number (s : jstr) : option (number * jstr) :=
  let signed :=
    match s with
    | c :: s' => if N.eqb c 45 then (true, s') else (false, s)
    | [] => (false, [])
    end in
  match int_part (snd signed) with
  | None => None
  | Some (ip, s1) =>
      match frac_part s1 with
      | None => None
      | Some (fp, s2) =>
          match exp_part s2 with
          | None => None
          | Some (e, s3) =>
              let m := digits_Z (ip ++ fp) in
              Some ({| mantissa := if fst signed then (- m)%Z else m;
                       exponent10 := (e - Z.of_nat (length fp))%Z |},
                    s3)
          end
      end
  end.

Fixpoint strip_prefix (p s : jstr) : option jstr :=
  match p, s with
  | [], _ => Some s
  | a :: p', b :: s' => if N.eqb a b then strip_prefix p' s' else None
  | _ :: _, [] => None
  end.

(** Array indices come first among the keys of an object, in ascending
    order; the other keys follow in the order they were created. *)
Definition array_index (k : jstr) : option N :=
  match index_of_key k with
  | Some i => if N.ltb i 4294967295 then Some i else None
  | None => None
  end.

Fixpoint replace_value (k : jstr) (v : JsVal) (ps : props) : props :=
  match ps with
  | [] => []
  | (k', v') :: ps' =>
      if jstr_eqb k k' then (k', v) :: ps'
      else (k', v') :: replace_value k v ps'
  end.

Fixpoint insert_index (i : N) (k : jstr) (v : JsVal) (ps : props)
  : props :=
  match ps with
  | [] => [(k, v)]
  | (k', v') :: ps' =>
      match array_index k' with
      | Some j =>
          if N.ltb i j then (k, v) :: ps
          else (k', v') :: insert_index i k v ps'
      | None => (k, v) :: ps
      end
  end.

(** CreateDataProperty on the object under construction. *)
Definition define_property (k : jstr) (v : JsVal) (ps : props) : props :=
  match lookup k ps with
  | Some _ => replace_value k v ps
  | None =>
      match array_index k with
      | Some i => insert_index i k v ps
      | None => ps ++ [(k, v)]
      end
  end.

Definition is_char (c : N) (s : string) : bool := jstr_eqb [c] (lit s).

Fixpoint parse_value (fuel : nat) (s : jstr) {struct fuel}
  : parsed JsVal :=
  match fuel with
  | O => OutOfFuel
  | S fuel' =>
      match skip_ws s with
      | [] => SyntaxError
      | c :: rest =>
          if is_char c "{" then
            match skip_ws rest with
            | [] => SyntaxError
            | c' :: rest' =>
                if is_char c' "}" then Parsed (JObj []) rest'
                else parse_members fuel' [] (c' :: rest')
            end
          else if is_char c "[" then
            match skip_ws rest with
            | [] => SyntaxError
            | c' :: rest' =>
                if is_char c' "]" then Parsed (JArr []) rest'
                else parse_elements fuel' [] (c' :: rest')
            end
          else if N.eqb c 34 then
            match string_chars rest with
            | Some (str, r) => Parsed (JStr str) r
            | None => SyntaxError
            end
          else if is_char c "t" then
            match strip_prefix (lit "rue") rest with
            | Some r => Parsed (JBool true) r
            | None => SyntaxError
            end
          else if is_char c "f" then
            match strip_prefix (lit "alse") rest with
            | Some r => Parsed (JBool false) r
            | None => SyntaxError
            end
          else if is_char c "n" then
            match strip_prefix (lit "ull") rest with
            | Some r => Parsed JNull r
            | None => SyntaxError
            end
          else
            match parse_number (c :: rest) with
            | Some (n, r) => Parsed (JNum n) r
            | None => SyntaxError
            end
      end
  end

with parse_elements (fuel : nat) (acc : list JsVal) (s : jstr)
       {struct fuel} : parsed JsVal :=
  match fuel with
  | O => OutOfFuel
  | S fuel' =>
      match parse_value fuel' s with
      | Parsed v rest =>
          match skip_ws rest with
          | [] => SyntaxError
          | c :: rest' =>
              if is_char c "," then parse_elements fuel' (v :: acc) rest'
              else if is_char c "]"
              then Parsed (JArr (rev (v :: acc))) rest'
              else SyntaxError
          end
      | SyntaxError => SyntaxError
      | OutOfFuel => OutOfFuel
      end
  end

with parse_members (fuel : nat) (acc : props) (s : jstr)
       {struct fuel} : parsed JsVal :=
  match fuel with
  | O => OutOfFuel
  | S fuel' =>
      match skip_ws s with
      | [] => SyntaxError
      | q :: s1 =>
          if N.eqb q 34 then
            match string_chars s1 with
            | None => SyntaxError
            | Some (key, s2) =>
                match skip_ws s2 with
                | [] => SyntaxError
                | colon :: s3 =>
                    if is_char colon ":" then
                      match parse_value fuel' s3 with
                      | Parsed v rest =>
                          match skip_ws rest with
                          | [] => SyntaxError
                          | c :: rest' =>
                              if is_char c "," then
                                parse_members fuel'
                                  (define_property key v acc) rest'
                              else if is_char c "}" then
                                Parsed (JObj (define_property key v acc))
                                  rest'
                              else SyntaxError
                          end
                      | SyntaxError => SyntaxError
                      | OutOfFuel => OutOfFuel
                      end
                    else SyntaxError
                end
            end
          else SyntaxError
      end
  end.

(** A whole text: one value between optional white space. *)
Definition parse_text (s : jstr) : parsed JsVal :=
  match parse_value (2 * length s + 2) s with
  | Parsed v rest =>
      match skip_ws rest with
      | [] => Parsed v []
      | _ :: _ => SyntaxError
      end
  | SyntaxError => SyntaxError
  | OutOfFuel => OutOfFuel
  end.

Definition parse (s : jstr) : option JsVal :=
  match parse_text s with
  | Parsed v _ => Some v
  | _ => None
  end.

(** Number::toString, exact for the decimals of up to 15 significant
    digits between [1e-7] and [1e21] in magnitude (their nearest double
    prints back as themselves); the examples below hold no other
    number. *)
Definition digits_text (z : Z) : jstr :=
  lit (NilZero.string_of_uint (N.to_uint (Z.to_N (Z.abs z)))).

Fixpoint strip_zeros_rev (r : jstr) : jstr :=
  match r with
  | c :: r' => if N.eqb c 48 then strip_zeros_rev r' else r
  | [] => []
  end.

Definition number_text (n : number) : jstr :=
  if Z.eqb (mantissa n) 0 then lit "0"
  else
    let sign := if Z.ltb (mantissa n) 0 then lit "-" else [] in
    let ds := digits_text (mantissa n) in
    if Z.leb 0 (exponent10 n)
    then sign ++ ds ++ repeat 48%N (Z.to_nat (exponent10 n))
    else
      let k := Z.to_nat (- exponent10 n) in
      let padded := repeat 48%N (S k - length ds) ++ ds in
      let int_digits := firstn (length padded - k) padded in
      let frac := rev (strip_zeros_rev (rev (skipn (length padded - k)
                                                padded))) in
      match frac with
      | [] => sign ++ int_digits
      | _ :: _ => sign ++ int_digits ++ lit "." ++ frac
      end.

Fixpoint join (sep : jstr) (parts : list jstr) : jstr :=
  match parts with
  | [] => []
  | [p] => p
  | p :: parts' => p ++ sep ++ join sep parts'
  end.

(** [String(v)] *)
Fixpoint String_of (v : JsVal) : jstr :=
  match v with
  | JUndefined => lit "undefined"
  | JNull => lit "null"
  | JBool true => lit "true"
  | JBool false => lit "false"
  | JNum n => number_text n
  | JStr s => s
  | JArr l =>
      join (lit ",")
        (map (fun e => match e with
                       | JUndefined | JNull => []
                       | _ => String_of e
                       end) l)
  | JObj _ => lit "[object Object]"
  end.

Definition hex_digit (d : N) : N :=
  if N.ltb d 10 then (48 + d)%N else (87 + d)%N.

Definition unicode_escape (c : N) : jstr :=
  lit "\u" ++ [hex_digit (c / 4096 mod 16); hex_digit (c / 256 mod 16);
               hex_digit (c / 16 mod 16); hex_digit (c mod 16)]%N.

Definition is_lead (c : N) : bool := N.leb 55296 c && N.leb c 56319.
Definition is_trail (c : N) : bool := N.leb 56320 c && N.leb c 57343.

(** QuoteJSONString, without the surrounding quotes. *)
Fixpoint quote_chars (s : jstr) : jstr :=
  match s with
  | [] => []
  | c :: s' =>
      if N.eqb c 8 then lit "\b" ++ quote_chars s'
      else if N.eqb c 9 then lit "\t" ++ quote_chars s'
      else if N.eqb c 10 then lit "\n" ++ quote_chars s'
      else if N.eqb c 12 then lit "\f" ++ quote_chars s'
      else if N.eqb c 13 then lit "\r" ++ quote_chars s'
      else if N.eqb c 34 then [92; 34]%N ++ quote_chars s'
      else if N.eqb c 92 then [92; 92]%N ++ quote_chars s'
      else if N.ltb c 32 then unicode_escape c ++ quote_chars s'
      else if is_lead c then
        match s' with
        | d :: s'' =>
            if is_trail d then c :: d :: quote_chars s''
            else unicode_escape c ++ quote_chars s'
        | [] => unicode_escape c
        end
      else if is_trail c then unicode_escape c ++ quote_chars s'
      else c :: quote_chars s'
  end.

Definition quote (s : jstr) : jstr := [34%N] ++ quote_chars s ++ [34%N].

(** SerializeJSONProperty without indentation; [None] is [undefined]. *)
Fixpoint serialize (v : JsVal) : option jstr :=
  match v with
  | JUndefined => None
  | JNull => Some (lit "null")
  | JBool true => Some (lit "true")
  | JBool false => Some (lit "false")
  | JNum n => Some (number_text n)
  | JStr s => Some (quote s)
  | JArr l =>
      Some (lit "[" ++
            join (lit ",")
              (map (fun e => match serialize e with
                             | Some t => t
                             | None => lit "null"
                             end) l)
            ++ lit "]")
  | JObj ps =>
      Some (lit "{" ++
            join (lit ",")
              ((fix members (ps : list (jstr * JsVal)) : list jstr :=
                  match ps with
                  | [] => []
                  | (k, e) :: ps' =>
                      match serialize e with
                      | Some t => (quote k ++ lit ":" ++ t) :: members ps'
                      | None => members ps'
                      end
                  end) ps)
            ++ lit "}")
  end.

(** [JSON.stringify(v)] of a value that is not [undefined]. *)
Definition stringify (v : JsVal) : jstr :=
  match serialize v with
  | Some t => t
  | None => []
  end.

(** The message V8 gives the TypeError of a read on [null] or
    [undefined]. *)
Definition type_error_text (v : JsVal) (k : jstr) : jstr :=
  lit "Cannot read properties of " ++ String_of v ++ lit " (reading '"
    ++ k ++ lit "')".

Definition runtime : JsRuntime := {|
  JSON_parse := parse;
  JSON_stringify := stringify;
  ToString_other := String_of;
  TypeError_message := type_error_text
|}.

(** JSON text written with apostrophes for its double quotes. *)
Definition json (s : string) : jstr :=
  map (fun c => if N.eqb c 39 then 34%N else c) (lit s).

End Reference.


(* ===================================================================== *)
(** * Properties of the matcher *)
(* ===================================================================== *)

(** The strings a pattern denotes. *)
Inductive lang (i : bool) : regex -> jstr -> Prop :=
| lang_Chr (p y : N) :
    canonicalize i y = canonicalize i p -> lang i (Chr p) [y]
| lang_Class (member : N -> bool) (y : N) :
    member y = true -> lang i (Class member) [y]
| lang_Seq (r1 r2 : regex) (m1 m2 : jstr) :
    lang i r1 m1 -> lang i r2 m2 -> lang i (Seq r1 r2) (m1 ++ m2)
| lang_Alt_l (r1 r2 : regex) (m : jstr) :
    lang i r1 m -> lang i (Alt r1 r2) m
| lang_Alt_r (r1 r2 : regex) (m : jstr) :
    lang i r2 m -> lang i (Alt r1 r2) m
| lang_Opt_none (r : regex) : lang i (Opt r) []
| lang_Opt_some (r : regex) (m : jstr) : lang i r m -> lang i (Opt r) m
| lang_Plus_one (r : regex) (m : jstr) : lang i r m -> lang i (Plus r) m
| lang_Plus_more (r : regex) (m1 m2 : jstr) :
    lang i r m1 -> lang i (Plus r) m2 -> lang i (Plus r) (m1 ++ m2).

Section MatcherFacts.
Variable ignoreCase : bool.
Variable A : Type.

(** What a success of [m] means: some string of [L] was taken off the
    front of the input and the continuation accepted the rest. *)
Definition sound_for (L : jstr -> Prop)
           (m : jstr -> (jstr -> option A) -> option A) : Prop :=
  forall x c a,
    m x c = Some a -> exists w y, x = w ++ y /\ L w /\ c y = Some a.

(** What [m] owes to [L]: it succeeds whenever the input opens with a
    string of [L] whose rest the continuation accepts. *)
Definition complete_for (L : jstr -> Prop)
           (m : jstr -> (jstr -> option A) -> option A) : Prop :=
  forall w y c,
    L w -> c y <> None -> m (w ++ y) c <> None.

Lemma repeat_matcher_sound (r : regex) (c : jstr -> option A) (a : A) :
  sound_for (lang ignoreCase r) (matcher ignoreCase r) ->
  forall fuel x,
    repeat_matcher (matcher ignoreCase r) c fuel x = Some a ->
    exists w y, x = w ++ y /\ (w = [] \/ lang ignoreCase (Plus r) w) /\ c y = Some a.
Proof.
  intros Hr. induction fuel as [| fuel IH]; intros x H; cbn [repeat_matcher] in H.
  - exists [], x. auto.
  - destruct (matcher ignoreCase r x _) as [a' |] eqn:E.
    + inversion H; subst a'. apply Hr in E.
      destruct E as (w & y & Hx & Hw & Hc).
      destruct (Nat.ltb (length y) (length x)); [| discriminate].
      apply IH in Hc. destruct Hc as (w' & y' & Hy & Hw' & Hc').
      exists (w ++ w'), y'. rewrite <- app_assoc, <- Hy.
      split; [exact Hx | split; [| exact Hc']].
      right. destruct Hw' as [-> | Hw'].
      * rewrite app_nil_r. apply lang_Plus_one. exact Hw.
      * apply lang_Plus_more; assumption.
    + exists [], x. auto.
Qed.

(** Soundness: a success of the matcher of [r] has taken a string of [r]
    off the input. *)
Lemma matcher_sound (r : regex) : sound_for (lang ignoreCase r) (matcher ignoreCase r).
Proof.
  induction r as [p | member | r1 IH1 r2 IH2 | r1 IH1 r2 IH2 | r1 IH1
                 | r1 IH1]; intros x c a Hm; cbn [matcher] in Hm.
  - destruct x as [| y x']; [discriminate |].
    destruct (N.eqb _ _) eqn:E; [| discriminate].
    apply N.eqb_eq in E.
    exists [y], x'. repeat split; [constructor; exact E | exact Hm].
  - destruct x as [| y x']; [discriminate |].
    destruct (member y) eqn:E; [| discriminate].
    exists [y], x'. repeat split; [constructor; exact E | exact Hm].
  - apply IH1 in Hm. destruct Hm as (w1 & y1 & Hx & Hw1 & Hm).
    apply IH2 in Hm. destruct Hm as (w2 & y2 & Hy & Hw2 & Hc).
    exists (w1 ++ w2), y2. rewrite <- app_assoc, <- Hy.
    repeat split; [exact Hx | constructor; assumption | exact Hc].
  - destruct (matcher ignoreCase r1 x c) as [a' |] eqn:E.
    + inversion Hm; subst a'. apply IH1 in E.
      destruct E as (w & y & Hx & Hw & Hc).
      exists w, y. repeat split; [exact Hx | apply lang_Alt_l; exact Hw
                                 | exact Hc].
    + apply IH2 in Hm. destruct Hm as (w & y & Hx & Hw & Hc).
      exists w, y. repeat split; [exact Hx | apply lang_Alt_r; exact Hw
                                 | exact Hc].
  - destruct (matcher ignoreCase r1 x c) as [a' |] eqn:E.
    + inversion Hm; subst a'. apply IH1 in E.
      destruct E as (w & y & Hx & Hw & Hc).
      exists w, y. repeat split; [exact Hx | apply lang_Opt_some; exact Hw
                                 | exact Hc].
    + exists [], x. repeat split; [constructor | exact Hm].
  - apply IH1 in Hm. destruct Hm as (w & y & Hx & Hw & Hm).
    apply (@repeat_matcher_sound r1 c a IH1) in Hm.
    destruct Hm as (w' & y' & Hy & Hw' & Hc).
    exists (w ++ w'), y'. rewrite <- app_assoc, <- Hy.
    split; [exact Hx | split; [| exact Hc]].
    destruct Hw' as [-> | Hw'].
    + rewrite app_nil_r. apply lang_Plus_one. exact Hw.
    + apply lang_Plus_more; assumption.
Qed.

Lemma repeat_matcher_continues (m : jstr -> (jstr -> option A) -> option A)
      (c : jstr -> option A) (fuel : nat) (y : jstr) :
  c y <> None -> repeat_matcher m c fuel y <> None.
Proof.
  intros Hc. destruct fuel as [| fuel]; cbn [repeat_matcher]; [exact Hc |].
  destruct (m y _); [discriminate | exact Hc].
Qed.

Lemma repeat_matcher_complete (r : regex) (c : jstr -> option A) :
  complete_for (lang ignoreCase r) (matcher ignoreCase r) ->
  forall R w, lang ignoreCase R w -> R = Plus r ->
    forall y fuel,
      length (w ++ y) <= fuel -> c y <> None ->
      repeat_matcher (matcher ignoreCase r) c fuel (w ++ y) <> None.
Proof.
  intros Hr R w Hl. induction Hl as [| | | | | | | r' m Hm | r' m1 m2 Hm1 _ Hm2 IH];
    intros HR; inversion HR; subst; intros y fuel Hfuel Hc.
  - destruct m as [| c0 m].
    + apply repeat_matcher_continues. exact Hc.
    + destruct fuel as [| fuel]; [cbn [app length] in Hfuel; lia |].
      cbn [repeat_matcher].
      destruct (matcher ignoreCase r ((c0 :: m) ++ y) _) eqn:E; [discriminate |].
      exfalso. revert E. apply Hr; [exact Hm |].
      assert (Hlt : Nat.ltb (length y) (length ((c0 :: m) ++ y)) = true).
      { apply Nat.ltb_lt. rewrite length_app. cbn [length]. lia. }
      rewrite Hlt. apply repeat_matcher_continues. exact Hc.
  - destruct m1 as [| c0 m1].
    + cbn [app]. apply IH; [reflexivity | exact Hfuel | exact Hc].
    + destruct fuel as [| fuel]; [cbn [app length] in Hfuel; lia |].
      cbn [repeat_matcher].
      destruct (matcher ignoreCase r (((c0 :: m1) ++ m2) ++ y) _) eqn:E;
        [discriminate |].
      exfalso. revert E. rewrite <- app_assoc. apply Hr; [exact Hm1 |].
      assert (Hlt : Nat.ltb (length (m2 ++ y))
                      (length ((c0 :: m1) ++ m2 ++ y)) = true).
      { apply Nat.ltb_lt. rewrite !length_app. cbn [length]. lia. }
      rewrite Hlt. apply IH; [reflexivity | | exact Hc].
      rewrite <- app_assoc in Hfuel. rewrite !length_app in *.
      cbn [length] in Hfuel. lia.
Qed.

(** Completeness: the matcher of [r] finds a match wherever there is
    one. *)
Lemma matcher_complete (r : regex) : complete_for (lang ignoreCase r) (matcher ignoreCase r).
Proof.
  induction r as [p | member | r1 IH1 r2 IH2 | r1 IH1 r2 IH2 | r1 IH1
                 | r1 IH1]; intros w y c Hl Hc; inversion Hl; subst;
    cbn [matcher app].
  - match goal with H : canonicalize _ _ = _ |- _ => rewrite H end.
    rewrite N.eqb_refl. exact Hc.
  - match goal with H : member _ = true |- _ => rewrite H end. exact Hc.
  - rewrite <- app_assoc. apply IH1; [assumption |].
    apply IH2; assumption.
  - destruct (matcher ignoreCase r1 (w ++ y) c) eqn:E; [discriminate |].
    exfalso. revert E. apply IH1; assumption.
  - destruct (matcher ignoreCase r1 (w ++ y) c); [discriminate |].
    apply IH2; assumption.
  - destruct (matcher ignoreCase r1 y c); [discriminate | exact Hc].
  - destruct (matcher ignoreCase r1 (w ++ y) c) eqn:E; [discriminate |].
    exfalso. revert E. apply IH1; assumption.
  - apply IH1; [assumption |]. apply repeat_matcher_continues. exact Hc.
  - rewrite <- app_assoc. apply IH1; [assumption |].
    eapply (@repeat_matcher_complete r1 c IH1); eauto.
    rewrite !length_app. lia.
Qed.

(** A matcher that succeeds has called its continuation on a rest no
    longer than its input. *)
Lemma matcher_calls_continuation (r : regex) :
  forall (x : jstr) (c : jstr -> option A) (a : A),
    matcher ignoreCase r x c = Some a ->
    exists y, c y = Some a /\ length y <= length x.
Proof.
  intros x c a H. apply matcher_sound in H.
  destruct H as (w & y & Hx & _ & Hc). exists y. split; [exact Hc |].
  subst x. rewrite length_app. lia.
Qed.
End MatcherFacts.

(** The strings of a pattern with its flags. *)
Definition matches (re : RegExp) (m : jstr) : Prop :=
  lang (flag_i re) (source re) m.

Lemma firstn_prefix (w y : jstr) :
  firstn (length (w ++ y) - length y) (w ++ y) = w.
Proof.
  rewrite length_app. replace (length w + length y - length y) with
    (length w + 0) by lia.
  rewrite firstn_app_2. cbn [firstn]. apply app_nil_r.
Qed.

(** An attempt that succeeds gives a prefix of the input that is a
    string of the pattern. *)
Lemma match_here_sound (re : RegExp) (x m : jstr) :
  match_here re x = Some m -> matches re m /\ exists y, x = m ++ y.
Proof.
  unfold match_here, matches.
  destruct (matcher (flag_i re) (source re) x (fun rest => Some rest))
    as [rest |] eqn:E; [| discriminate].
  intros H; inversion H; subst m; clear H.
  apply matcher_sound in E. destruct E as (w & y & Hx & Hw & Hc).
  inversion Hc; subst y x. rewrite firstn_prefix.
  split; [exact Hw | exists rest; reflexivity].
Qed.

(** An attempt fails only where no prefix of the input is a string of the
    pattern. *)
Lemma match_here_complete (re : RegExp) (w y : jstr) :
  matches re w -> match_here re (w ++ y) <> None.
Proof.
  unfold match_here, matches. intros Hw.
  destruct (matcher (flag_i re) (source re) (w ++ y) (fun rest => Some rest))
    eqn:E; [discriminate |].
  exfalso. revert E. apply matcher_complete; [exact Hw | discriminate].
Qed.

(** [s.match(re)] gives the leftmost substring of [s] that is a string
    of the pattern... *)
Lemma String_match_leftmost (re : RegExp) (s m : jstr) :
  String_match re s = Some m ->
  matches re m
  /\ exists pre post,
      s = pre ++ m ++ post
      /\ forall pre' m' post',
          s = pre' ++ m' ++ post' -> matches re m' ->
          length pre <= length pre'.
Proof.
  revert m. induction s as [| c s IH]; intros m; cbn [String_match].
  - destruct (match_here re []) as [m0 |] eqn:E; [| discriminate].
    intros H; inversion H; subst m0.
    apply match_here_sound in E. destruct E as (Hm & y & Hy).
    split; [exact Hm |]. exists [], y. split; [exact Hy |].
    intros; cbn [length]; lia.
  - destruct (match_here re (c :: s)) as [m0 |] eqn:E.
    + intros H; inversion H; subst m0.
      apply match_here_sound in E. destruct E as (Hm & y & Hy).
      split; [exact Hm |]. exists [], y. split; [exact Hy |].
      intros; cbn [length]; lia.
    + intros H. apply IH in H. destruct H as (Hm & pre & post & Hs & Hleft).
      split; [exact Hm |]. exists (c :: pre), post.
      split; [cbn [app]; f_equal; exact Hs |].
      intros pre' m' post' Hs' Hm'.
      destruct pre' as [| c' pre'].
      * exfalso. cbn [app] in Hs'. rewrite Hs' in E.
        revert E. apply match_here_complete. exact Hm'.
      * cbn [app] in Hs'. inversion Hs' as [[Hc Hs'']].
        cbn [length]. apply le_n_S. eapply Hleft; eauto.
Qed.

(** ... and [null] only where [s] has no such substring. *)
Lemma String_match_none (re : RegExp) (s : jstr) :
  String_match re s = None ->
  forall pre m post, s = pre ++ m ++ post -> ~ matches re m.
Proof.
  induction s as [| c s IH]; cbn [String_match].
  - destruct (match_here re []) eqn:E; [discriminate |].
    intros _ pre m post Hs Hm.
    destruct pre; [| discriminate]. cbn [app] in Hs.
    rewrite Hs in E. revert E. apply match_here_complete. exact Hm.
  - destruct (match_here re (c :: s)) eqn:E; [discriminate |].
    intros H pre m post Hs Hm.
    destruct pre as [| c' pre].
    + cbn [app] in Hs. rewrite Hs in E.
      revert E. apply match_here_complete. exact Hm.
    + cbn [app] in Hs. inversion Hs as [[Hc Hs']].
      exact (IH H pre m post Hs' Hm).
Qed.

(** Equality of strings up to the case of ASCII letters. *)
Definition eq_ci (a b : jstr) : Prop :=
  map (canonicalize true) a = map (canonicalize true) b.

(** An image URL as the page looks for it: [http] or [https], [://], one
    or more characters of the class, a dot and one of the extensions, in
    any case. *)
Definition image_url (member : N -> bool) (exts : list jstr) (m : jstr)
  : Prop :=
  exists scheme body ext e,
    m = scheme ++ lit "://" ++ body ++ lit "." ++ ext
    /\ (eq_ci scheme (lit "http") \/ eq_ci scheme (lit "https"))
    /\ body <> [] /\ forallb member body = true
    /\ In e exts /\ eq_ci ext e.

Lemma lang_Lit (s : jstr) (k : regex) (m : jstr) :
  lang true (Lit s k) m <->
  exists a b, m = a ++ b /\ eq_ci a s /\ lang true k b.
Proof.
  revert m. induction s as [| c s IH]; intros m; cbn [Lit].
  - split.
    + intros H. exists [], m. repeat split; assumption.
    + intros (a & b & -> & Ha & Hb). unfold eq_ci in Ha.
      destruct a; [exact Hb | discriminate].
  - split.
    + intros H. inversion H as [| | r1 r2 m1 m2 H1 H2 | | | | | |]; subst.
      inversion H1; subst. apply IH in H2.
      destruct H2 as (a & b & -> & Ha & Hb).
      exists (y :: a), b. repeat split; [| exact Hb].
      unfold eq_ci in *. cbn [map]. f_equal; assumption.
    + intros (a & b & -> & Ha & Hb). unfold eq_ci in Ha.
      destruct a as [| y a]; [discriminate |]. cbn [map] in Ha.
      inversion Ha as [[Hy Ha']].
      change ((y :: a) ++ b) with ([y] ++ (a ++ b)).
      constructor; [constructor; exact Hy |].
      apply IH. exists a, b. repeat split; assumption.
Qed.

Lemma lang_Word (w m : jstr) :
  w <> [] -> (lang true (Word w) m <-> eq_ci m w).
Proof.
  revert m. induction w as [| c w IH]; intros m Hne; [contradiction |].
  destruct w as [| c' w].
  - cbn [Word]. split.
    + intros H. inversion H; subst. unfold eq_ci. cbn [map].
      f_equal; assumption.
    + unfold eq_ci. intros H. destruct m as [| y [| ? ?]];
        try discriminate. cbn [map] in H. inversion H.
      constructor; assumption.
  - change (Word (c :: c' :: w)) with (Seq (Chr c) (Word (c' :: w))). split.
    + intros H. inversion H as [| | r1 r2 m1 m2 H1 H2 | | | | | |]; subst.
      inversion H1; subst. apply IH in H2; [| discriminate].
      unfold eq_ci in *. cbn [app map]. cbn [map] in H2.
      f_equal; assumption.
    + unfold eq_ci. intros H. destruct m as [| y m]; [discriminate |].
      cbn [map] in H. inversion H as [[Hy Hm]].
      change (y :: m) with ([y] ++ m).
      constructor; [constructor; exact Hy |].
      apply IH; [discriminate | exact Hm].
Qed.

Lemma lang_OneOf (ws : list jstr) (m : jstr) :
  Forall (fun w => w <> []) ws ->
  (lang true (OneOf ws) m <-> exists w, In w ws /\ eq_ci m w).
Proof.
  induction ws as [| w ws IH]; intros Hne.
  - cbn [OneOf]. split.
    + intros H. inversion H; discriminate.
    + intros (w & [] & _).
  - inversion Hne as [| ? ? Hw Hws]; subst.
    destruct ws as [| w' ws].
    + cbn [OneOf]. rewrite (lang_Word _ Hw). split.
      * intros H. exists w. split; [left; reflexivity | exact H].
      * intros (w0 & [<- | []] & H). exact H.
    + change (OneOf (w :: w' :: ws))
        with (Alt (Word w) (OneOf (w' :: ws))). split.
      * intros H.
        inversion H as [| | | r1 r2 m0 HL | r1 r2 m0 HR | | | |]; subst.
        -- exists w. split; [left; reflexivity |].
           apply (lang_Word _ Hw). exact HL.
        -- apply (IH Hws) in HR. destruct HR as (w0 & Hin & Hq).
           exists w0. split; [right; exact Hin | exact Hq].
      * intros (w0 & [<- | Hin] & Hq).
        -- apply lang_Alt_l. apply (lang_Word _ Hw). exact Hq.
        -- apply lang_Alt_r. apply (IH Hws). exists w0. split; assumption.
Qed.

Lemma lang_Plus_Class (member : N -> bool) (m : jstr) :
  lang true (Plus (Class member)) m <->
  m <> [] /\ forallb member m = true.
Proof.
  split.
  - intros H. remember (Plus (Class member)) as R eqn:HR.
    induction H as [| | | | | | | r m H | r m1 m2 H1 _ H2 IH];
      inversion HR; subst.
    + inversion H; subst. split; [discriminate |].
      cbn [forallb]. rewrite andb_true_r. assumption.
    + inversion H1; subst. destruct (IH eq_refl) as (_ & Hall).
      split; [discriminate |]. cbn [app forallb].
      apply andb_true_iff. split; assumption.
  - intros (Hne & Hall). induction m as [| y m IH]; [contradiction |].
    cbn [forallb] in Hall. apply andb_true_iff in Hall.
    destruct Hall as (Hy & Hall).
    destruct m as [| y' m].
    + apply lang_Plus_one. constructor. exact Hy.
    + change (y :: y' :: m) with ([y] ++ (y' :: m)).
      apply lang_Plus_more; [constructor; exact Hy |].
      apply IH; [discriminate | exact Hall].
Qed.

Lemma eq_ci_scheme (a : jstr) (s : jstr) :
  lang true (Opt (Chr 115)) s -> eq_ci a (lit "http") ->
  eq_ci (a ++ s) (lit "http") \/ eq_ci (a ++ s) (lit "https").
Proof.
  intros Hs Ha. inversion Hs as [| | | | | r | r m Hm | |]; subst.
  - left. rewrite app_nil_r. exact Ha.
  - right. inversion Hm; subst. unfold eq_ci in *.
    rewrite map_app, Ha. cbn [map].
    match goal with H : canonicalize true _ = _ |- _ => rewrite H end.
    reflexivity.
Qed.

(** The strings of the URL patterns are the image URLs. *)
Lemma url_pattern_image_url (member : N -> bool) (exts : list jstr)
      (m : jstr) :
  Forall (fun w => w <> []) exts ->
  lang true (url_pattern member exts) m -> image_url member exts m.
Proof.
  intros Hexts H. unfold url_pattern in H.
  apply lang_Lit in H. destruct H as (a & b & -> & Ha & H).
  inversion H as [| | r1 r2 s rest Hs Hrest | | | | | |]; subst.
  apply (proj1 (lang_Lit (lit "://")
                  (Seq (Plus (Class member)) (Seq (Chr 46) (OneOf exts)))
                  rest)) in Hrest.
  destruct Hrest as (sep & b' & -> & Hsep & H').
  inversion H' as [| | r1 r2 body rest Hbody Hrest | | | | | |]; subst.
  apply lang_Plus_Class in Hbody. destruct Hbody as (Hne & Hall).
  inversion Hrest as [| | r1 r2 dot ext Hdot Hext | | | | | |]; subst.
  apply (lang_OneOf _ Hexts) in Hext. destruct Hext as (e & Hin & He).
  assert (Hsep' : sep = lit "://").
  { unfold eq_ci in Hsep.
    destruct sep as [| c1 [| c2 [| c3 [| ? ?]]]]; try discriminate.
    cbn [map] in Hsep. inversion Hsep as [[H1 H2 H3]].
    unfold canonicalize in H1, H2, H3. cbn [andb] in H1, H2, H3.
    destruct (N.leb 97 c1 && N.leb c1 122)%bool eqn:E1;
      destruct (N.leb 97 c2 && N.leb c2 122)%bool eqn:E2;
      destruct (N.leb 97 c3 && N.leb c3 122)%bool eqn:E3;
      try (apply andb_true_iff in E1; destruct E1 as (E1a & E1b);
           apply N.leb_le in E1a; apply N.leb_le in E1b);
      try (apply andb_true_iff in E2; destruct E2 as (E2a & E2b);
           apply N.leb_le in E2a; apply N.leb_le in E2b);
      try (apply andb_true_iff in E3; destruct E3 as (E3a & E3b);
           apply N.leb_le in E3a; apply N.leb_le in E3b);
      cbn in H1, H2, H3; try lia.
    subst. reflexivity. }
  assert (Hdot' : dot = lit ".").
  { inversion Hdot as [p y Hy | | | | | | | |]; subst.
    unfold canonicalize in Hy. cbn [andb] in Hy.
    destruct (N.leb 97 y && N.leb y 122)%bool eqn:E1.
    - apply andb_true_iff in E1. destruct E1 as (E1a & E1b).
      apply N.leb_le in E1a. apply N.leb_le in E1b. cbn in Hy. lia.
    - cbn in Hy. subst. reflexivity. }
  subst sep dot.
  exists (a ++ s), body, ext, e.
  rewrite <- !app_assoc. repeat split; try assumption.
  apply eq_ci_scheme; assumption.
Qed.

Lemma image_url_url_pattern (member : N -> bool) (exts : list jstr)
      (m : jstr) :
  Forall (fun w => w <> []) exts ->
  image_url member exts m -> lang true (url_pattern member exts) m.
Proof.
  intros Hexts (scheme & body & ext & e & -> & Hscheme & Hne & Hall & Hin
                & He).
  assert (Htail : lang true
                    (Lit (lit "://")
                       (Seq (Plus (Class member))
                          (Seq (Chr 46) (OneOf exts))))
                    (lit "://" ++ body ++ lit "." ++ ext)).
  { apply lang_Lit. exists (lit "://"), (body ++ lit "." ++ ext).
    repeat split. constructor.
    - apply lang_Plus_Class. split; assumption.
    - change (lit "." ++ ext) with ([46%N] ++ ext).
      constructor; [constructor; reflexivity |].
      apply (lang_OneOf _ Hexts). exists e. split; assumption. }
  unfold url_pattern. apply lang_Lit.
  destruct Hscheme as [Hs | Hs].
  - exists scheme, (lit "://" ++ body ++ lit "." ++ ext).
    repeat split; [exact Hs |].
    change (lit "://" ++ body ++ lit "." ++ ext)
      with ([] ++ (lit "://" ++ body ++ lit "." ++ ext)).
    constructor; [apply lang_Opt_none | exact Htail].
  - unfold eq_ci in Hs.
    destruct scheme as [| c1 [| c2 [| c3 [| c4 [| c5 [| ? ?]]]]]];
      try discriminate.
    cbn [map] in Hs.
    change (map (canonicalize true) (lit "https"))
      with [72; 84; 84; 80; 83]%N in Hs.
    injection Hs as H1 H2 H3 H4 H5.
    exists [c1; c2; c3; c4], ([c5] ++ lit "://" ++ body ++ lit "." ++ ext).
    repeat split.
    + unfold eq_ci. cbn [map]. rewrite H1, H2, H3, H4. reflexivity.
    + constructor; [| exact Htail].
      apply lang_Opt_some. constructor. rewrite H5. reflexivity.
Qed.

Lemma exts_nonempty :
  Forall (fun w : jstr => w <> []) message_exts
  /\ Forall (fun w : jstr => w <> []) raw_exts.
Proof. split; repeat constructor; discriminate. Qed.

(** What a scan for a URL pattern finds: the leftmost substring that is
    an image URL, and nothing only where there is none. *)
Lemma scan_finds_first_image_url (member : N -> bool) (exts : list jstr)
      (s : jstr) :
  Forall (fun w => w <> []) exts ->
  match
    String_match {| source := url_pattern member exts; flag_i := true |} s
  with
  | Some m =>
      image_url member exts m
      /\ exists pre post,
          s = pre ++ m ++ post
          /\ forall pre' m' post',
              s = pre' ++ m' ++ post' -> image_url member exts m' ->
              length pre <= length pre'
  | None =>
      forall pre m post, s = pre ++ m ++ post -> ~ image_url member exts m
  end.
Proof.
  intros Hexts.
  destruct (String_match _ s) as [m |] eqn:E.
  - apply String_match_leftmost in E.
    destruct E as (Hm & pre & post & Hs & Hleft).
    split; [apply url_pattern_image_url; assumption |].
    exists pre, post. split; [exact Hs |].
    intros pre' m' post' Hs' Hm'. eapply Hleft; [exact Hs' |].
    apply image_url_url_pattern; assumption.
  - intros pre m post Hs Hm.
    eapply String_match_none; [exact E | exact Hs |].
    apply image_url_url_pattern; assumption.
Qed.

(** A match of a pattern that opens with a character is not empty. *)
Lemma match_here_nonempty (p : N) (r : regex) (i : bool) (x m : jstr) :
  match_here {| source := Seq (Chr p) r; flag_i := i |} x = Some m ->
  m <> [].
Proof.
  intros H. apply match_here_sound in H. destruct H as (Hm & _).
  unfold matches in Hm. cbn [source flag_i] in Hm.
  inversion Hm as [| | r1 r2 m1 m2 H1 H2 | | | | | |]; subst.
  inversion H1; subst. discriminate.
Qed.

Lemma String_match_nonempty (p : N) (r : regex) (i : bool) (s m : jstr) :
  String_match {| source := Seq (Chr p) r; flag_i := i |} s = Some m ->
  m <> [].
Proof.
  set (re := {| source := Seq (Chr p) r; flag_i := i |}).
  induction s as [| c s IH]; cbn [String_match].
  - destruct (match_here re []) eqn:E; [| discriminate].
    intros H; inversion H; subst. eapply match_here_nonempty; eauto.
  - destruct (match_here re (c :: s)) eqn:E.
    + intros H; inversion H; subst. eapply match_here_nonempty; eauto.
    + exact IH.
Qed.

Lemma url_pattern_opens (member : N -> bool) (exts : list jstr) :
  exists r, url_pattern member exts = Seq (Chr 104) r.
Proof. eexists. reflexivity. Qed.

(** What the page scans for is never the empty string. *)
Lemma url_match_nonempty (member : N -> bool) (exts : list jstr)
      (s m : jstr) :
  String_match {| source := url_pattern member exts; flag_i := true |} s
  = Some m ->
  m <> [].
Proof.
  destruct (url_pattern_opens member exts) as (r & Hr). rewrite Hr.
  apply String_match_nonempty.
Qed.

(* ===================================================================== *)
(** * The reference parser never runs out of fuel *)
(* ===================================================================== *)

Module ReferenceFacts.
Import Reference.

Lemma skip_ws_length (s : jstr) : length (skip_ws s) <= length s.
Proof.
  induction s as [| c s IH]; cbn [skip_ws]; [lia |].
  destruct (is_json_ws c); cbn [length]; lia.
Qed.

Lemma skip_ws_cons (s : jstr) (c : N) (rest : jstr) :
  skip_ws s = c :: rest -> length rest < length s.
Proof.
  intros H. pose proof (skip_ws_length s) as Hl. rewrite H in Hl.
  cbn [length] in Hl. lia.
Qed.

Lemma string_chars_length (s str r : jstr) :
  string_chars s = Some (str, r) -> length r < length s.
Proof.
  remember (length s) as n eqn:Hn. revert s str r Hn.
  induction n as [n IH] using lt_wf_ind. intros s str r Hn H.
  destruct s as [| c rest]; [discriminate |]. cbn [string_chars] in H.
  cbn [length] in Hn.
  destruct (N.eqb c 34).
  { inversion H; subst. cbn [length]. lia. }
  destruct (N.eqb c 92).
  { destruct rest as [| e rest1]; [discriminate |].
    destruct (N.eqb e 117).
    - destruct rest1 as [| h1 [| h2 [| h3 [| h4 rest2]]]]; try discriminate.
      destruct (hex4 h1 h2 h3 h4); [| discriminate].
      destruct (string_chars rest2) as [[str' r'] |] eqn:E; [| discriminate].
      inversion H; subst.
      apply (IH (length rest2)) in E; [| cbn [length]; lia | reflexivity].
      cbn [length]. lia.
    - destruct (unescape e); [| discriminate].
      destruct (string_chars rest1) as [[str' r'] |] eqn:E; [| discriminate].
      inversion H; subst.
      apply (IH (length rest1)) in E; [| cbn [length]; lia | reflexivity].
      cbn [length]. lia. }
  destruct (N.ltb c 32); [discriminate |].
  destruct (string_chars rest) as [[str' r'] |] eqn:E; [| discriminate].
  inversion H; subst.
  apply (IH (length rest)) in E; [| lia | reflexivity].
  cbn [length]. lia.
Qed.

Lemma take_digits_length (s : jstr) :
  length (snd (take_digits s)) + length (fst (take_digits s)) = length s.
Proof.
  induction s as [| c s IH]; cbn [take_digits]; [reflexivity |].
  destruct (digit_of c); cbn [fst snd length]; lia.
Qed.

Lemma take_digits_some (s : jstr) (d : N) (ds : list N) (r : jstr) :
  take_digits s = (d :: ds, r) -> length r < length s.
Proof.
  intros H. pose proof (take_digits_length s) as Hl. rewrite H in Hl.
  cbn [fst snd length] in Hl. lia.
Qed.

Lemma take_digits_rest (s : jstr) (ds : list N) (r : jstr) :
  take_digits s = (ds, r) -> length r <= length s.
Proof.
  intros H. pose proof (take_digits_length s) as Hl. rewrite H in Hl.
  cbn [fst snd] in Hl. lia.
Qed.

Lemma int_part_length (s : jstr) (ds : list N) (r : jstr) :
  int_part s = Some (ds, r) -> length r < length s.
Proof.
  unfold int_part. destruct s as [| c s']; [discriminate |].
  destruct (N.eqb c 48).
  - intros H; inversion H; subst. cbn [length]. lia.
  - destruct (take_digits (c :: s')) as [[| d ds'] r'] eqn:E;
      [discriminate |].
    intros H; inversion H; subst. eapply take_digits_some; eauto.
Qed.

Lemma frac_part_length (s : jstr) (ds : list N) (r : jstr) :
  frac_part s = Some (ds, r) -> length r <= length s.
Proof.
  unfold frac_part. destruct s as [| c s'].
  - intros H; inversion H; subst. lia.
  - destruct (N.eqb c 46).
    + destruct (take_digits s') as [[| d ds'] r'] eqn:E; [discriminate |].
      intros H; inversion H; subst. apply take_digits_rest in E.
      cbn [length]. lia.
    + intros H; inversion H; subst. lia.
Qed.

Lemma exp_part_length (s : jstr) (e : Z) (r : jstr) :
  exp_part s = Some (e, r) -> length r <= length s.
Proof.
  unfold exp_part. destruct s as [| c s'].
  - intros H; inversion H; subst. lia.
  - destruct (N.eqb c 101 || N.eqb c 69)%bool.
    + match goal with
      | |- context [take_digits (snd ?p)] =>
          assert (Hp : length (snd p) <= length s')
      end.
      { destruct s' as [| g s'']; cbn [snd length]; [lia |].
        destruct (N.eqb g 45); cbn [snd length]; [lia |].
        destruct (N.eqb g 43); cbn [snd length]; lia. }
      match goal with
      | |- context [take_digits ?x] =>
          destruct (take_digits x) as [[| d ds'] r'] eqn:E; [discriminate |]
      end.
      intros H; inversion H; subst. apply take_digits_rest in E.
      cbn [length]. lia.
    + intros H; inversion H; subst. lia.
Qed.

Lemma parse_number_length (s : jstr) (n : number) (r : jstr) :
  parse_number s = Some (n, r) -> length r < length s.
Proof.
  unfold parse_number.
  match goal with
  | |- context [int_part (snd ?p)] =>
      assert (Hp : length (snd p) <= length s)
  end.
  { destruct s as [| c s']; cbn [snd length]; [lia |].
    destruct (N.eqb c 45); cbn [snd length]; lia. }
  match goal with
  | |- context [int_part ?x] =>
      destruct (int_part x) as [[ip s1] |] eqn:E1; [| discriminate]
  end.
  destruct (frac_part s1) as [[fp s2] |] eqn:E2; [| discriminate].
  destruct (exp_part s2) as [[e s3] |] eqn:E3; [| discriminate].
  intros H; inversion H; subst.
  apply int_part_length in E1. apply frac_part_length in E2.
  apply exp_part_length in E3. lia.
Qed.

Lemma strip_prefix_length (p s r : jstr) :
  strip_prefix p s = Some r -> length r <= length s.
Proof.
  revert s. induction p as [| a p IH]; intros s; cbn [strip_prefix].
  - intros H; inversion H; subst. lia.
  - destruct s as [| b s']; [discriminate |].
    destruct (N.eqb a b); [| discriminate].
    intros H. apply IH in H. cbn [length]. lia.
Qed.

(** A parser call is in order when it does not run out of fuel and
    leaves less than it was given. *)
Definition in_order (s : jstr) (p : parsed JsVal) : Prop :=
  p <> OutOfFuel
  /\ forall v rest, p = Parsed v rest -> length rest < length s.

Lemma in_order_syntax (s : jstr) : in_order s SyntaxError.
Proof. split; [discriminate | intros; discriminate]. Qed.

Lemma in_order_parsed (s : jstr) (v : JsVal) (rest : jstr) :
  length rest < length s -> in_order s (Parsed v rest).
Proof.
  intros H. split; [discriminate |].
  intros v' rest' E; inversion E; subst; exact H.
Qed.

Lemma in_order_weaken (s s' : jstr) (p : parsed JsVal) :
  length s' <= length s -> in_order s' p -> in_order s p.
Proof.
  intros Hl (H1 & H2). split; [exact H1 |].
  intros v rest E. apply H2 in E. lia.
Qed.

Lemma parse_in_order (fuel : nat) :
  (forall s, 2 * length s + 2 <= fuel -> in_order s (parse_value fuel s))
  /\ (forall acc s, 2 * length s + 3 <= fuel ->
                    in_order s (parse_elements fuel acc s))
  /\ (forall acc s, 2 * length s + 3 <= fuel ->
                    in_order s (parse_members fuel acc s)).
Proof.
  induction fuel as [| fuel (IHv & IHe & IHm)].
  - repeat split; intros; lia.
  - split; [| split].
    + intros s Hf. cbn [parse_value].
      destruct (skip_ws s) as [| c rest] eqn:Es; [apply in_order_syntax |].
      apply skip_ws_cons in Es.
      destruct (is_char c "{").
      { destruct (skip_ws rest) as [| c' rest'] eqn:Er;
          [apply in_order_syntax |].
        apply skip_ws_cons in Er.
        destruct (is_char c' "}"); [apply in_order_parsed; lia |].
        apply in_order_weaken with (s' := c' :: rest');
          [cbn [length]; lia |].
        apply IHm. cbn [length]. lia. }
      destruct (is_char c "[").
      { destruct (skip_ws rest) as [| c' rest'] eqn:Er;
          [apply in_order_syntax |].
        apply skip_ws_cons in Er.
        destruct (is_char c' "]"); [apply in_order_parsed; lia |].
        apply in_order_weaken with (s' := c' :: rest');
          [cbn [length]; lia |].
        apply IHe. cbn [length]. lia. }
      destruct (N.eqb c 34).
      { destruct (string_chars rest) as [[str r] |] eqn:E;
          [| apply in_order_syntax].
        apply string_chars_length in E. apply in_order_parsed. lia. }
      destruct (is_char c "t").
      { destruct (strip_prefix (lit "rue") rest) as [r |] eqn:E;
          [| apply in_order_syntax].
        apply strip_prefix_length in E. apply in_order_parsed. lia. }
      destruct (is_char c "f").
      { destruct (strip_prefix (lit "alse") rest) as [r |] eqn:E;
          [| apply in_order_syntax].
        apply strip_prefix_length in E. apply in_order_parsed. lia. }
      destruct (is_char c "n").
      { destruct (strip_prefix (lit "ull") rest) as [r |] eqn:E;
          [| apply in_order_syntax].
        apply strip_prefix_length in E. apply in_order_parsed. lia. }
      destruct (parse_number (c :: rest)) as [[n r] |] eqn:E;
        [| apply in_order_syntax].
      apply parse_number_length in E. cbn [length] in E.
      apply in_order_parsed. lia.
    + intros acc s Hf. cbn [parse_elements].
      destruct (IHv s ltac:(lia)) as (Hnf & Hdec).
      destruct (parse_value fuel s) as [v rest | |] eqn:E;
        [| apply in_order_syntax | contradiction].
      specialize (Hdec v rest eq_refl).
      destruct (skip_ws rest) as [| c rest'] eqn:Er;
        [apply in_order_syntax |].
      apply skip_ws_cons in Er.
      destruct (is_char c ",").
      { apply in_order_weaken with (s' := rest'); [lia |].
        apply IHe. lia. }
      destruct (is_char c "]"); [| apply in_order_syntax].
      apply in_order_parsed. lia.
    + intros acc s Hf. cbn [parse_members].
      destruct (skip_ws s) as [| q s1] eqn:Es; [apply in_order_syntax |].
      apply skip_ws_cons in Es.
      destruct (N.eqb q 34); [| apply in_order_syntax].
      destruct (string_chars s1) as [[key s2] |] eqn:Ek;
        [| apply in_order_syntax].
      apply string_chars_length in Ek.
      destruct (skip_ws s2) as [| colon s3] eqn:Ec;
        [apply in_order_syntax |].
      apply skip_ws_cons in Ec.
      destruct (is_char colon ":"); [| apply in_order_syntax].
      destruct (IHv s3 ltac:(lia)) as (Hnf & Hdec).
      destruct (parse_value fuel s3) as [v rest | |] eqn:E;
        [| apply in_order_syntax | contradiction].
      specialize (Hdec v rest eq_refl).
      destruct (skip_ws rest) as [| c rest'] eqn:Er;
        [apply in_order_syntax |].
      apply skip_ws_cons in Er.
      destruct (is_char c ",").
      { apply in_order_weaken with (s' := rest'); [lia |].
        apply IHm. lia. }
      destruct (is_char c "}"); [| apply in_order_syntax].
      apply in_order_parsed. lia.
Qed.

(** The fuel [parse_text] gives is enough: a text is parsed or is in
    error. *)
Lemma parse_text_total (s : jstr) : parse_text s <> OutOfFuel.
Proof.
  unfold parse_text.
  destruct (proj1 (parse_in_order (2 * length s + 2)) s (le_n _))
    as (Hnf & _).
  destruct (parse_value (2 * length s + 2) s) as [v rest | |];
    [| discriminate | contradiction].
  destruct (skip_ws rest); discriminate.
Qed.

(** [parse] says [None] for a syntax error only. *)
Lemma parse_None_syntax (s : jstr) :
  parse s = None <-> parse_text s = SyntaxError.
Proof.
  unfold parse. pose proof (parse_text_total s) as Ht.
  destruct (parse_text s); split; intros H; try discriminate;
    try reflexivity; contradiction.
Qed.

End ReferenceFacts.

(* ===================================================================== *)
(** * Trimming *)
(* ===================================================================== *)

(** A blank string: white space only. *)
Definition blank (s : jstr) : bool := forallb is_js_whitespace s.

Lemma blank_app (a b : jstr) : blank (a ++ b) = (blank a && blank b)%bool.
Proof. apply forallb_app. Qed.

Lemma blank_rev (s : jstr) : blank (rev s) = blank s.
Proof.
  induction s as [| c s IH]; [reflexivity |].
  cbn [rev]. rewrite blank_app, IH. cbn [blank forallb].
  rewrite andb_true_r. apply andb_comm.
Qed.

Lemma trimStart_nil_iff (s : jstr) : trimStart s = [] <-> blank s = true.
Proof.
  induction s as [| c s IH]; cbn [trimStart blank forallb].
  - split; reflexivity.
  - destruct (is_js_whitespace c); cbn [andb].
    + exact IH.
    + split; discriminate.
Qed.

(** [trimStart] takes a blank prefix off. *)
Lemma trimStart_prefix (s : jstr) :
  exists pre, s = pre ++ trimStart s /\ blank pre = true.
Proof.
  induction s as [| c s (pre & Hs & Hpre)]; cbn [trimStart].
  - exists []; split; reflexivity.
  - destruct (is_js_whitespace c) eqn:E.
    + exists (c :: pre). cbn [app blank forallb]. rewrite E.
      split; [f_equal; exact Hs | exact Hpre].
    + exists []; split; reflexivity.
Qed.

Lemma trimStart_blank_app (a s : jstr) :
  blank a = true -> trimStart (a ++ s) = trimStart s.
Proof.
  induction a as [| c a IH]; cbn [app trimStart blank forallb];
    [reflexivity |].
  intros H. apply andb_true_iff in H. destruct H as [Hc Ha].
  rewrite Hc. apply IH. exact Ha.
Qed.

Definition starts_nonblank (s : jstr) : bool :=
  match s with
  | c :: _ => negb (is_js_whitespace c)
  | [] => false
  end.

Lemma trimStart_fixed (s : jstr) :
  starts_nonblank s = true -> trimStart s = s.
Proof.
  destruct s as [| c s]; [discriminate |]. cbn [starts_nonblank trimStart].
  destruct (is_js_whitespace c); [discriminate | reflexivity].
Qed.

(** [trim] gives the empty string exactly on blank strings. *)
Lemma trim_nil_iff (s : jstr) : trim s = [] <-> blank s = true.
Proof.
  unfold trim, trimEnd.
  destruct (trimStart_prefix s) as (pre & Hs & Hpre).
  split.
  - intros H. apply (f_equal (@rev N)) in H. rewrite rev_involutive in H.
    cbn [rev] in H. apply trimStart_nil_iff in H. rewrite blank_rev in H.
    rewrite Hs, blank_app, Hpre, H. reflexivity.
  - intros H. apply trimStart_nil_iff in H. rewrite H. reflexivity.
Qed.

(** [trim] takes the blank ends off and keeps what is between them. *)
Lemma trim_core (a core b : jstr) :
  blank a = true -> blank b = true ->
  starts_nonblank core = true -> starts_nonblank (rev core) = true ->
  trim (a ++ core ++ b) = core.
Proof.
  intros Ha Hb Hs He. unfold trim, trimEnd.
  rewrite trimStart_blank_app by exact Ha.
  assert (H1 : trimStart (core ++ b) = core ++ b).
  { apply trimStart_fixed. destruct core; [discriminate | exact Hs]. }
  rewrite H1, rev_app_distr.
  rewrite trimStart_blank_app by (rewrite blank_rev; exact Hb).
  rewrite trimStart_fixed by exact He. apply rev_involutive.
Qed.

(* ===================================================================== *)
(** * Values and property reads *)
(* ===================================================================== *)

Lemma truthy_JStr (s : jstr) : truthy (JStr s) = true <-> s <> [].
Proof.
  destruct s; simpl; split; intros H; try discriminate; try reflexivity.
  contradiction.
Qed.

Lemma truthy_not_empty_string (v : JsVal) :
  truthy v = true -> v <> JStr [].
Proof. intros H E; subst; discriminate. Qed.

Lemma js_or_truthy (a b : JsVal) : truthy a = true -> js_or a b = a.
Proof. unfold js_or; intros ->; reflexivity. Qed.

Lemma js_or_falsy (a b : JsVal) : truthy a = false -> js_or a b = b.
Proof. unfold js_or; intros ->; reflexivity. Qed.

(** [a || null] is [null] or truthy. *)
Lemma js_or_null (a : JsVal) :
  js_or a JNull = JNull \/ truthy (js_or a JNull) = true.
Proof.
  unfold js_or. destruct (truthy a) eqn:E; [right; exact E | left; reflexivity].
Qed.

(** [a || ''] is the empty string exactly when [a] is falsy. *)
Lemma js_or_empty (a : JsVal) :
  js_or a (JStr []) = JStr [] <-> truthy a = false.
Proof.
  unfold js_or. destruct (truthy a) eqn:E; split; intros H;
    try reflexivity; try discriminate.
  subst; discriminate.
Qed.

Lemma first_with_head (f0 : JsVal) (fs : list JsVal) (field : string) :
  truthy (f0 # field) = true ->
  first_with (JArr (f0 :: fs)) field = Some (f0 # field).
Proof.
  intros H. unfold first_with. cbn [Array_isArray elements length elem0 nth].
  rewrite H. reflexivity.
Qed.

Lemma first_with_truthy (files v : JsVal) (field : string) :
  first_with files field = Some v -> truthy v = true.
Proof.
  unfold first_with.
  destruct (Array_isArray files && Nat.ltb 0 (length (elements files)))%bool;
    cbn [andb]; [| discriminate].
  destruct (truthy (elem0 (elements files) # field)) eqn:E; [| discriminate].
  intros H; inversion H; subst. exact E.
Qed.

Lemma first_with_empty (field : string) : first_with (JArr []) field = None.
Proof. reflexivity. Qed.

(** [first_with] fails on whatever is not a non-empty array. *)
Lemma first_with_no_array (files : JsVal) (field : string) :
  (Array_isArray files && Nat.ltb 0 (length (elements files)))%bool = false ->
  first_with files field = None.
Proof. unfold first_with; intros ->; reflexivity. Qed.

(** Index keys read back as the index they print. *)
Lemma lit_String (c : ascii) (s : string) :
  lit (String c s) = N_of_ascii c :: lit s.
Proof. reflexivity. Qed.

Lemma digits_value_acc (d : Decimal.uint) (acc : positive) :
  digits_value (Npos acc) (lit (NilEmpty.string_of_uint d))
  = Some (Npos (Pos.of_uint_acc d acc)).
Proof.
  revert acc. induction d as [| d IH | d IH | d IH | d IH | d IH | d IH
                             | d IH | d IH | d IH | d IH]; intros acc;
    cbn [NilEmpty.string_of_uint Pos.of_uint_acc];
    [reflexivity | ..];
    rewrite lit_String; cbn [digits_value];
    match goal with
    | |- context [digit_of ?c] =>
        let v := eval vm_compute in (digit_of c) in
        change (digit_of c) with v
    end; cbv iota; rewrite <- IH; f_equal; lia.
Qed.

Lemma digits_value_of_uint (d : Decimal.uint) :
  digits_value 0 (lit (NilEmpty.string_of_uint d)) = Some (Pos.of_uint d).
Proof.
  induction d as [| d IH | d IH | d IH | d IH | d IH | d IH
                 | d IH | d IH | d IH | d IH];
    cbn [NilEmpty.string_of_uint Pos.of_uint];
    [reflexivity | ..];
    rewrite lit_String; cbn [digits_value];
    match goal with
    | |- context [digit_of ?c] =>
        let v := eval vm_compute in (digit_of c) in
        change (digit_of c) with v
    end; cbv iota;
    first [exact IH | apply digits_value_acc].
Qed.

Lemma jstr_eqb_refl (a : jstr) : jstr_eqb a a = true.
Proof.
  induction a as [| c a IH]; [reflexivity |].
  cbn [jstr_eqb]. rewrite N.eqb_refl. exact IH.
Qed.

Lemma index_of_key_of_index (i : N) : index_of_key (key_of_index i) = Some i.
Proof.
  assert (Hv : digits_value 0 (key_of_index i) = Some i).
  { unfold key_of_index, NilZero.string_of_uint.
    rewrite <- (DecimalN.Unsigned.of_to i) at 2. unfold N.of_uint.
    destruct (N.to_uint i) eqn:E; try apply digits_value_of_uint.
    reflexivity. }
  unfold index_of_key. rewrite Hv, jstr_eqb_refl.
  destruct (key_of_index i) eqn:E; [| reflexivity].
  unfold key_of_index, NilZero.string_of_uint in E.
  destruct (N.to_uint i); discriminate E.
Qed.

(** The keys [Object.keys] lists for an array read its elements. *)
Lemma get_array_index (l : list JsVal) (i : nat) :
  get (JArr l) (key_of_index (N.of_nat i)) = nth i l JUndefined.
Proof.
  cbn [get]. rewrite index_of_key_of_index, Nat2N.id. reflexivity.
Qed.

(* ===================================================================== *)
(** * Image extraction *)
(* ===================================================================== *)

Section ImageExtraction.
Context `{RT : JsRuntime}.
Import Part000.

(** A strategy finds nothing when it falls through, or hands back
    [null]. *)
Definition finds_nothing (o : option JsVal) : Prop :=
  o = None \/ o = Some JNull.

Definition null_or_truthy (v : JsVal) : Prop :=
  v = JNull \/ truthy v = true.

Lemma scan_keys_truthy (mo : JsVal) (keys : list jstr) (v : JsVal) :
  scan_keys mo keys = Some v -> truthy v = true.
Proof.
  induction keys as [| key keys IH]; cbn [scan_keys]; [discriminate |].
  unfold or_else.
  destruct (first_with (get mo key) "file_url") eqn:E1.
  { intros H; inversion H; subst. eapply first_with_truthy; eauto. }
  destruct (first_with (get mo key) "url") eqn:E2.
  { intros H; inversion H; subst. eapply first_with_truthy; eauto. }
  exact IH.
Qed.

Lemma path1_truthy (result : props) (v : JsVal) :
  path1 result = Some v -> truthy v = true.
Proof.
  unfold path1.
  destruct (truthy (JObj result # "module_outputs" # "artifact_files"));
    [| discriminate].
  apply first_with_truthy.
Qed.

Lemma path2_truthy (result : props) (v : JsVal) :
  path2 result = Some v -> truthy v = true.
Proof.
  unfold path2.
  destruct (truthy (JObj result # "module_outputs")); [| discriminate].
  destruct (truthy (JObj result # "module_outputs" # "url")) eqn:E1.
  { intros H; inversion H; subst; exact E1. }
  destruct (truthy (JObj result # "module_outputs" # "image_url")) eqn:E2.
  { intros H; inversion H; subst; exact E2. }
  apply scan_keys_truthy.
Qed.

Lemma path3_null_or_truthy (result : props) (v : JsVal) :
  path3 result = Some v -> null_or_truthy v.
Proof.
  unfold path3, null_or_truthy.
  set (r := JObj result # "response" # "result").
  destruct (truthy r && typeof_object r)%bool; [| discriminate].
  destruct (truthy (r # "image_url")) eqn:E1.
  { intros H; inversion H; subst; right; exact E1. }
  destruct (truthy (r # "url")) eqn:E2.
  { intros H; inversion H; subst; right; exact E2. }
  destruct (truthy (r # "image")) eqn:E3.
  { intros H; inversion H; subst; right; exact E3. }
  destruct (truthy (r # "output_image")) eqn:E4.
  { intros H; inversion H; subst; right; exact E4. }
  destruct (truthy (r # "generated_image")) eqn:E5.
  { intros H; inversion H; subst; right; exact E5. }
  destruct (truthy (r # "file_url")) eqn:E6.
  { intros H; inversion H; subst; right; exact E6. }
  destruct (Array_isArray (r # "artifact_files")
            && Nat.ltb 0 (length (elements (r # "artifact_files"))))%bool.
  { intros H; inversion H; subst. apply js_or_null. }
  destruct (truthy (r # "module_outputs" # "artifact_files"));
    [| discriminate].
  intros H; right. eapply first_with_truthy; eauto.
Qed.

Lemma path4_truthy (result : props) (v : JsVal) :
  path4 result = Some v -> truthy v = true.
Proof.
  unfold path4.
  destruct (JObj result # "response" # "message") as [| | | | s | |];
    try discriminate.
  destruct s as [| c message]; [discriminate |].
  destruct (String_match MESSAGE_URL_RE (c :: message)) as [m |] eqn:E;
    [| discriminate].
  intros H; inversion H; subst. apply truthy_JStr.
  eapply url_match_nonempty. exact E.
Qed.

Lemma path5_truthy (result : props) (v : JsVal) :
  path5 result = Some v -> truthy v = true.
Proof.
  unfold path5.
  destruct (JObj result # "raw_response") as [| | | | s | |];
    try discriminate.
  destruct s as [| c raw_response]; [discriminate |].
  destruct (JSON_parse (c :: raw_response)) as [raw |].
  - unfold or_else.
    destruct (truthy (raw # "module_outputs" # "artifact_files")).
    + destruct (first_with _ "file_url") eqn:E1.
      { intros H; inversion H; subst. eapply first_with_truthy; eauto. }
      destruct (truthy (raw # "response" # "module_outputs"
                          # "artifact_files")); [| discriminate].
      apply first_with_truthy.
    + destruct (truthy (raw # "response" # "module_outputs"
                          # "artifact_files")); [| discriminate].
      apply first_with_truthy.
  - destruct (String_match RAW_URL_RE (c :: raw_response)) as [m |] eqn:E;
      [| discriminate].
    intros H; inversion H; subst. apply truthy_JStr.
    eapply url_match_nonempty. exact E.
Qed.

(** The value [extractImageUrl] returns is [null] or truthy. *)
Lemma extractImageUrl_null_or_truthy (result : props) :
  null_or_truthy (extractImageUrl result).
Proof.
  unfold extractImageUrl.
  destruct (path1 result) eqn:E1.
  { right; eapply path1_truthy; eauto. }
  destruct (path2 result) eqn:E2.
  { right; eapply path2_truthy; eauto. }
  destruct (path3 result) eqn:E3.
  { eapply path3_null_or_truthy; eauto. }
  destruct (path4 result) eqn:E4.
  { right; eapply path4_truthy; eauto. }
  destruct (path5 result) eqn:E5.
  { right; eapply path5_truthy; eauto. }
  left; reflexivity.
Qed.

(** An envelope without [module_outputs], [response] and [raw_response]
    has nothing for any strategy. *)
Lemma bare_envelope_finds_nothing (result : props) :
  JObj result # "module_outputs" = JUndefined ->
  JObj result # "response" = JUndefined ->
  JObj result # "raw_response" = JUndefined ->
  path1 result = None /\ path2 result = None /\ path3 result = None
  /\ path4 result = None /\ path5 result = None.
Proof.
  intros Hmo Hresp Hraw. unfold path1, path2, path3, path4, path5.
  rewrite Hmo, Hresp, Hraw. repeat split; reflexivity.
Qed.

(** C6.  When no strategy finds anything the result is [null], as it is
    for an envelope with no [module_outputs], [response] or
    [raw_response]; and the result of [extractImageUrl], on any
    envelope, is never the empty string (so [null] is the only way it
    reports failure). *)
Theorem extractImageUrl_null_not_empty (result : props) :
  (finds_nothing (path1 result) -> finds_nothing (path2 result) ->
   finds_nothing (path3 result) -> finds_nothing (path4 result) ->
   finds_nothing (path5 result) ->
   extractImageUrl result = JNull)
  /\ (JObj result # "module_outputs" = JUndefined ->
      JObj result # "response" = JUndefined ->
      JObj result # "raw_response" = JUndefined ->
      extractImageUrl result = JNull)
  /\ extractImageUrl result <> JStr [].
Proof.
  split; [| split].
  - unfold finds_nothing, extractImageUrl.
    intros [E1 | E1] [E2 | E2] [E3 | E3] [E4 | E4] [E5 | E5];
      rewrite ?E1, ?E2, ?E3, ?E4, ?E5; reflexivity.
  - intros Hmo Hresp Hraw.
    destruct (bare_envelope_finds_nothing _ Hmo Hresp Hraw)
      as (E1 & E2 & E3 & E4 & E5).
    unfold extractImageUrl. rewrite E1, E2, E3, E4, E5. reflexivity.
  - destruct (extractImageUrl_null_or_truthy result) as [-> | H].
    + discriminate.
    + apply truthy_not_empty_string. exact H.
Qed.

(** Path 1 decides as soon as element 0 of
    [module_outputs.artifact_files] has a truthy [file_url]. *)
Lemma path1_decides (result : props) (f0 : JsVal) (fs : list JsVal) :
  JObj result # "module_outputs" # "artifact_files" = JArr (f0 :: fs) ->
  truthy (f0 # "file_url") = true ->
  path1 result = Some (f0 # "file_url").
Proof.
  intros Hfiles Hurl. unfold path1. rewrite Hfiles. cbn [truthy].
  apply first_with_head. exact Hurl.
Qed.

(** C1.  An envelope whose [module_outputs.artifact_files] is a
    non-empty array with a [file_url] (a truthy one, as the test
    [files[0]?.file_url] asks) in element 0 yields exactly that
    [file_url], whatever else the envelope holds. *)
Theorem extractImageUrl_artifact_first
        (result : props) (f0 : JsVal) (fs : list JsVal) :
  JObj result # "module_outputs" # "artifact_files" = JArr (f0 :: fs) ->
  truthy (f0 # "file_url") = true ->
  extractImageUrl result = f0 # "file_url".
Proof.
  intros Hfiles Hurl. unfold extractImageUrl.
  rewrite (path1_decides _ Hfiles Hurl). reflexivity.
Qed.

(** The first of [keys] under which [r] holds something, in the order
    given; a key counts as present when its value is truthy, which is
    what [if (r.key) return r.key] asks. *)
Fixpoint first_present (r : JsVal) (keys : list string) : option JsVal :=
  match keys with
  | [] => None
  | k :: keys' =>
      if truthy (r # k) then Some (r # k) else first_present r keys'
  end.

Definition result_keys : list string :=
  ["image_url"%string; "url"%string; "image"%string;
   "output_image"%string; "generated_image"%string; "file_url"%string].

Definition nonempty_array (v : JsVal) : bool :=
  Array_isArray v && Nat.ltb 0 (length (elements v)).

Lemma nonempty_array_cons (x : JsVal) (l : list JsVal) :
  nonempty_array (JArr (x :: l)) = true.
Proof. reflexivity. Qed.

(** Path 3 on an envelope whose [response.result] is a mapping. *)
Lemma path3_on_mapping (result r : props) :
  JObj result # "response" # "result" = JObj r ->
  path3 result =
  match first_present (JObj r) result_keys with
  | Some v => Some v
  | None =>
      if nonempty_array (JObj r # "artifact_files") then
        Some (js_or (js_or (elem0 (elements (JObj r # "artifact_files"))
                              # "file_url")
                           (elem0 (elements (JObj r # "artifact_files"))
                              # "url"))
                    JNull)
      else if truthy (JObj r # "module_outputs" # "artifact_files")
      then first_with (JObj r # "module_outputs" # "artifact_files")
             "file_url"
      else None
  end.
Proof.
  intros Hr. unfold path3, nonempty_array. rewrite Hr.
  cbn [truthy typeof_object andb]. unfold result_keys.
  cbn [first_present].
  repeat match goal with
         | |- context [if truthy ?x then Some ?x else _] =>
             destruct (truthy x); [reflexivity |]
         end.
  reflexivity.
Qed.


(** No other field of [module_outputs] matches: it has no truthy [url]
    or [image_url], and none of its own values is a non-empty array
    whose element 0 has a truthy [file_url] or [url]. *)
Definition no_other_match (mo : JsVal) : Prop :=
  truthy (mo # "url") = false
  /\ truthy (mo # "image_url") = false
  /\ forall key, In key (Object_keys mo) ->
       first_with (get mo key) "file_url" = None
       /\ first_with (get mo key) "url" = None.




(** Path 4 when it is reached: the first match of the pattern in
    [response.message] is the result. *)
Lemma extractImageUrl_message_scan (result : props) (message u : jstr) :
  path1 result = None -> path2 result = None -> path3 result = None ->
  JObj result # "response" # "message" = JStr message ->
  String_match MESSAGE_URL_RE message = Some u ->
  extractImageUrl result = JStr u.
Proof.
  intros H1 H2 H3 Hm Hu. unfold extractImageUrl, path4.
  rewrite H1, H2, H3, Hm.
  destruct message as [| c message]; [discriminate |].
  rewrite Hu. reflexivity.
Qed.

(** Where path 3 stops the function: a non-empty
    [result.artifact_files] whose element 0 has neither field makes the
    result [null], whatever [response.message] and [raw_response]
    hold. *)
Lemma extractImageUrl_stops_at_result_artifacts
      (result r : props) (f0 : JsVal) (fs : list JsVal) :
  path1 result = None -> path2 result = None ->
  JObj result # "response" # "result" = JObj r ->
  first_present (JObj r) result_keys = None ->
  JObj r # "artifact_files" = JArr (f0 :: fs) ->
  truthy (f0 # "file_url") = false -> truthy (f0 # "url") = false ->
  extractImageUrl result = JNull.
Proof.
  intros H1 H2 Hr Hkeys Haf Hf Hu. unfold extractImageUrl.
  rewrite H1, H2, (path3_on_mapping _ Hr), Hkeys, Haf, nonempty_array_cons.
  cbn [elements elem0 nth].
  rewrite (@js_or_falsy (f0 # "file_url") (f0 # "url") Hf).
  rewrite (@js_or_falsy (f0 # "url") JNull Hu). reflexivity.
Qed.

(** An envelope whose [response.result.artifact_files] holds an element
    without [file_url] or [url], next to a message with an image URL. *)
Definition stalled_envelope : props :=
  [(lit "response",
    JObj [(lit "result", JObj [(lit "artifact_files", JArr [JObj []])]);
          (lit "message", JStr (lit "see https://x.com/a.png here"))])].

(** C4, at [stalled_envelope].  Strategies 1 and 2 fall through and
    strategy 3 finds no URL, [response.message] is a string in which the
    pattern matches [https://x.com/a.png]; yet the result is [null]:
    the [return ... || null] of path 3 ends the function before path 4
    is tried. *)
Theorem extractImageUrl_stalled :
  path1 stalled_envelope = None
  /\ path2 stalled_envelope = None
  /\ path3 stalled_envelope = Some JNull
  /\ JObj stalled_envelope # "response" # "message"
     = JStr (lit "see https://x.com/a.png here")
  /\ String_match MESSAGE_URL_RE (lit "see https://x.com/a.png here")
     = Some (lit "https://x.com/a.png")
  /\ extractImageUrl stalled_envelope = JNull.
Proof. repeat split; vm_compute; reflexivity. Qed.

(** An envelope whose [response.result] has none of the six keys, an
    [artifact_files] whose element 0 has neither [file_url] nor [url],
    and a nested [module_outputs.artifact_files] with a [file_url]. *)
Definition unreached_result : props :=
  [(lit "artifact_files", JArr [JObj []]);
   (lit "module_outputs",
    JObj [(lit "artifact_files",
           JArr [JObj [(lit "file_url",
                        JStr (lit "https://cdn/nested.png"))]])])].

Definition unreached_envelope : props :=
  [(lit "module_outputs", JObj [(lit "artifact_files", JArr [])]);
   (lit "response", JObj [(lit "result", JObj unreached_result)])].

(** C3, at [unreached_envelope].  [module_outputs.artifact_files] is an
    empty array, no other field of [module_outputs] matches,
    [response.result] is a mapping without any of the six keys, element
    0 of its [artifact_files] has neither [file_url] nor [url], and its
    [module_outputs.artifact_files[0].file_url] is there, the last
    fallback of strategy 3; yet the result is [null]: the
    [return ... || null] of path 3 ends the function before the nested
    [module_outputs] is looked at. *)
Theorem extractImageUrl_nested_unreached :
  JObj unreached_envelope # "module_outputs" # "artifact_files" = JArr []
  /\ no_other_match (JObj unreached_envelope # "module_outputs")
  /\ JObj unreached_envelope # "response" # "result" = JObj unreached_result
  /\ first_present (JObj unreached_result) result_keys = None
  /\ JObj unreached_result # "artifact_files" = JArr [JObj []]
  /\ first_with (JObj unreached_result # "artifact_files") "file_url" = None
  /\ first_with (JObj unreached_result # "artifact_files") "url" = None
  /\ first_with (JObj unreached_result # "module_outputs" # "artifact_files")
       "file_url"
     = Some (JStr (lit "https://cdn/nested.png"))
  /\ path3 unreached_envelope = Some JNull
  /\ extractImageUrl unreached_envelope = JNull.
Proof.
  split; [vm_compute; reflexivity |]. split.
  - split; [vm_compute; reflexivity |]. split; [vm_compute; reflexivity |].
    intros key Hin. vm_compute in Hin. destruct Hin as [<- | []].
    split; vm_compute; reflexivity.
  - repeat split; vm_compute; reflexivity.
Qed.

(** The pattern the specification gives for a [raw_response] that is
    not JSON: that of the message with the extensions
    [png|jpg|jpeg|webp|gif]. *)
Definition SPEC_RAW_URL_RE : RegExp :=
  {| source := url_pattern url_char raw_exts; flag_i := true |}.

Definition scan (re : RegExp) (s : jstr) : JsVal :=
  match String_match re s with
  | Some urlMatch => JStr urlMatch
  | None => JNull
  end.

(** What path 5 reads off a parsed [raw_response]. *)
Definition parsed_file_url (raw : JsVal) : JsVal :=
  match first_with (raw # "module_outputs" # "artifact_files") "file_url"
  with
  | Some u => u
  | None =>
      match first_with (raw # "response" # "module_outputs"
                          # "artifact_files") "file_url" with
      | Some u => u
      | None => JNull
      end
  end.

Lemma first_with_guarded (files : JsVal) (field : string) :
  (if truthy files then first_with files field else None)
  = first_with files field.
Proof.
  destruct (truthy files) eqn:E; [reflexivity |].
  unfold first_with. destruct files; try reflexivity; discriminate.
Qed.

(** C5, as the code has it.  When paths 1 to 4 fall through and
    [raw_response] is a string: if it parses, the result is the parsed
    value's [module_outputs.artifact_files[0].file_url], else its
    [response.module_outputs.artifact_files[0].file_url], else [null],
    with no scan; if it does not parse (the empty string is skipped
    without parsing) the result is the first match of [RAW_URL_RE], else
    [null].  That match is the leftmost substring that is an image URL
    whose characters are in the class of [RAW_URL_RE], which leaves out
    the backslash too, and whose extension is one of
    [png|jpg|jpeg|webp|gif]. *)
Theorem extractImageUrl_raw_response (result : props) (s : jstr) :
  path1 result = None -> path2 result = None -> path3 result = None ->
  path4 result = None ->
  JObj result # "raw_response" = JStr s ->
  (forall raw, s <> [] -> JSON_parse s = Some raw ->
               extractImageUrl result = parsed_file_url raw)
  /\ (s = [] \/ JSON_parse s = None ->
      extractImageUrl result = scan RAW_URL_RE s)
  /\ match scan RAW_URL_RE s with
     | JStr m =>
         image_url url_char_raw raw_exts m
         /\ exists pre post,
             s = pre ++ m ++ post
             /\ forall pre' m' post',
                 s = pre' ++ m' ++ post' ->
                 image_url url_char_raw raw_exts m' ->
                 length pre <= length pre'
     | _ =>
         forall pre m post,
           s = pre ++ m ++ post -> ~ image_url url_char_raw raw_exts m
     end.
Proof.
  intros H1 H2 H3 H4 Hraw.
  split; [| split];
    [| | unfold scan;
         pose proof (scan_finds_first_image_url url_char_raw s
                       (proj2 exts_nonempty)) as Hscan;
         change {| source := url_pattern url_char_raw raw_exts;
                   flag_i := true |} with RAW_URL_RE in Hscan;
         destruct (String_match RAW_URL_RE s); exact Hscan];
    unfold extractImageUrl, path5; rewrite H1, H2, H3, H4, Hraw.
  - intros raw Hne Hp. destruct s as [| c s]; [contradiction |].
    rewrite Hp. unfold or_else, parsed_file_url.
    rewrite !first_with_guarded.
    destruct (first_with (raw # "module_outputs" # "artifact_files")
                "file_url"); [reflexivity |].
    destruct (first_with (raw # "response" # "module_outputs"
                            # "artifact_files") "file_url"); reflexivity.
  - intros [Hs | Hp]; [subst s; reflexivity |].
    destruct s as [| c s]; [reflexivity |].
    rewrite Hp. unfold scan.
    destruct (String_match RAW_URL_RE (c :: s)); reflexivity.
Qed.

End ImageExtraction.

(* ===================================================================== *)
(** * Transformation details *)
(* ===================================================================== *)

Section Details.
Context `{RT : JsRuntime}.
Import Part000.

(** The value of a field: that of the first present candidate key, the
    empty string when none is. *)
Definition first_present_or_empty (r : JsVal) (keys : list string)
  : JsVal :=
  match first_present r keys with
  | Some v => v
  | None => JStr []
  end.

Definition desc_keys : list string :=
  ["transformation_description"%string; "description"%string;
   "text"%string; "message"%string].

Definition styles_keys : list string :=
  ["style_elements_applied"%string; "styles"%string; "elements"%string].

Definition colors_keys : list string :=
  ["color_palette_used"%string; "colors"%string; "palette"%string].

Ltac or_chain :=
  unfold first_present_or_empty; cbn [first_present];
  unfold js_or;
  repeat match goal with
         | |- context [truthy (?r # ?k)] =>
             let E := fresh "E" in
             destruct (truthy (r # k)) eqn:E; rewrite ?E; try reflexivity
         end.

Lemma result_desc_spec (r : JsVal) :
  result_desc r = first_present_or_empty r desc_keys.
Proof. unfold result_desc, desc_keys. or_chain. Qed.

Lemma result_styles_spec (r : JsVal) :
  result_styles r = first_present_or_empty r styles_keys.
Proof. unfold result_styles, styles_keys. or_chain. Qed.

Lemma result_colors_spec (r : JsVal) :
  result_colors r = first_present_or_empty r colors_keys.
Proof. unfold result_colors, colors_keys. or_chain. Qed.

Lemma first_present_truthy (r : JsVal) (keys : list string) (v : JsVal) :
  first_present r keys = Some v -> truthy v = true.
Proof.
  induction keys as [| k keys IH]; cbn [first_present]; [discriminate |].
  destruct (truthy (r # k)) eqn:E; [| exact IH].
  intros H; inversion H; subst; exact E.
Qed.

(** A field is the empty string exactly when it is falsy. *)
Lemma field_empty_iff_falsy (r : JsVal) (keys : list string) :
  first_present_or_empty r keys = JStr []
  <-> truthy (first_present_or_empty r keys) = false.
Proof.
  unfold first_present_or_empty.
  destruct (first_present r keys) as [v |] eqn:E.
  - apply first_present_truthy in E. split; intros H.
    + rewrite H in E; discriminate.
    + rewrite E in H; discriminate.
  - split; reflexivity.
Qed.

Lemma field_nonempty_truthy (r : JsVal) (keys : list string) :
  first_present_or_empty r keys <> JStr []
  <-> truthy (first_present_or_empty r keys) = true.
Proof.
  pose proof (field_empty_iff_falsy r keys) as [H1 H2].
  destruct (truthy (first_present_or_empty r keys)) eqn:E; split;
    intros H; try reflexivity; try discriminate.
  - intros Hc. apply H1 in Hc. discriminate.
  - exfalso; apply H; apply H2; reflexivity.
Qed.

(** The record read off a mapping. *)
Definition record_of (r : JsVal) : TransformationDetails :=
  {| transformation_description :=
       stringified (first_present_or_empty r desc_keys);
     style_elements_applied :=
       stringified (first_present_or_empty r styles_keys);
     color_palette_used :=
       stringified (first_present_or_empty r colors_keys) |}.

Definition some_field_nonempty (r : JsVal) : Prop :=
  first_present_or_empty r desc_keys <> JStr []
  \/ first_present_or_empty r styles_keys <> JStr []
  \/ first_present_or_empty r colors_keys <> JStr [].

Lemma details_of_result_on_mapping (result r : props) :
  JObj result # "response" # "result" = JObj r ->
  details_of_result result =
  if truthy (js_or (js_or (first_present_or_empty (JObj r) desc_keys)
                          (first_present_or_empty (JObj r) styles_keys))
                   (first_present_or_empty (JObj r) colors_keys))
  then Some (record_of (JObj r)) else None.
Proof.
  intros Hr. unfold details_of_result. rewrite Hr.
  cbn [truthy typeof_object andb].
  rewrite result_desc_spec, result_styles_spec, result_colors_spec.
  reflexivity.
Qed.

Lemma truthy_js_or3 (a b c : JsVal) :
  truthy (js_or (js_or a b) c) = (truthy a || truthy b || truthy c)%bool.
Proof.
  unfold js_or. destruct (truthy a) eqn:Ea; rewrite ?Ea; [reflexivity |].
  destruct (truthy b) eqn:Eb; rewrite ?Eb; reflexivity.
Qed.

Lemma some_field_nonempty_truthy (r : JsVal) :
  some_field_nonempty r <->
  truthy (js_or (js_or (first_present_or_empty r desc_keys)
                       (first_present_or_empty r styles_keys))
                (first_present_or_empty r colors_keys)) = true.
Proof.
  unfold some_field_nonempty. rewrite truthy_js_or3.
  rewrite !field_nonempty_truthy. rewrite !orb_true_iff. tauto.
Qed.

Lemma stringified_empty : stringified (JStr []) = JStr [].
Proof. reflexivity. Qed.

(** Whatever the value, the field made of it is a string. *)
Lemma stringified_is_string (v : JsVal) : is_string (stringified v) = true.
Proof.
  unfold stringified. destruct (is_string v) eqn:E; [exact E | reflexivity].
Qed.

(** C7.  For an envelope whose [response.result] is a mapping, the three
    fields come from the first present of their candidate keys, the
    empty string by default, a value that is not a string being
    replaced by its [JSON.stringify] text, so that all three are
    strings; the record of these three fields is what
    [extractTransformationDetails] returns exactly when one of them is
    not empty.  On [{ styles: 'a, b' }] the record is
    [{ '', 'a, b', '' }]. *)
Theorem extractTransformationDetails_from_result (result r : props) :
  JObj result # "response" # "result" = JObj r ->
  (extractTransformationDetails result = Some (record_of (JObj r))
   <-> some_field_nonempty (JObj r))
  /\ (forall v, stringified v =
                if is_string v then v else JStr (JSON_stringify v))
  /\ (is_string (transformation_description (record_of (JObj r))) = true
      /\ is_string (style_elements_applied (record_of (JObj r))) = true
      /\ is_string (color_palette_used (record_of (JObj r))) = true)
  /\ (r = [(lit "styles", JStr (lit "a, b"))] ->
      extractTransformationDetails result =
      Some {| transformation_description := JStr [];
              style_elements_applied := JStr (lit "a, b");
              color_palette_used := JStr [] |}).
Proof.
  intros Hr. split; [| split; [| split]].
  - unfold extractTransformationDetails.
    rewrite (details_of_result_on_mapping _ Hr).
    rewrite some_field_nonempty_truthy.
    destruct (truthy (js_or _ _)) eqn:E; cbn [or_else].
    + split; reflexivity.
    + split; [intros H; exfalso | discriminate].
      rewrite truthy_js_or3 in E. rewrite !orb_false_iff in E.
      destruct E as [[Ed _] _].
      apply field_empty_iff_falsy in Ed.
      destruct (truthy (JObj result # "response" # "message")) eqn:Em;
        [| discriminate H].
      unfold record_of in H. rewrite Ed, stringified_empty in H.
      assert (Hmsg : JObj result # "response" # "message" = JStr [])
        by congruence.
      rewrite Hmsg in Em. discriminate Em.
  - reflexivity.
  - unfold record_of.
    cbn [transformation_description style_elements_applied
         color_palette_used].
    repeat split; apply stringified_is_string.
  - intros ->. unfold extractTransformationDetails.
    rewrite (details_of_result_on_mapping _ Hr). reflexivity.
Qed.

(** The mapping path yields no field: there is no mapping under
    [response.result], or its three fields are all empty. *)
Definition mapping_path_empty (result : props) : Prop :=
  let agentResult := JObj result # "response" # "result" in
  (truthy agentResult && typeof_object agentResult)%bool = false
  \/ (result_desc agentResult = JStr []
      /\ result_styles agentResult = JStr []
      /\ result_colors agentResult = JStr []).

Lemma mapping_path_empty_None (result : props) :
  mapping_path_empty result -> details_of_result result = None.
Proof.
  unfold mapping_path_empty, details_of_result.
  intros [-> | (Hd & Hs & Hc)]; [reflexivity |].
  rewrite Hd, Hs, Hc.
  destruct (truthy _ && typeof_object _)%bool; reflexivity.
Qed.

(** C8.  When the mapping path yields no field: a present (truthy)
    [response.message] gives the record holding it as description and
    two empty strings; otherwise the result is [null], as on an
    envelope with no result mapping and no [response.message]. *)
Theorem extractTransformationDetails_fallback (result : props) :
  mapping_path_empty result ->
  (truthy (JObj result # "response" # "message") = true ->
   extractTransformationDetails result =
   Some {| transformation_description :=
             JObj result # "response" # "message";
           style_elements_applied := JStr [];
           color_palette_used := JStr [] |})
  /\ (truthy (JObj result # "response" # "message") = false ->
      extractTransformationDetails result = None)
  /\ (JObj result # "response" # "message" = JUndefined ->
      extractTransformationDetails result = None).
Proof.
  intros Hempty. unfold extractTransformationDetails.
  rewrite (mapping_path_empty_None Hempty). cbn [or_else].
  split; [| split].
  - intros ->. reflexivity.
  - intros ->. reflexivity.
  - intros ->. reflexivity.
Qed.

End Details.

(* ===================================================================== *)
(** * Runs of the transform workflow *)
(* ===================================================================== *)

Ltac run_handler :=
  cbn [run act_bind bind ret throw try_catch try_finally await modify
       uploadFiles callAIAgent console_error upload_step invoke_step
       on_error setIsTransforming setError setResultImageUrl
       setTransformationDetails setStatusMessage get_strict
       fst snd selectedFile styleNote isTransforming error resultImageUrl
       transformationDetails statusMessage calls_of session_after].

Section Workflow.
Context `{RT : JsRuntime}.

(** The check of step 1 refuses the upload answer. *)
Definition upload_refused (uploadResult : props) : bool :=
  negb (truthy (JObj uploadResult # "success"))
  || negb (Array_isArray (JObj uploadResult # "asset_ids"))
  || Nat.eqb (length (elements (JObj uploadResult # "asset_ids"))) 0.

Definition assetId_of (uploadResult : props) : JsVal :=
  elem0 (elements (JObj uploadResult # "asset_ids")).

(** The calls of a run of the handler of [part_000], whatever the
    collaborators answer. *)
Lemma Part000_calls (env : Collaborators) (s : Session) :
  calls_of env Part000.handleTransform s =
  match selectedFile s with
  | None => []
  | Some file =>
      UploadCall file ::
      match upload_answer env file with
      | Throw _ => []
      | Normal uploadResult =>
          if upload_refused uploadResult then []
          else
            AgentCall (build_message (styleNote s)) AGENT_ID
              [assetId_of uploadResult] ::
            match agent_answer env (build_message (styleNote s)) AGENT_ID
                    [assetId_of uploadResult] with
            | Throw _ => []
            | Normal result =>
                if truthy (JObj result # "success")
                   && negb (truthy (Part000.extractImageUrl result))
                then [ConsoleErrorCall
                        (lit "No image found in agent response. Full result:")
                        result]
                else []
            end
      end
  end.
Proof.
  unfold calls_of, Part000.handleTransform, upload_refused, assetId_of.
  destruct (selectedFile s) as [file |]; [| reflexivity].
  run_handler. f_equal.
  destruct (upload_answer env file) as [uploadResult | e]; run_handler;
    [| destruct e; reflexivity].
  destruct (negb (truthy (JObj uploadResult # "success"))
            || negb (Array_isArray (JObj uploadResult # "asset_ids"))
            || Nat.eqb (length (elements (JObj uploadResult # "asset_ids")))
                 0)%bool; run_handler; [reflexivity |].
  f_equal.
  destruct (agent_answer env _ _ _) as [result | e]; run_handler;
    [| destruct e; reflexivity].
  destruct (truthy (JObj result # "success")); run_handler;
    [| reflexivity].
  destruct (truthy (Part000.extractImageUrl result)); run_handler.
  - destruct (Part000.extractTransformationDetails result); reflexivity.
  - reflexivity.
Qed.

(** The session a failed run leaves: the error recorded, nothing
    published. *)
Definition failed_with (s : Session) (message : jstr) : Session :=
  {| selectedFile := selectedFile s; styleNote := styleNote s;
     isTransforming := false; error := Some message;
     resultImageUrl := JNull; transformationDetails := None;
     statusMessage := None |}.

Definition upload_error (uploadResult : props) : jstr :=
  ToString (js_or (JObj uploadResult # "error")
              (JStr (lit "Failed to upload image"))).

(** A run whose upload answer is refused. *)
Lemma Part000_upload_refused (env : Collaborators) (s : Session)
      (file : File) (uploadResult : props) :
  selectedFile s = Some file ->
  upload_answer env file = Normal uploadResult ->
  upload_refused uploadResult = true ->
  run env (Part000.handleTransform s)
  = ([UploadCall file],
     (Normal tt, failed_with s (upload_error uploadResult))).
Proof.
  intros Hsel Hup Href. unfold Part000.handleTransform, upload_refused in *.
  rewrite Hsel. run_handler. rewrite Hup. run_handler. rewrite Href.
  run_handler. reflexivity.
Qed.

(** The workflow has come to its extraction step with [result]: a file
    is selected, the upload answer passes the check of step 1, and the
    agent answers [result], whose [success] flag is true. *)
Definition reaches_extraction (env : Collaborators) (s : Session)
           (result : props) : Prop :=
  exists file uploadResult,
    selectedFile s = Some file
    /\ upload_answer env file = Normal uploadResult
    /\ upload_refused uploadResult = false
    /\ agent_answer env (build_message (styleNote s)) AGENT_ID
         [assetId_of uploadResult] = Normal result
    /\ truthy (JObj result # "success") = true.

Definition published (s : Session) (url : JsVal)
           (details : option TransformationDetails) : Session :=
  {| selectedFile := selectedFile s; styleNote := styleNote s;
     isTransforming := false; error := None;
     resultImageUrl := url; transformationDetails := details;
     statusMessage := None |}.

Lemma Part000_extraction (env : Collaborators) (s : Session)
      (result : props) :
  reaches_extraction env s result ->
  session_after env Part000.handleTransform s =
  if truthy (Part000.extractImageUrl result)
  then published s (Part000.extractImageUrl result)
         (Part000.extractTransformationDetails result)
  else failed_with s NO_IMAGE.
Proof.
  intros (file & uploadResult & Hsel & Hup & Hok & Hag & Hsucc).
  unfold session_after, Part000.handleTransform, upload_refused,
    assetId_of in *.
  rewrite Hsel. run_handler. rewrite Hup. run_handler. rewrite Hok.
  run_handler. rewrite Hag. run_handler. rewrite Hsucc. run_handler.
  destruct (truthy (Part000.extractImageUrl result)); run_handler.
  - destruct (Part000.extractTransformationDetails result); reflexivity.
  - reflexivity.
Qed.

(** The details [page.tsx] reads off [response.result]. *)
Definition AppPage_details (result : props)
  : option TransformationDetails :=
  let agentResult := JObj result # "response" # "result" in
  if truthy agentResult && typeof_object agentResult then
    Some {| transformation_description :=
              js_or (agentResult # "transformation_description") (JStr []);
            style_elements_applied :=
              js_or (agentResult # "style_elements_applied") (JStr []);
            color_palette_used :=
              js_or (agentResult # "color_palette_used") (JStr []) |}
  else None.

Definition is_nullish (v : JsVal) : bool :=
  match v with JUndefined | JNull => true | _ => false end.

Lemma AppPage_extraction (env : Collaborators) (s : Session)
      (result : props) :
  reaches_extraction env s result ->
  session_after env AppPage.handleTransform s =
  let artifactFiles := JObj result # "module_outputs" # "artifact_files" in
  if nonempty_array artifactFiles then
    if is_nullish (elem0 (elements artifactFiles)) then
      failed_with s
        (TypeError_message (elem0 (elements artifactFiles))
           (lit "file_url"))
    else
      published s (elem0 (elements artifactFiles) # "file_url")
        (AppPage_details result)
  else failed_with s NO_IMAGE.
Proof.
  intros (file & uploadResult & Hsel & Hup & Hok & Hag & Hsucc).
  unfold session_after, AppPage.handleTransform, upload_refused,
    assetId_of, nonempty_array, AppPage_details in *.
  rewrite Hsel. run_handler. rewrite Hup. run_handler. rewrite Hok.
  run_handler. rewrite Hag. run_handler. rewrite Hsucc. run_handler.
  destruct (Array_isArray _ && Nat.ltb 0 _)%bool; run_handler;
    [| reflexivity].
  destruct (elem0 (elements
              (JObj result # "module_outputs" # "artifact_files")));
    run_handler;
    try (destruct (truthy (JObj result # "response" # "result")
                   && typeof_object (JObj result # "response" # "result"))%bool;
         reflexivity);
    reflexivity.
Qed.

(** C2, as the code has it.  Once the workflow is at its extraction step:
    where [module_outputs.artifact_files] is a non-empty array whose
    element 0 has a truthy [file_url], both pages publish that
    [file_url] and record no error; where it is no such array,
    [page.tsx] fails with the no-image message, while [part_000] fails
    with it exactly when [extractImageUrl] returns [null], and
    publishes the result of [extractImageUrl] otherwise. *)
Theorem extraction_steps_compared (env : Collaborators) (s : Session)
        (result : props) :
  reaches_extraction env s result ->
  (forall f0 fs,
      JObj result # "module_outputs" # "artifact_files" = JArr (f0 :: fs) ->
      truthy (f0 # "file_url") = true ->
      resultImageUrl (session_after env AppPage.handleTransform s)
      = f0 # "file_url"
      /\ resultImageUrl (session_after env Part000.handleTransform s)
         = f0 # "file_url"
      /\ error (session_after env AppPage.handleTransform s) = None
      /\ error (session_after env Part000.handleTransform s) = None)
  /\ (nonempty_array (JObj result # "module_outputs" # "artifact_files")
      = false ->
      error (session_after env AppPage.handleTransform s) = Some NO_IMAGE
      /\ (error (session_after env Part000.handleTransform s)
          = Some NO_IMAGE
          <-> Part000.extractImageUrl result = JNull)
      /\ (Part000.extractImageUrl result <> JNull ->
          resultImageUrl (session_after env Part000.handleTransform s)
          = Part000.extractImageUrl result
          /\ error (session_after env Part000.handleTransform s) = None)).
Proof.
  intros Hreach.
  rewrite (AppPage_extraction Hreach), (Part000_extraction Hreach).
  cbv zeta. split.
  - intros f0 fs Hfiles Hurl.
    unfold Part000.extractImageUrl.
    rewrite (path1_decides _ Hfiles Hurl).
    rewrite Hfiles, Hurl, nonempty_array_cons. cbn [elements elem0 nth].
    destruct f0; try discriminate Hurl; repeat split; reflexivity.
  - intros Hno. rewrite Hno. split; [reflexivity |].
    destruct (extractImageUrl_null_or_truthy result) as [Hnull | Ht].
    + rewrite Hnull. cbn [truthy]. split.
      * split; reflexivity.
      * intros Hc; contradiction.
    + rewrite Ht. split.
      * split; [discriminate |].
        intros Hc; rewrite Hc in Ht; discriminate.
      * intros _. split; reflexivity.
Qed.

(** C9.  When the upload answers success with an [asset_ids] that is
    empty or not an array, the run ends failed, its error being the
    answer's [error] (as a string) or else the fixed upload message,
    and its only call is the upload: the agent is not called. *)
Theorem upload_without_assets_fails (env : Collaborators) (s : Session)
        (file : File) (uploadResult : props) :
  selectedFile s = Some file ->
  upload_answer env file = Normal uploadResult ->
  truthy (JObj uploadResult # "success") = true ->
  nonempty_array (JObj uploadResult # "asset_ids") = false ->
  session_after env Part000.handleTransform s
  = failed_with s (upload_error uploadResult)
  /\ (forall m, JObj uploadResult # "error" = JStr m -> m <> [] ->
                upload_error uploadResult = m)
  /\ (truthy (JObj uploadResult # "error") = false ->
      upload_error uploadResult = lit "Failed to upload image")
  /\ calls_of env Part000.handleTransform s = [UploadCall file]
  /\ existsb is_agent_call (calls_of env Part000.handleTransform s)
     = false.
Proof.
  intros Hsel Hup Hsucc Hno.
  assert (Href : upload_refused uploadResult = true).
  { unfold upload_refused, nonempty_array in *. rewrite Hsucc.
    cbn [negb orb].
    destruct (Array_isArray (JObj uploadResult # "asset_ids"));
      cbn [negb orb andb] in *; [| reflexivity].
    destruct (elements (JObj uploadResult # "asset_ids"));
      [reflexivity | discriminate]. }
  pose proof (Part000_upload_refused env s Hsel Hup Href) as Hrun.
  unfold session_after, calls_of. rewrite Hrun. cbn [fst snd].
  repeat split.
  - intros m Hm Hne. unfold upload_error. rewrite Hm.
    rewrite js_or_truthy by (apply truthy_JStr; exact Hne). reflexivity.
  - intros Hf. unfold upload_error. rewrite js_or_falsy by exact Hf.
    reflexivity.
Qed.


Lemma build_message_blank (note : jstr) :
  blank note = true -> build_message note = BRAND_INSTRUCTION.
Proof.
  intros H. unfold build_message.
  apply trim_nil_iff in H. rewrite H. reflexivity.
Qed.

Lemma build_message_directive (note : jstr) :
  blank note = false ->
  build_message note =
  BRAND_INSTRUCTION ++ lit " Additional style direction: " ++ trim note.
Proof.
  intros H. unfold build_message.
  destruct (trim note) as [| c t] eqn:E; [| reflexivity].
  apply trim_nil_iff in E. rewrite E in H. discriminate.
Qed.

Lemma agent_call_message (env : Collaborators) (s : Session)
      (m i : jstr) (a : list JsVal) :
  In (AgentCall m i a) (calls_of env Part000.handleTransform s) ->
  m = build_message (styleNote s).
Proof.
  rewrite Part000_calls.
  destruct (selectedFile s) as [file |]; [| intros []].
  intros [H | H]; [discriminate |].
  destruct (upload_answer env file) as [uploadResult | e]; [| destruct H].
  destruct (upload_refused uploadResult); [destruct H |].
  destruct H as [H | H]; [inversion H; reflexivity |].
  destruct (agent_answer env _ _ _) as [result | e]; [| destruct H].
  destruct (truthy _ && negb _)%bool; [| destruct H].
  destruct H as [H | []]. discriminate.
Qed.

End Workflow.

(* ===================================================================== *)
(** * Runs on concrete envelopes *)
(* ===================================================================== *)

#[local] Existing Instance Reference.runtime.

(** The envelope a JSON text denotes. *)
Definition envelope (text : string) : props :=
  match Reference.parse (Reference.json text) with
  | Some (JObj ps) => ps
  | _ => []
  end.

Definition a_file : File := {| file_type := lit "image/png" |}.

(** A session with a file selected and the style directive [note]. *)
Definition session_with (note : string) : Session :=
  {| selectedFile := Some a_file; styleNote := lit note;
     isTransforming := false; error := None; resultImageUrl := JNull;
     transformationDetails := None; statusMessage := None |}.

(** Collaborators that answer with the given JSON texts. *)
Definition answering (upload agent : string) : Collaborators :=
  {| upload_answer := fun _ => Normal (envelope upload);
     agent_answer := fun _ _ _ => Normal (envelope agent) |}.

Definition priority_envelope : props :=
  envelope "{'success':true,'module_outputs':{'url':'https://low/2.png','artifact_files':[{'file_url':'https://cdn/1.png'}]},'response':{'result':{'image_url':'https://low/3.png'},'message':'see https://low/4.png'}}".

Ltac computed := vm_compute; reflexivity.

Lemma extractImageUrl_artifact_first_witness :
  Part000.extractImageUrl priority_envelope = JStr (lit "https://cdn/1.png").
Proof.
  exact (@extractImageUrl_artifact_first Reference.runtime priority_envelope
           (JObj [(lit "file_url", JStr (lit "https://cdn/1.png"))]) []
           ltac:(computed) ltac:(computed)).
Defined.

Definition inline_envelope : props :=
  envelope "{'success':true,'module_outputs':{'artifact_files':[]},'response':{'result':{'image_url':'X'}}}".


(** The example of the specification for path 4. *)
Example extractImageUrl_message_example :
  Part000.extractImageUrl
    (envelope "{'response':{'message':'see https://x.com/a.png here'}}")
  = JStr (lit "https://x.com/a.png").
Proof. computed. Qed.

Definition raw_json : jstr :=
  Reference.json "{'response':{'module_outputs':{'artifact_files':[{'file_url':'https://cdn/raw.png'}]}}}".

Definition raw_json_envelope : props := [(lit "raw_response", JStr raw_json)].

Definition raw_text_envelope : props :=
  [(lit "raw_response", JStr (lit "made https://cdn/raw.JPG for you"))].

Lemma extractImageUrl_raw_response_witness :
  Part000.extractImageUrl raw_json_envelope = JStr (lit "https://cdn/raw.png")
  /\ Part000.extractImageUrl raw_text_envelope
     = JStr (lit "https://cdn/raw.JPG").
Proof.
  split.
  - pose proof (@extractImageUrl_raw_response Reference.runtime
                  raw_json_envelope raw_json
                  ltac:(computed) ltac:(computed) ltac:(computed)
                  ltac:(computed) ltac:(computed)) as (H & _).
    apply (H (JObj (envelope "{'response':{'module_outputs':{'artifact_files':[{'file_url':'https://cdn/raw.png'}]}}}")));
      [discriminate | computed].
  - pose proof (@extractImageUrl_raw_response Reference.runtime
                  raw_text_envelope
                  (lit "made https://cdn/raw.JPG for you")
                  ltac:(computed) ltac:(computed) ltac:(computed)
                  ltac:(computed) ltac:(computed)) as (_ & H & _).
    rewrite H; [computed | right; computed].
Defined.

(** A [raw_response] that is not JSON and holds a backslash in its URL. *)
Definition backslash_envelope : props :=
  [(lit "raw_response", JStr (lit "https://x.com/a\b.png"))].

(** C5 as stated fails at [backslash_envelope]: nothing is found by
    strategies 1 to 4, the text does not parse, the scan of strategy 4
    with the five extensions matches the whole text, and the result is
    [null]. *)
Lemma raw_scan_differs_from_message_scan :
  Part000.path1 backslash_envelope = None
  /\ Part000.path2 backslash_envelope = None
  /\ Part000.path3 backslash_envelope = None
  /\ Part000.path4 backslash_envelope = None
  /\ JObj backslash_envelope # "raw_response"
     = JStr (lit "https://x.com/a\b.png")
  /\ Reference.parse_text (lit "https://x.com/a\b.png")
     = Reference.SyntaxError
  /\ scan SPEC_RAW_URL_RE (lit "https://x.com/a\b.png")
     = JStr (lit "https://x.com/a\b.png")
  /\ Part000.extractImageUrl backslash_envelope = JNull
  /\ Part000.extractImageUrl backslash_envelope
     <> scan SPEC_RAW_URL_RE (lit "https://x.com/a\b.png").
Proof.
  repeat split; try computed.
  vm_compute. discriminate.
Qed.

Lemma extractImageUrl_null_not_empty_witness :
  Part000.extractImageUrl (envelope "{'success':true}") = JNull
  /\ Part000.extractImageUrl priority_envelope <> JStr [].
Proof.
  split.
  - apply (proj1 (@extractImageUrl_null_not_empty Reference.runtime
                    (envelope "{'success':true}")));
      left; computed.
  - apply (proj2 (proj2 (@extractImageUrl_null_not_empty Reference.runtime
                           priority_envelope))).
Defined.

Definition styles_envelope : props :=
  envelope "{'success':true,'response':{'result':{'styles':'a, b'}}}".

Lemma extractTransformationDetails_from_result_witness :
  Part000.extractTransformationDetails styles_envelope =
  Some {| transformation_description := JStr [];
          style_elements_applied := JStr (lit "a, b");
          color_palette_used := JStr [] |}.
Proof.
  pose proof (@extractTransformationDetails_from_result Reference.runtime
                styles_envelope [(lit "styles", JStr (lit "a, b"))]
                ltac:(computed)) as (_ & _ & _ & H).
  apply H. reflexivity.
Defined.

(** A value that is not a string is kept, as its JSON text. *)
Example extractTransformationDetails_serializes :
  Part000.extractTransformationDetails
    (envelope "{'response':{'result':{'elements':['a','b'],'palette':{'main':'#7458e8'}}}}")
  = Some {| transformation_description := JStr [];
            style_elements_applied := JStr (Reference.json "['a','b']");
            color_palette_used :=
              JStr (Reference.json "{'main':'#7458e8'}") |}.
Proof. computed. Qed.

Definition message_envelope : props :=
  envelope "{'success':true,'response':{'message':'All done.'}}".

Lemma extractTransformationDetails_fallback_witness :
  Part000.extractTransformationDetails message_envelope =
  Some {| transformation_description := JStr (lit "All done.");
          style_elements_applied := JStr [];
          color_palette_used := JStr [] |}
  /\ Part000.extractTransformationDetails (envelope "{'success':true}")
     = None.
Proof.
  assert (H1 : mapping_path_empty message_envelope) by (left; computed).
  assert (H2 : mapping_path_empty (envelope "{'success':true}"))
    by (left; computed).
  split.
  - rewrite (proj1 (@extractTransformationDetails_fallback Reference.runtime
                      message_envelope H1)) by computed.
    computed.
  - rewrite (proj1 (proj2 (@extractTransformationDetails_fallback
                             Reference.runtime (envelope "{'success':true}")
                             H2))) by computed.
    reflexivity.
Defined.

Definition no_assets : Collaborators :=
  answering "{'success':true,'asset_ids':[]}" "{'success':true}".

Lemma upload_without_assets_fails_witness :
  session_after no_assets Part000.handleTransform (session_with "neon")
  = failed_with (session_with "neon") (lit "Failed to upload image")
  /\ calls_of no_assets Part000.handleTransform (session_with "neon")
     = [UploadCall a_file].
Proof.
  pose proof (@upload_without_assets_fails Reference.runtime no_assets
                (session_with "neon") a_file
                (envelope "{'success':true,'asset_ids':[]}")
                ltac:(computed) ltac:(computed) ltac:(computed)
                ltac:(computed)) as (H1 & _ & _ & H4 & _).
  split; [| exact H4].
  rewrite H1. computed.
Defined.

Definition inline_answer : Collaborators :=
  answering "{'success':true,'asset_ids':['asset-1']}"
    "{'success':true,'module_outputs':{'artifact_files':[]},'response':{'result':{'image_url':'X'}}}".

Definition artifact_envelope : props :=
  envelope "{'success':true,'module_outputs':{'artifact_files':[{'file_url':'https://cdn/1.png'}]}}".

Definition artifact_answer : Collaborators :=
  answering "{'success':true,'asset_ids':['asset-1']}"
    "{'success':true,'module_outputs':{'artifact_files':[{'file_url':'https://cdn/1.png'}]}}".

(** C2 as stated: the two pages publish the same reference, and fail with
    the no-image message in the same cases. *)
Definition extraction_steps_agree (env : Collaborators) (s : Session)
  : Prop :=
  resultImageUrl (session_after env AppPage.handleTransform s)
  = resultImageUrl (session_after env Part000.handleTransform s)
  /\ (error (session_after env AppPage.handleTransform s) = Some NO_IMAGE
      <-> error (session_after env Part000.handleTransform s)
          = Some NO_IMAGE).

Lemma reaches_extraction_answering (upload agent note : string) :
  upload_refused (envelope upload) = false ->
  truthy (JObj (envelope agent) # "success") = true ->
  reaches_extraction (answering upload agent) (session_with note)
    (envelope agent).
Proof.
  intros Hup Hag. exists a_file, (envelope upload).
  repeat split; assumption.
Qed.

(** It fails where the image is under [response.result] only:
    [page.tsx] reports that no image was generated, [part_000]
    publishes it. *)
Lemma extraction_steps_disagree :
  reaches_extraction inline_answer (session_with "") inline_envelope
  /\ error (session_after inline_answer AppPage.handleTransform
              (session_with "")) = Some NO_IMAGE
  /\ error (session_after inline_answer Part000.handleTransform
              (session_with "")) = None
  /\ resultImageUrl (session_after inline_answer Part000.handleTransform
                       (session_with "")) = JStr (lit "X")
  /\ ~ extraction_steps_agree inline_answer (session_with "").
Proof.
  split; [| split; [| split; [| split]]].
  - apply reaches_extraction_answering; computed.
  - computed.
  - computed.
  - computed.
  - intros [H _]. vm_compute in H. discriminate H.
Qed.

Lemma extraction_steps_compared_witness :
  resultImageUrl (session_after artifact_answer AppPage.handleTransform
                    (session_with ""))
  = JStr (lit "https://cdn/1.png")
  /\ resultImageUrl (session_after artifact_answer Part000.handleTransform
                       (session_with ""))
     = JStr (lit "https://cdn/1.png").
Proof.
  pose proof (@extraction_steps_compared Reference.runtime artifact_answer
                (session_with "") artifact_envelope
                (@reaches_extraction_answering
                   "{'success':true,'asset_ids':['asset-1']}"
                   "{'success':true,'module_outputs':{'artifact_files':[{'file_url':'https://cdn/1.png'}]}}"
                   "" ltac:(computed) ltac:(computed))) as (H & _).
  destruct (H (JObj [(lit "file_url", JStr (lit "https://cdn/1.png"))]) []
              ltac:(computed) ltac:(computed)) as (H1 & H2 & _).
  split; [exact H1 | exact H2].
Defined.


(* ===================================================================== *)
(** * Every run of the transform handlers *)
(* ===================================================================== *)

Section EveryRun.
Context `{RT : JsRuntime}.

(** The text [catch (err)] shows for what was thrown. *)
Definition caught_message (err : Exn) : jstr :=
  match err with
  | ErrorObject message => message
  | NotAnError _ => lit "Something went wrong. Please try again."
  end.

(** The message of the [Error] thrown for an agent answer whose
    [success] flag is false. *)
Definition invoke_error (result : props) : jstr :=
  ToString (js_or (js_or (JObj result # "error")
                         (JObj result # "response" # "message"))
                  (JStr (lit "Transformation failed"))).

(** What a run of the handler of [part_000] leaves, whatever the
    collaborators answer. *)
Lemma Part000_run (env : Collaborators) (s : Session) :
  snd (run env (Part000.handleTransform s)) =
  (Normal tt,
   match selectedFile s with
   | None => s
   | Some file =>
       match upload_answer env file with
       | Throw e => failed_with s (caught_message e)
       | Normal uploadResult =>
           if upload_refused uploadResult
           then failed_with s (upload_error uploadResult)
           else
             match agent_answer env (build_message (styleNote s)) AGENT_ID
                     [assetId_of uploadResult] with
             | Throw e => failed_with s (caught_message e)
             | Normal result =>
                 if truthy (JObj result # "success") then
                   if truthy (Part000.extractImageUrl result)
                   then published s (Part000.extractImageUrl result)
                          (Part000.extractTransformationDetails result)
                   else failed_with s NO_IMAGE
                 else failed_with s (invoke_error result)
             end
       end
   end).
Proof.
  unfold Part000.handleTransform, upload_refused, assetId_of, upload_error,
    invoke_error, caught_message.
  destruct (selectedFile s) as [file |] eqn:Hsel; [| reflexivity].
  run_handler.
  destruct (upload_answer env file) as [uploadResult | e]; run_handler;
    [| destruct e; reflexivity].
  destruct (negb (truthy (JObj uploadResult # "success"))
            || negb (Array_isArray (JObj uploadResult # "asset_ids"))
            || Nat.eqb (length (elements (JObj uploadResult # "asset_ids")))
                 0)%bool; run_handler; [reflexivity |].
  destruct (agent_answer env _ _ _) as [result | e]; run_handler;
    [| destruct e; reflexivity].
  destruct (truthy (JObj result # "success")); run_handler;
    [| reflexivity].
  destruct (truthy (Part000.extractImageUrl result)); run_handler.
  - destruct (Part000.extractTransformationDetails result); reflexivity.
  - reflexivity.
Qed.

(** What step 4 of [page.tsx] leaves for an envelope. *)
Definition AppPage_outcome (s : Session) (result : props) : Session :=
  let artifactFiles := JObj result # "module_outputs" # "artifact_files" in
  if nonempty_array artifactFiles then
    if is_nullish (elem0 (elements artifactFiles)) then
      failed_with s
        (TypeError_message (elem0 (elements artifactFiles)) (lit "file_url"))
    else
      published s (elem0 (elements artifactFiles) # "file_url")
        (AppPage_details result)
  else failed_with s NO_IMAGE.

(** What a run of the handler of [page.tsx] leaves, and the calls it
    makes, whatever the collaborators answer. *)
Lemma AppPage_run (env : Collaborators) (s : Session) :
  run env (AppPage.handleTransform s) =
  match selectedFile s with
  | None => ([], (Normal tt, s))
  | Some file =>
      match upload_answer env file with
      | Throw e =>
          ([UploadCall file], (Normal tt, failed_with s (caught_message e)))
      | Normal uploadResult =>
          if upload_refused uploadResult
          then ([UploadCall file],
                (Normal tt, failed_with s (upload_error uploadResult)))
          else
            match agent_answer env (build_message (styleNote s)) AGENT_ID
                    [assetId_of uploadResult] with
            | Throw e =>
                ([UploadCall file;
                  AgentCall (build_message (styleNote s)) AGENT_ID
                    [assetId_of uploadResult]],
                 (Normal tt, failed_with s (caught_message e)))
            | Normal result =>
                ([UploadCall file;
                  AgentCall (build_message (styleNote s)) AGENT_ID
                    [assetId_of uploadResult]],
                 (Normal tt,
                  if truthy (JObj result # "success")
                  then AppPage_outcome s result
                  else failed_with s (invoke_error result)))
            end
      end
  end.
Proof.
  unfold AppPage.handleTransform, upload_refused, assetId_of, upload_error,
    invoke_error, caught_message, AppPage_outcome, nonempty_array,
    AppPage_details.
  destruct (selectedFile s) as [file |] eqn:Hsel; [| reflexivity].
  run_handler.
  destruct (upload_answer env file) as [uploadResult | e]; run_handler;
    [| destruct e; reflexivity].
  destruct (negb (truthy (JObj uploadResult # "success"))
            || negb (Array_isArray (JObj uploadResult # "asset_ids"))
            || Nat.eqb (length (elements (JObj uploadResult # "asset_ids")))
                 0)%bool; run_handler; [reflexivity |].
  destruct (agent_answer env _ _ _) as [result | e]; run_handler;
    [| destruct e; reflexivity].
  destruct (truthy (JObj result # "success")); run_handler;
    [| reflexivity].
  cbv zeta.
  destruct (Array_isArray _ && Nat.ltb 0 _)%bool; run_handler;
    [| reflexivity].
  destruct (elem0 (elements
              (JObj result # "module_outputs" # "artifact_files")));
    run_handler;
    try (destruct (truthy (JObj result # "response" # "result")
                   && typeof_object (JObj result # "response" # "result"))%bool;
         reflexivity);
    reflexivity.
Qed.

Lemma failed_with_same (s s' : Session) (m : jstr) :
  selectedFile s' = selectedFile s -> styleNote s' = styleNote s ->
  failed_with s' m = failed_with s m.
Proof. unfold failed_with. intros -> ->. reflexivity. Qed.

Lemma published_same (s s' : Session) (u : JsVal)
      (d : option TransformationDetails) :
  selectedFile s' = selectedFile s -> styleNote s' = styleNote s ->
  published s' u d = published s u d.
Proof. unfold published. intros -> ->. reflexivity. Qed.

(** C10.  A run whose upload is accepted sends the agent one message,
    on either page: the one built from the style directive of the
    session.  A blank directive gives the brand instruction alone, as
    the empty directive does, and the run then makes the same calls as
    with the empty directive; a directive that is not blank is
    appended, trimmed, after the fixed lead-in. *)
Theorem blank_directive_same_message (env : Collaborators) (s : Session) :
  (forall file uploadResult,
      selectedFile s = Some file ->
      upload_answer env file = Normal uploadResult ->
      upload_refused uploadResult = false ->
      filter is_agent_call (calls_of env Part000.handleTransform s)
      = [AgentCall (build_message (styleNote s)) AGENT_ID
           [assetId_of uploadResult]]
      /\ filter is_agent_call (calls_of env AppPage.handleTransform s)
         = [AgentCall (build_message (styleNote s)) AGENT_ID
              [assetId_of uploadResult]])
  /\ (forall m i a,
         In (AgentCall m i a) (calls_of env Part000.handleTransform s)
         \/ In (AgentCall m i a) (calls_of env AppPage.handleTransform s) ->
         m = build_message (styleNote s))
  /\ build_message [] = BRAND_INSTRUCTION
  /\ (blank (styleNote s) = true ->
      build_message (styleNote s) = build_message []
      /\ forall s',
          selectedFile s' = selectedFile s -> styleNote s' = [] ->
          calls_of env Part000.handleTransform s
          = calls_of env Part000.handleTransform s'
          /\ calls_of env AppPage.handleTransform s
             = calls_of env AppPage.handleTransform s')
  /\ (blank (styleNote s) = false ->
      build_message (styleNote s) =
      BRAND_INSTRUCTION ++ lit " Additional style direction: "
        ++ trim (styleNote s)).
Proof.
  split; [| split; [| split; [| split]]].
  - intros file uploadResult Hsel Hup Hacc. split.
    + rewrite Part000_calls, Hsel, Hup, Hacc. cbn [filter is_agent_call].
      f_equal.
      destruct (agent_answer env _ _ _) as [result | e]; [| reflexivity].
      destruct (truthy _ && negb _)%bool; reflexivity.
    + unfold calls_of. rewrite AppPage_run, Hsel, Hup, Hacc.
      destruct (agent_answer env _ _ _) as [result | e]; reflexivity.
  - intros m i a [H | H].
    + exact (agent_call_message _ _ _ _ _ H).
    + unfold calls_of in H. rewrite AppPage_run in H.
      destruct (selectedFile s) as [file |]; [| destruct H].
      destruct (upload_answer env file) as [uploadResult | e].
      * destruct (upload_refused uploadResult).
        -- destruct H as [H | []]. discriminate.
        -- destruct (agent_answer env _ _ _) as [result | e];
             (destruct H as [H | [H | []]];
              [discriminate | inversion H; reflexivity]).
      * destruct H as [H | []]. discriminate.
  - reflexivity.
  - intros Hblank. rewrite build_message_blank by exact Hblank.
    split; [reflexivity |].
    intros s' Hsel Hnote. split.
    + rewrite !Part000_calls.
      rewrite Hsel, Hnote. rewrite build_message_blank by exact Hblank.
      reflexivity.
    + unfold calls_of. rewrite !AppPage_run.
      rewrite Hsel, Hnote. rewrite build_message_blank by exact Hblank.
      destruct (selectedFile s) as [file |]; [| reflexivity].
      destruct (upload_answer env file) as [uploadResult | e];
        [| reflexivity].
      destruct (upload_refused uploadResult); [reflexivity |].
      change (build_message []) with BRAND_INSTRUCTION.
      destruct (agent_answer env BRAND_INSTRUCTION AGENT_ID
                  [assetId_of uploadResult]) as [result | e]; reflexivity.
  - apply build_message_directive.
Qed.

(** X1.  A run of the handler of [part_000] with a file selected always
    ends with the transforming flag and the status message cleared, the
    selection and the directive untouched, and in one of two ways:
    failed, with an error recorded and neither image nor details
    published, or published, with no error and a truthy image
    reference. *)
Theorem run_ends_failed_or_published (env : Collaborators) (s : Session)
        (file : File) :
  selectedFile s = Some file ->
  isTransforming (session_after env Part000.handleTransform s) = false
  /\ statusMessage (session_after env Part000.handleTransform s) = None
  /\ selectedFile (session_after env Part000.handleTransform s)
     = selectedFile s
  /\ styleNote (session_after env Part000.handleTransform s) = styleNote s
  /\ ((exists m,
          error (session_after env Part000.handleTransform s) = Some m
          /\ resultImageUrl (session_after env Part000.handleTransform s)
             = JNull
          /\ transformationDetails
               (session_after env Part000.handleTransform s) = None)
      \/ (error (session_after env Part000.handleTransform s) = None
          /\ truthy (resultImageUrl
                       (session_after env Part000.handleTransform s))
             = true)).
Proof.
  intros Hsel. unfold session_after. rewrite Part000_run. cbn [snd].
  rewrite Hsel.
  assert (Hfail : forall m,
             isTransforming (failed_with s m) = false
             /\ statusMessage (failed_with s m) = None
             /\ selectedFile (failed_with s m) = Some file
             /\ styleNote (failed_with s m) = styleNote s
             /\ ((exists m0,
                     error (failed_with s m) = Some m0
                     /\ resultImageUrl (failed_with s m) = JNull
                     /\ transformationDetails (failed_with s m) = None)
                 \/ (error (failed_with s m) = None
                     /\ truthy (resultImageUrl (failed_with s m)) = true))).
  { intros m. cbn. repeat split; auto. left. exists m. auto. }
  destruct (upload_answer env file) as [uploadResult | e]; [| apply Hfail].
  destruct (upload_refused uploadResult); [apply Hfail |].
  destruct (agent_answer env _ _ _) as [result | e]; [| apply Hfail].
  destruct (truthy (JObj result # "success")); [| apply Hfail].
  destruct (truthy (Part000.extractImageUrl result)) eqn:E; [| apply Hfail].
  cbn. repeat split; auto.
Qed.

(** X2.  A run starts afresh: with the same file selected and the same
    directive, what the session held before (an earlier error, result,
    details or status) changes neither the calls made nor the session
    left.  This is what makes the Try Again button a plain rerun. *)
Theorem run_forgets_earlier_outcome (env : Collaborators) (s s' : Session)
        (file : File) :
  selectedFile s = Some file -> selectedFile s' = Some file ->
  styleNote s' = styleNote s ->
  run env (Part000.handleTransform s') = run env (Part000.handleTransform s).
Proof.
  intros Hs Hs' Hnote.
  assert (Hsel : selectedFile s' = selectedFile s) by congruence.
  rewrite (surjective_pairing (run env (Part000.handleTransform s'))).
  rewrite (surjective_pairing (run env (Part000.handleTransform s))).
  change (fst (run env (Part000.handleTransform s')))
    with (calls_of env Part000.handleTransform s').
  change (fst (run env (Part000.handleTransform s)))
    with (calls_of env Part000.handleTransform s).
  rewrite !Part000_calls, !Part000_run, Hs, Hs', Hnote.
  f_equal. f_equal.
  destruct (upload_answer env file) as [uploadResult | e];
    [| apply failed_with_same; assumption].
  destruct (upload_refused uploadResult);
    [apply failed_with_same; assumption |].
  destruct (agent_answer env _ _ _) as [result | e];
    [| apply failed_with_same; assumption].
  destruct (truthy (JObj result # "success"));
    [| apply failed_with_same; assumption].
  destruct (truthy (Part000.extractImageUrl result));
    [apply published_same | apply failed_with_same]; assumption.
Qed.

(** X3.  When the upload is accepted, the agent answers with a true
    [success] flag and [extractImageUrl] finds an image, the run ends
    published: the session holds that image reference and the details
    [extractTransformationDetails] gives (possibly none), no error, and
    the calls were the upload and the agent, with nothing logged. *)
Theorem run_publishes_image_and_details (env : Collaborators) (s : Session)
        (file : File) (uploadResult result : props) :
  selectedFile s = Some file ->
  upload_answer env file = Normal uploadResult ->
  upload_refused uploadResult = false ->
  agent_answer env (build_message (styleNote s)) AGENT_ID
    [assetId_of uploadResult] = Normal result ->
  truthy (JObj result # "success") = true ->
  Part000.extractImageUrl result <> JNull ->
  run env (Part000.handleTransform s) =
  ([UploadCall file;
    AgentCall (build_message (styleNote s)) AGENT_ID
      [assetId_of uploadResult]],
   (Normal tt,
    published s (Part000.extractImageUrl result)
      (Part000.extractTransformationDetails result))).
Proof.
  intros Hsel Hup Hok Hag Hsucc Hurl.
  assert (Ht : truthy (Part000.extractImageUrl result) = true).
  { destruct (extractImageUrl_null_or_truthy result) as [Hn | Ht];
      [contradiction | exact Ht]. }
  rewrite (surjective_pairing (run env (Part000.handleTransform s))).
  change (fst (run env (Part000.handleTransform s)))
    with (calls_of env Part000.handleTransform s).
  rewrite Part000_calls, Part000_run, Hsel, Hup, Hok, Hag, Hsucc, Ht.
  reflexivity.
Qed.


(** X5.  A collaborator that throws or rejects ends the run failed: the
    error shown is the [message] of the [Error] thrown, or the fixed
    text when what was thrown is not an [Error]; a rejected upload means
    the agent is not called. *)
Theorem run_fails_on_rejection (env : Collaborators) (s : Session)
        (file : File) (e : Exn) :
  selectedFile s = Some file ->
  (upload_answer env file = Throw e ->
   run env (Part000.handleTransform s) =
   ([UploadCall file], (Normal tt, failed_with s (caught_message e))))
  /\ (forall uploadResult,
         upload_answer env file = Normal uploadResult ->
         upload_refused uploadResult = false ->
         agent_answer env (build_message (styleNote s)) AGENT_ID
           [assetId_of uploadResult] = Throw e ->
         run env (Part000.handleTransform s) =
         ([UploadCall file;
           AgentCall (build_message (styleNote s)) AGENT_ID
             [assetId_of uploadResult]],
          (Normal tt, failed_with s (caught_message e))))
  /\ (forall m, e = ErrorObject m -> caught_message e = m)
  /\ (forall v, e = NotAnError v ->
                caught_message e
                = lit "Something went wrong. Please try again.").
Proof.
  intros Hsel. split; [| split; [| split]].
  - intros Hup.
    rewrite (surjective_pairing (run env (Part000.handleTransform s))).
    change (fst (run env (Part000.handleTransform s)))
      with (calls_of env Part000.handleTransform s).
    rewrite Part000_calls, Part000_run, Hsel, Hup. reflexivity.
  - intros uploadResult Hup Hok Hag.
    rewrite (surjective_pairing (run env (Part000.handleTransform s))).
    change (fst (run env (Part000.handleTransform s)))
      with (calls_of env Part000.handleTransform s).
    rewrite Part000_calls, Part000_run, Hsel, Hup, Hok, Hag. reflexivity.
  - intros m ->. reflexivity.
  - intros v ->. reflexivity.
Qed.

Definition is_console_error (c : Call) : bool :=
  match c with ConsoleErrorCall _ _ => true | _ => false end.

Definition is_upload_call (c : Call) : bool :=
  match c with UploadCall _ => true | _ => false end.

(** X6.  The handler of [part_000] writes to the error console exactly
    when the run has come to the extraction step and [extractImageUrl]
    has returned [null]; what it logs is the agent's whole answer (the
    envelope it hands to [JSON.stringify] for the log), and the run then
    ends failed with the no-image message. *)
Theorem run_logs_unusable_answer (env : Collaborators) (s : Session)
        (label : jstr) (payload : props) :
  In (ConsoleErrorCall label payload)
     (calls_of env Part000.handleTransform s)
  <-> (label = lit "No image found in agent response. Full result:"
       /\ reaches_extraction env s payload
       /\ Part000.extractImageUrl payload = JNull
       /\ session_after env Part000.handleTransform s
          = failed_with s NO_IMAGE).
Proof.
  unfold session_after. rewrite Part000_calls, Part000_run. cbn [snd].
  split.
  - destruct (selectedFile s) as [file |] eqn:Hsel; [| intros []].
    intros [H | H]; [discriminate |].
    destruct (upload_answer env file) as [uploadResult | e] eqn:Hup;
      [| destruct H].
    destruct (upload_refused uploadResult) eqn:Hok; [destruct H |].
    destruct H as [H | H]; [discriminate |].
    destruct (agent_answer env _ _ _) as [result | e] eqn:Hag; [| destruct H].
    destruct (truthy (JObj result # "success")) eqn:Hsucc;
      cbn [andb] in H; [| destruct H].
    destruct (truthy (Part000.extractImageUrl result)) eqn:Ht;
      cbn [negb] in H; [destruct H |].
    destruct H as [H | []]. inversion H; subst label payload.
    split; [reflexivity |]. split.
    + exists file, uploadResult. repeat split; assumption.
    + split; [| reflexivity].
      destruct (extractImageUrl_null_or_truthy result) as [Hn | Ht'];
        [exact Hn | rewrite Ht' in Ht; discriminate].
  - intros (-> & (file & uploadResult & Hsel & Hup & Hok & Hag & Hsucc)
            & Hnull & _).
    rewrite Hsel, Hup, Hok, Hag, Hsucc, Hnull. cbn. auto.
Qed.

(** X7.  No run calls a collaborator twice, and the agent is called only
    after an upload that answered with a true [success] flag and a
    non-empty array of asset ids: with the fixed agent id and, as its
    only asset, the first of those ids. *)
Theorem run_calls_in_order (env : Collaborators) (s : Session) :
  length (filter is_upload_call (calls_of env Part000.handleTransform s))
  <= 1
  /\ length (filter is_agent_call (calls_of env Part000.handleTransform s))
     <= 1
  /\ forall m i a,
      In (AgentCall m i a) (calls_of env Part000.handleTransform s) ->
      i = AGENT_ID
      /\ exists file uploadResult id ids,
          selectedFile s = Some file
          /\ upload_answer env file = Normal uploadResult
          /\ truthy (JObj uploadResult # "success") = true
          /\ JObj uploadResult # "asset_ids" = JArr (id :: ids)
          /\ a = [id]
          /\ calls_of env Part000.handleTransform s
             = UploadCall file :: AgentCall m i a
                 :: filter is_console_error
                      (calls_of env Part000.handleTransform s).
Proof.
  rewrite Part000_calls.
  assert (Hnone : forall l : list Call,
             l = [] \/ (exists file, l = [UploadCall file]) ->
             length (filter is_upload_call l) <= 1
             /\ length (filter is_agent_call l) <= 1
             /\ forall m i a, In (AgentCall m i a) l ->
                 i = AGENT_ID
                 /\ exists file uploadResult id ids,
                     selectedFile s = Some file
                     /\ upload_answer env file = Normal uploadResult
                     /\ truthy (JObj uploadResult # "success") = true
                     /\ JObj uploadResult # "asset_ids" = JArr (id :: ids)
                     /\ a = [id]
                     /\ l = UploadCall file :: AgentCall m i a
                             :: filter is_console_error l).
  { intros l [-> | (file & ->)]; cbn; (split; [lia | split; [lia |]]).
    - intros m i a [].
    - intros m i a [H | []]. discriminate H. }
  destruct (selectedFile s) as [file |] eqn:Hsel;
    [| apply Hnone; left; reflexivity].
  destruct (upload_answer env file) as [uploadResult | e] eqn:Hup;
    [| apply Hnone; right; eauto].
  destruct (upload_refused uploadResult) eqn:Hok;
    [apply Hnone; right; eauto |].
  clear Hnone.
  assert (Hids : truthy (JObj uploadResult # "success") = true
                 /\ exists id ids,
                     JObj uploadResult # "asset_ids" = JArr (id :: ids)
                     /\ assetId_of uploadResult = id).
  { unfold upload_refused, assetId_of in *.
    destruct (truthy (JObj uploadResult # "success")); [| discriminate].
    split; [reflexivity |].
    destruct (JObj uploadResult # "asset_ids") as [| | | | | [| id ids] |];
      try discriminate.
    exists id, ids. split; reflexivity. }
  destruct Hids as (Hsucc & id & ids & Hids & Hid).
  set (tail := match agent_answer env _ _ _ with
               | Normal result => _
               | Throw _ => []
               end).
  assert (Htail : tail = [] \/ exists l p, tail = [ConsoleErrorCall l p]).
  { subst tail. destruct (agent_answer env _ _ _); [| left; reflexivity].
    destruct (truthy _ && negb _)%bool; [right; eauto | left; reflexivity]. }
  split; [| split].
  - destruct Htail as [-> | (l & p & ->)]; cbn; lia.
  - destruct Htail as [-> | (l & p & ->)]; cbn; lia.
  - intros m i a [H | [H | H]]; [discriminate | |].
    + inversion H; subst m i a. split; [reflexivity |].
      exists file, uploadResult, id, ids. rewrite Hid.
      repeat split; try assumption.
      destruct Htail as [-> | (l & p & ->)]; reflexivity.
    + destruct Htail as [Ht | (l & p & Ht)]; rewrite Ht in H.
      * destruct H.
      * destruct H as [H | []]; discriminate.
Qed.

(** X8.  For the same session and collaborators the two pages make the
    same upload and agent calls; the page of [part_000] only adds its
    console log. *)
Theorem pages_make_same_calls (env : Collaborators) (s : Session) :
  filter (fun c => negb (is_console_error c))
    (calls_of env Part000.handleTransform s)
  = calls_of env AppPage.handleTransform s.
Proof.
  unfold calls_of at 2. rewrite Part000_calls, AppPage_run.
  destruct (selectedFile s) as [file |]; [| reflexivity].
  destruct (upload_answer env file) as [uploadResult | e]; [| reflexivity].
  destruct (upload_refused uploadResult); [reflexivity |].
  destruct (agent_answer env _ _ _) as [result | e]; [| reflexivity].
  destruct (truthy _ && negb _)%bool; reflexivity.
Qed.

(** X9.  At its extraction step [page.tsx] looks at nothing but
    [module_outputs.artifact_files]: a non-empty array there never gives
    the no-image message.  If element 0 is [null] or [undefined] the run
    fails with the message of the TypeError the read raises; otherwise
    it publishes [artifact_files[0].file_url] as it is, [undefined]
    included, with no error. *)
Theorem AppPage_publishes_whatever_is_there (env : Collaborators)
        (s : Session) (result : props) (f0 : JsVal) (fs : list JsVal) :
  reaches_extraction env s result ->
  JObj result # "module_outputs" # "artifact_files" = JArr (f0 :: fs) ->
  (is_nullish f0 = true ->
   session_after env AppPage.handleTransform s
   = failed_with s (TypeError_message f0 (lit "file_url")))
  /\ (is_nullish f0 = false ->
      error (session_after env AppPage.handleTransform s) = None
      /\ resultImageUrl (session_after env AppPage.handleTransform s)
         = f0 # "file_url")
  /\ (is_nullish f0 = false -> f0 # "file_url" = JUndefined ->
      error (session_after env AppPage.handleTransform s) = None
      /\ resultImageUrl (session_after env AppPage.handleTransform s)
         = JUndefined).
Proof.
  intros (file & uploadResult & Hsel & Hup & Hok & Hag & Hsucc) Hfiles.
  unfold session_after. rewrite AppPage_run, Hsel, Hup, Hok, Hag.
  cbn [snd]. rewrite Hsucc. unfold AppPage_outcome.
  rewrite Hfiles, nonempty_array_cons. cbn [elements elem0 nth].
  split; [| split].
  - intros ->. reflexivity.
  - intros ->. split; reflexivity.
  - intros -> Hu. rewrite <- Hu. split; reflexivity.
Qed.

(** X10.  When [page.tsx] publishes an image, the details it keeps are
    read off [response.result] alone: for a mapping, the three keys of
    the record with the empty string for what is missing or falsy, all
    three empty included; for anything that is not an object, no
    details at all, whatever [response.message] says. *)
Theorem AppPage_details_from_result_only (env : Collaborators) (s : Session)
        (result : props) (f0 : JsVal) (fs : list JsVal) :
  reaches_extraction env s result ->
  JObj result # "module_outputs" # "artifact_files" = JArr (f0 :: fs) ->
  is_nullish f0 = false ->
  (forall r, JObj result # "response" # "result" = JObj r ->
     transformationDetails (session_after env AppPage.handleTransform s)
     = Some {| transformation_description :=
                 js_or (JObj r # "transformation_description") (JStr []);
               style_elements_applied :=
                 js_or (JObj r # "style_elements_applied") (JStr []);
               color_palette_used :=
                 js_or (JObj r # "color_palette_used") (JStr []) |})
  /\ (typeof_object (JObj result # "response" # "result") = false ->
      transformationDetails (session_after env AppPage.handleTransform s)
      = None)
  /\ (truthy (JObj result # "response" # "result") = false ->
      transformationDetails (session_after env AppPage.handleTransform s)
      = None).
Proof.
  intros (file & uploadResult & Hsel & Hup & Hok & Hag & Hsucc) Hfiles Hf0.
  unfold session_after. rewrite AppPage_run, Hsel, Hup, Hok, Hag.
  cbn [snd]. rewrite Hsucc. unfold AppPage_outcome.
  rewrite Hfiles, nonempty_array_cons. cbn [elements elem0 nth].
  rewrite Hf0. unfold AppPage_details.
  cbn [published transformationDetails].
  split; [| split].
  - intros r ->. reflexivity.
  - intros ->. rewrite andb_false_r. reflexivity.
  - intros ->. reflexivity.
Qed.

End EveryRun.
(* ===================================================================== *)
(** * More of the extractors *)
(* ===================================================================== *)

Section MoreExtraction.
Context `{RT : JsRuntime}.
Import Part000.

(** Only a truthy value has a truthy property. *)
Lemma get_truthy_parent (v : JsVal) (k : jstr) :
  truthy (get v k) = true -> truthy v = true.
Proof.
  destruct v as [| | b | n | s | l | ps]; cbn [get truthy];
    try discriminate; try reflexivity.
  destruct s as [| c s]; [| reflexivity].
  destruct (index_of_key k) as [i |].
  - destruct (N.to_nat i); discriminate.
  - destruct (jstr_eqb k (lit "length")); discriminate.
Qed.

(** X11.  When path 1 finds nothing, a [url] directly under
    [module_outputs] is the result, and without it an [image_url]
    there; both come before any scan of the other fields and before
    everything under [response] and [raw_response]. *)
Theorem module_outputs_url_before_image_url (result : props) :
  path1 result = None ->
  (truthy (JObj result # "module_outputs" # "url") = true ->
   extractImageUrl result = JObj result # "module_outputs" # "url")
  /\ (truthy (JObj result # "module_outputs" # "url") = false ->
      truthy (JObj result # "module_outputs" # "image_url") = true ->
      extractImageUrl result = JObj result # "module_outputs" # "image_url").
Proof.
  intros H1. unfold extractImageUrl, path2. rewrite H1. split.
  - intros Hu. rewrite (get_truthy_parent _ _ Hu), Hu. reflexivity.
  - intros Hu Hi. rewrite (get_truthy_parent _ _ Hi), Hu, Hi. reflexivity.
Qed.

(** The loop of path 2 stops at the first key whose value matches. *)
Lemma scan_keys_first (mo : JsVal) (pre post : list jstr) (key : jstr)
      (v0 : JsVal) (vs : list JsVal) :
  (forall k, In k pre ->
             first_with (get mo k) "file_url" = None
             /\ first_with (get mo k) "url" = None) ->
  get mo key = JArr (v0 :: vs) ->
  truthy (v0 # "file_url") = true \/ truthy (v0 # "url") = true ->
  scan_keys mo (pre ++ key :: post)
  = Some (js_or (v0 # "file_url") (v0 # "url")).
Proof.
  intros Hpre Hkey Hv0. induction pre as [| k pre IH]; cbn [app scan_keys].
  - rewrite Hkey. unfold or_else, js_or.
    destruct (truthy (v0 # "file_url")) eqn:Ef.
    + rewrite first_with_head by exact Ef. reflexivity.
    + destruct Hv0 as [Hc | Hu]; [discriminate |].
      unfold first_with at 1. cbn [Array_isArray elements length elem0 nth].
      rewrite Ef. rewrite Bool.andb_false_r.
      rewrite first_with_head by exact Hu. reflexivity.
  - destruct (Hpre k (or_introl eq_refl)) as (-> & ->). cbn [or_else].
    apply IH. intros k' Hin. apply Hpre. right. exact Hin.
Qed.

(** X12.  Without [url] and [image_url] under [module_outputs], path 2
    goes through the keys of [module_outputs] in [Object.keys] order and
    stops at the first one whose value is a non-empty array with a
    truthy [file_url] or [url] in element 0; of the two, [file_url]
    wins. *)
Theorem module_outputs_first_matching_key (result : props)
        (pre post : list jstr) (key : jstr) (v0 : JsVal) (vs : list JsVal) :
  path1 result = None ->
  truthy (JObj result # "module_outputs") = true ->
  truthy (JObj result # "module_outputs" # "url") = false ->
  truthy (JObj result # "module_outputs" # "image_url") = false ->
  Object_keys (JObj result # "module_outputs") = pre ++ key :: post ->
  (forall k, In k pre ->
     first_with (get (JObj result # "module_outputs") k) "file_url" = None
     /\ first_with (get (JObj result # "module_outputs") k) "url" = None) ->
  get (JObj result # "module_outputs") key = JArr (v0 :: vs) ->
  (truthy (v0 # "file_url") = true ->
   extractImageUrl result = v0 # "file_url")
  /\ (truthy (v0 # "file_url") = false -> truthy (v0 # "url") = true ->
      extractImageUrl result = v0 # "url").
Proof.
  intros H1 Hmo Hu Hi Hkeys Hpre Hkey.
  unfold extractImageUrl, path2. rewrite H1, Hmo, Hu, Hi, Hkeys. split.
  - intros Hf. rewrite (@scan_keys_first _ pre post key v0 vs Hpre Hkey (or_introl Hf)).
    rewrite js_or_truthy by exact Hf. reflexivity.
  - intros Hf Hurl.
    rewrite (@scan_keys_first _ pre post key v0 vs Hpre Hkey (or_intror Hurl)).
    rewrite js_or_falsy by exact Hf. reflexivity.
Qed.

(** X13.  When paths 1 to 3 run through without returning and
    [response.message] is a string, the result is the leftmost
    substring of the message that is an image URL: [http] or [https] in
    any case, [://], one or more characters none of which is white
    space, a quote, an apostrophe, [<] or [>], a dot and one of the
    extensions [png jpg jpeg webp gif svg bmp] in any case.  Only a
    message without such a substring lets [raw_response] decide. *)
Theorem message_scan_leftmost_image_url (result : props) (message : jstr) :
  path1 result = None -> path2 result = None -> path3 result = None ->
  JObj result # "response" # "message" = JStr message ->
  (exists pre m post,
      message = pre ++ m ++ post
      /\ image_url url_char message_exts m
      /\ (forall pre' m' post',
             message = pre' ++ m' ++ post' ->
             image_url url_char message_exts m' ->
             length pre <= length pre')
      /\ extractImageUrl result = JStr m)
  \/ ((forall pre m post,
          message = pre ++ m ++ post ->
          ~ image_url url_char message_exts m)
      /\ extractImageUrl result
         = match path5 result with Some v => v | None => JNull end).
Proof.
  intros H1 H2 H3 Hm.
  pose proof (@scan_finds_first_image_url url_char message_exts message
                (proj1 exts_nonempty)) as Hscan.
  fold MESSAGE_URL_RE in Hscan.
  destruct (String_match MESSAGE_URL_RE message) as [m |] eqn:E.
  - left. destruct Hscan as (Himg & pre & post & Hs & Hleft).
    exists pre, m, post. split; [exact Hs |]. split; [exact Himg |].
    split; [exact Hleft |].
    unfold extractImageUrl, path4. rewrite H1, H2, H3, Hm.
    destruct message as [| c message]; [discriminate |].
    rewrite E. reflexivity.
  - right. split; [exact Hscan |].
    unfold extractImageUrl, path4. rewrite H1, H2, H3, Hm.
    destruct message as [| c message]; [reflexivity |].
    rewrite E. reflexivity.
Qed.

(** X14.  The two extractors read three fields of the envelope and no
    other: [extractImageUrl] reads [module_outputs], [response] and
    [raw_response], [extractTransformationDetails] reads [response].
    Envelopes that agree there give the same image reference and the
    same details, whatever their [success], [error] and other fields
    are. *)
Theorem extractors_read_three_fields (r1 r2 : props) :
  JObj r1 # "response" = JObj r2 # "response" ->
  extractTransformationDetails r1 = extractTransformationDetails r2
  /\ (JObj r1 # "module_outputs" = JObj r2 # "module_outputs" ->
      JObj r1 # "raw_response" = JObj r2 # "raw_response" ->
      extractImageUrl r1 = extractImageUrl r2).
Proof.
  intros Hr. split.
  - unfold extractTransformationDetails, details_of_result.
    rewrite Hr. reflexivity.
  - intros Hmo Hraw.
    unfold extractImageUrl, path1, path2, path3, path4, path5.
    rewrite Hr, Hmo, Hraw. reflexivity.
Qed.


End MoreExtraction.

(* ===================================================================== *)
(** * More runs on concrete envelopes *)
(* ===================================================================== *)

Definition accepted_upload : props :=
  envelope "{'success':true,'asset_ids':['asset-1']}".

(** A session that still holds the outcome of an earlier run. *)
Definition session_after_failure : Session :=
  {| selectedFile := Some a_file; styleNote := lit "neon";
     isTransforming := false; error := Some (lit "Transformation failed");
     resultImageUrl := JStr (lit "https://cdn/old.png");
     transformationDetails := None;
     statusMessage := Some (lit "Uploading image...") |}.

Lemma run_ends_failed_or_published_witness :
  isTransforming
    (session_after artifact_answer Part000.handleTransform
       (session_with "neon")) = false
  /\ statusMessage
       (session_after artifact_answer Part000.handleTransform
          (session_with "neon")) = None.
Proof.
  pose proof (@run_ends_failed_or_published Reference.runtime
                artifact_answer (session_with "neon") a_file
                ltac:(computed)) as (H1 & H2 & _).
  split; [exact H1 | exact H2].
Defined.

Lemma run_forgets_earlier_outcome_witness :
  run artifact_answer (Part000.handleTransform session_after_failure)
  = run artifact_answer (Part000.handleTransform (session_with "neon")).
Proof.
  exact (@run_forgets_earlier_outcome Reference.runtime artifact_answer
           (session_with "neon") session_after_failure a_file
           ltac:(computed) ltac:(computed) ltac:(computed)).
Defined.

Lemma artifact_envelope_has_image :
  Part000.extractImageUrl artifact_envelope <> JNull.
Proof. vm_compute. discriminate. Qed.

Lemma run_publishes_image_and_details_witness :
  run artifact_answer (Part000.handleTransform (session_with "neon")) =
  ([UploadCall a_file;
    AgentCall (build_message (lit "neon")) AGENT_ID
      [JStr (lit "asset-1")]],
   (Normal tt,
    published (session_with "neon") (JStr (lit "https://cdn/1.png")) None)).
Proof.
  pose proof (@run_publishes_image_and_details Reference.runtime
                artifact_answer (session_with "neon") a_file
                accepted_upload artifact_envelope
                ltac:(computed) ltac:(computed) ltac:(computed)
                ltac:(computed) ltac:(computed)
                artifact_envelope_has_image) as H.
  etransitivity; [exact H | computed].
Defined.

Lemma blank_directive_same_message_witness :
  filter is_agent_call
    (calls_of artifact_answer Part000.handleTransform (session_with "   "))
  = [AgentCall BRAND_INSTRUCTION AGENT_ID [JStr (lit "asset-1")]]
  /\ calls_of artifact_answer Part000.handleTransform (session_with "   ")
     = calls_of artifact_answer Part000.handleTransform (session_with "")
  /\ build_message (lit "  neon  ")
     = BRAND_INSTRUCTION ++ lit " Additional style direction: neon".
Proof.
  split; [| split].
  - pose proof (@blank_directive_same_message Reference.runtime
                  artifact_answer (session_with "   ")) as (H & _).
    destruct (H a_file accepted_upload ltac:(computed) ltac:(computed)
                ltac:(computed)) as (H1 & _).
    etransitivity; [exact H1 | computed].
  - pose proof (@blank_directive_same_message Reference.runtime
                  artifact_answer (session_with "   "))
      as (_ & _ & _ & H & _).
    destruct (H ltac:(computed)) as (_ & H').
    apply (H' (session_with "")); reflexivity.
  - pose proof (@blank_directive_same_message Reference.runtime
                  artifact_answer (session_with "  neon  "))
      as (_ & _ & _ & _ & H).
    etransitivity; [exact (H ltac:(computed)) | computed].
Defined.


Definition refusing_agent : Collaborators :=
  answering "{'success':true,'asset_ids':['asset-1']}"
    "{'success':false,'response':{'message':'quota used up'}}".




(** Collaborators whose upload rejects with an [Error]. *)
Definition offline : Collaborators :=
  {| upload_answer := fun _ => Throw (ErrorObject (lit "Failed to fetch"));
     agent_answer := fun _ _ _ => Normal (envelope "{'success':true}") |}.

Lemma run_fails_on_rejection_witness :
  run offline (Part000.handleTransform (session_with "neon")) =
  ([UploadCall a_file],
   (Normal tt, failed_with (session_with "neon") (lit "Failed to fetch"))).
Proof.
  pose proof (@run_fails_on_rejection Reference.runtime offline
                (session_with "neon") a_file
                (ErrorObject (lit "Failed to fetch")) ltac:(computed))
    as (H & _).
  exact (H ltac:(computed)).
Defined.

(** An agent that answers success without any image. *)
Definition empty_answer : Collaborators :=
  answering "{'success':true,'asset_ids':['asset-1']}" "{'success':true}".

Lemma run_logs_unusable_answer_witness :
  In (ConsoleErrorCall
        (lit "No image found in agent response. Full result:")
        (envelope "{'success':true}"))
     (calls_of empty_answer Part000.handleTransform (session_with "neon")).
Proof.
  apply (proj2 (@run_logs_unusable_answer Reference.runtime empty_answer
                  (session_with "neon")
                  (lit "No image found in agent response. Full result:")
                  (envelope "{'success':true}"))).
  split; [reflexivity |]. split; [| split; computed].
  apply reaches_extraction_answering; computed.
Defined.

Lemma run_calls_in_order_witness :
  length (filter is_upload_call
            (calls_of artifact_answer Part000.handleTransform
               (session_with "neon"))) <= 1
  /\ length (filter is_agent_call
               (calls_of artifact_answer Part000.handleTransform
                  (session_with "neon"))) <= 1.
Proof.
  pose proof (@run_calls_in_order Reference.runtime artifact_answer
                (session_with "neon")) as (H1 & H2 & _).
  split; [exact H1 | exact H2].
Defined.

(** An agent whose artifact list holds an element without [file_url],
    next to a result that is a mapping without any of the three keys. *)
Definition bare_artifact : props :=
  envelope "{'success':true,'module_outputs':{'artifact_files':[{'name':'a.png'}]},'response':{'result':{'note':'done'},'message':'All done.'}}".

Definition bare_artifact_answer : Collaborators :=
  answering "{'success':true,'asset_ids':['asset-1']}"
    "{'success':true,'module_outputs':{'artifact_files':[{'name':'a.png'}]},'response':{'result':{'note':'done'},'message':'All done.'}}".

Lemma bare_artifact_reached :
  reaches_extraction bare_artifact_answer (session_with "neon")
    bare_artifact.
Proof. apply reaches_extraction_answering; computed. Qed.

Lemma AppPage_publishes_whatever_is_there_witness :
  error (session_after bare_artifact_answer AppPage.handleTransform
           (session_with "neon")) = None
  /\ resultImageUrl (session_after bare_artifact_answer
                       AppPage.handleTransform (session_with "neon"))
     = JUndefined.
Proof.
  pose proof (@AppPage_publishes_whatever_is_there Reference.runtime
                bare_artifact_answer (session_with "neon") bare_artifact
                (JObj [(lit "name", JStr (lit "a.png"))]) []
                bare_artifact_reached ltac:(computed)) as (_ & _ & H).
  exact (H ltac:(computed) ltac:(computed)).
Defined.

Lemma AppPage_details_from_result_only_witness :
  transformationDetails
    (session_after bare_artifact_answer AppPage.handleTransform
       (session_with "neon"))
  = Some {| transformation_description := JStr [];
            style_elements_applied := JStr [];
            color_palette_used := JStr [] |}.
Proof.
  pose proof (@AppPage_details_from_result_only Reference.runtime
                bare_artifact_answer (session_with "neon") bare_artifact
                (JObj [(lit "name", JStr (lit "a.png"))]) []
                bare_artifact_reached ltac:(computed) ltac:(computed))
    as (H & _).
  etransitivity;
    [exact (H [(lit "note", JStr (lit "done"))] ltac:(computed))
    | computed].
Defined.

Definition direct_envelope : props :=
  envelope "{'module_outputs':{'image_url':'https://cdn/direct.png','files':[{'url':'https://cdn/later.png'}]}}".

Lemma module_outputs_url_before_image_url_witness :
  Part000.extractImageUrl direct_envelope
  = JStr (lit "https://cdn/direct.png").
Proof.
  pose proof (@module_outputs_url_before_image_url Reference.runtime
                direct_envelope ltac:(computed)) as (_ & H).
  etransitivity; [exact (H ltac:(computed) ltac:(computed)) | computed].
Defined.

Definition keyed_envelope : props :=
  envelope "{'module_outputs':{'count':2,'thumbs':[],'images':[{'url':'https://cdn/first.png'}],'files':[{'file_url':'https://cdn/second.png'}]}}".

Lemma module_outputs_first_matching_key_witness :
  Part000.extractImageUrl keyed_envelope
  = JStr (lit "https://cdn/first.png").
Proof.
  assert (Hpre : forall k, In k [lit "count"; lit "thumbs"] ->
            first_with (get (JObj keyed_envelope # "module_outputs") k)
              "file_url" = None
            /\ first_with (get (JObj keyed_envelope # "module_outputs") k)
                 "url" = None).
  { intros k [<- | [<- | []]]; split; computed. }
  pose proof (@module_outputs_first_matching_key Reference.runtime
                keyed_envelope [lit "count"; lit "thumbs"]
                [lit "files"] (lit "images")
                (JObj [(lit "url", JStr (lit "https://cdn/first.png"))]) []
                ltac:(computed) ltac:(computed) ltac:(computed)
                ltac:(computed) ltac:(computed) Hpre ltac:(computed))
    as (_ & H).
  etransitivity; [exact (H ltac:(computed) ltac:(computed)) | computed].
Defined.

Definition two_urls_envelope : props :=
  envelope "{'response':{'message':'old https://x.com/a.txt new HTTPS://x.com/b.PNG and https://x.com/c.png'}}".

Lemma message_scan_leftmost_image_url_witness :
  (exists pre m post,
      lit "old https://x.com/a.txt new HTTPS://x.com/b.PNG and https://x.com/c.png"
      = pre ++ m ++ post
      /\ image_url url_char message_exts m
      /\ (forall pre' m' post',
             lit "old https://x.com/a.txt new HTTPS://x.com/b.PNG and https://x.com/c.png"
             = pre' ++ m' ++ post' ->
             image_url url_char message_exts m' ->
             length pre <= length pre')
      /\ Part000.extractImageUrl two_urls_envelope = JStr m)
  \/ ((forall pre m post,
          lit "old https://x.com/a.txt new HTTPS://x.com/b.PNG and https://x.com/c.png"
          = pre ++ m ++ post ->
          ~ image_url url_char message_exts m)
      /\ Part000.extractImageUrl two_urls_envelope
         = match Part000.path5 two_urls_envelope with
           | Some v => v
           | None => JNull
           end).
Proof.
  exact (@message_scan_leftmost_image_url Reference.runtime
           two_urls_envelope
           (lit "old https://x.com/a.txt new HTTPS://x.com/b.PNG and https://x.com/c.png")
           ltac:(computed) ltac:(computed) ltac:(computed)
           ltac:(computed)).
Defined.

Definition flagged_envelope : props :=
  envelope "{'success':false,'error':'late','response':{'message':'see https://x.com/a.png here'}}".

Definition unflagged_envelope : props :=
  envelope "{'response':{'message':'see https://x.com/a.png here'},'trace':[1,2]}".

Lemma extractors_read_three_fields_witness :
  Part000.extractTransformationDetails flagged_envelope
  = Part000.extractTransformationDetails unflagged_envelope
  /\ Part000.extractImageUrl flagged_envelope
     = Part000.extractImageUrl unflagged_envelope.
Proof.
  pose proof (@extractors_read_three_fields Reference.runtime
                flagged_envelope unflagged_envelope ltac:(computed))
    as (H1 & H2).
  split; [exact H1 | exact (H2 ltac:(computed) ltac:(computed))].
Defined.



Lemma app_nonempty_l (a b : jstr) : a <> [] -> a ++ b <> [].
Proof. destruct a; [intros H; contradiction | discriminate]. Qed.




(* ===================================================================== *)
(** * The page around the workflow *)
(* ===================================================================== *)

(** The two pages have the same component around [handleTransform]; what
    follows is that component's state, its synchronous handlers, its
    download handler and the values its view is computed from. *)

Definition ACCEPTED_FORMATS : list jstr :=
  [lit "image/png"; lit "image/jpeg"; lit "image/webp"].

(** [a.includes(x)] on an array of strings. *)
Definition includes (a : list jstr) (x : jstr) : bool :=
  existsb (jstr_eqb x) a.

Definition SAMPLE_IMAGE_URL : jstr :=
  lit "https://images.unsplash.com/photo-1618005182384-a83a8bd57fbe?w=600&h=400&fit=crop".

Definition SAMPLE_PREVIEW_URL : jstr :=
  lit "https://images.unsplash.com/photo-1506905925346-21bda4d32df4?w=600&h=400&fit=crop".

Definition SAMPLE_TRANSFORMATION_DETAILS : TransformationDetails :=
  {| transformation_description :=
       JStr (lit "The original image was reimagined with Lyzr brand aesthetics. Deep purple gradients were applied as background overlays, and key visual elements were enhanced with electric blue accents and clean geometric lines to evoke a modern, tech-forward feel consistent with Lyzr's identity.");
     style_elements_applied :=
       JStr (lit "Clean gradient overlays, geometric accent lines, rounded containers, soft shadows with purple hues, tech-forward minimalist composition, brand-consistent iconography treatment");
     color_palette_used :=
       JStr (lit "Deep Purple (#7458e8), Midnight Violet (#2D1B69), Electric Blue (#3B82F6), Soft Lavender (#A78BFA), White (#FFFFFF), Dark Background (#0A0612)") |}.

(** The state of the component: the part [handleTransform] works on, and
    the rest of its [useState] cells. *)
Record Page := {
  session : Session;
  previewUrl : option jstr;
  showComparison : bool;
  isDragOver : bool;
  useSampleData : bool
}.

(** What the handlers touch outside the component: the object URLs the
    document holds (created and not revoked), and the [value] of the file
    input behind [fileInputRef], when the ref is attached. *)
Record Browser := {
  objectURLs : list jstr;
  fileInput : option jstr
}.

Definition World : Type := (Page * Browser)%type.

(** The state a mounted page starts from. *)
Definition initial : World :=
  ({| session :=
        {| selectedFile := None; styleNote := []; isTransforming := false;
           error := None; resultImageUrl := JNull;
           transformationDetails := None; statusMessage := None |};
      previewUrl := None; showComparison := false; isDragOver := false;
      useSampleData := false |},
   {| objectURLs := []; fileInput := Some [] |}).

(** A setter of the workflow's part of the state, called outside a run. *)
Definition set_by (m : M unit) (s : Session) : Session :=
  match m s with
  | Done (_, s') => s'
  | _ => s
  end.

Definition in_session (m : M unit) (w : World) : World :=
  ({| session := set_by m (session (fst w));
      previewUrl := previewUrl (fst w);
      showComparison := showComparison (fst w);
      isDragOver := isDragOver (fst w);
      useSampleData := useSampleData (fst w) |}, snd w).

Definition setSelectedFile (f : option File) : M unit :=
  modify (fun s =>
    {| selectedFile := f; styleNote := styleNote s;
       isTransforming := isTransforming s; error := error s;
       resultImageUrl := resultImageUrl s;
       transformationDetails := transformationDetails s;
       statusMessage := statusMessage s |}).

Definition setStyleNote (text : jstr) : M unit :=
  modify (fun s =>
    {| selectedFile := selectedFile s; styleNote := text;
       isTransforming := isTransforming s; error := error s;
       resultImageUrl := resultImageUrl s;
       transformationDetails := transformationDetails s;
       statusMessage := statusMessage s |}).

Definition setPreviewUrl (u : option jstr) (w : World) : World :=
  ({| session := session (fst w); previewUrl := u;
      showComparison := showComparison (fst w);
      isDragOver := isDragOver (fst w);
      useSampleData := useSampleData (fst w) |}, snd w).

Definition setShowComparison (b : bool) (w : World) : World :=
  ({| session := session (fst w); previewUrl := previewUrl (fst w);
      showComparison := b; isDragOver := isDragOver (fst w);
      useSampleData := useSampleData (fst w) |}, snd w).

Definition setIsDragOver (b : bool) (w : World) : World :=
  ({| session := session (fst w); previewUrl := previewUrl (fst w);
      showComparison := showComparison (fst w); isDragOver := b;
      useSampleData := useSampleData (fst w) |}, snd w).

Definition setUseSampleData (b : bool) (w : World) : World :=
  ({| session := session (fst w); previewUrl := previewUrl (fst w);
      showComparison := showComparison (fst w);
      isDragOver := isDragOver (fst w); useSampleData := b |}, snd w).

(** [URL.revokeObjectURL(u)]: [u] is no longer an object URL of the
    document; nothing happens for a [u] that is none. *)
Definition URL_revokeObjectURL (u : jstr) (w : World) : World :=
  (fst w,
   {| objectURLs := filter (fun v => negb (jstr_eqb u v)) (objectURLs (snd w));
      fileInput := fileInput (snd w) |}).

(** [fileInputRef.current.value = ''], under [if (fileInputRef.current)]. *)
Definition reset_fileInput (w : World) : World :=
  (fst w,
   {| objectURLs := objectURLs (snd w);
      fileInput := match fileInput (snd w) with
                   | Some _ => Some []
                   | None => None
                   end |}).

(** [if (previewUrl)] on a [string | null]. *)
Definition nonempty (u : option jstr) : bool :=
  match u with Some (_ :: _) => true | _ => false end.

Section Handlers.

(** The URL [URL.createObjectURL] answers with: the browser chooses it,
    the page does not. *)
Variable object_url : Browser -> jstr.

Definition URL_createObjectURL (w : World) : jstr * World :=
  (object_url (snd w),
   (fst w,
    {| objectURLs := objectURLs (snd w) ++ [object_url (snd w)];
       fileInput := fileInput (snd w) |})).

Definition handleFileSelect (file : File) (w : World) : World :=
  if negb (includes ACCEPTED_FORMATS (file_type file)) then
    in_session
      (setError (Some (lit "Please upload a PNG, JPG, or WEBP image."))) w
  else
    let w1 := match previewUrl (fst w) with
              | Some u => if nonempty (Some u)
                          then URL_revokeObjectURL u w else w
              | None => w
              end in
    let w2 := in_session (setSelectedFile (Some file)) w1 in
    let (url, w3) := URL_createObjectURL w2 in
    let w4 := setPreviewUrl (Some url) w3 in
    let w5 := in_session (setError None) w4 in
    let w6 := in_session (setResultImageUrl JNull) w5 in
    let w7 := in_session (setTransformationDetails None) w6 in
    setShowComparison false w7.

Definition handleRemoveFile (w : World) : World :=
  let w1 := match previewUrl (fst w) with
            | Some u => if nonempty (Some u)
                        then URL_revokeObjectURL u w else w
            | None => w
            end in
  let w2 := in_session (setSelectedFile None) w1 in
  let w3 := setPreviewUrl None w2 in
  let w4 := in_session (setResultImageUrl JNull) w3 in
  let w5 := in_session (setTransformationDetails None) w4 in
  let w6 := in_session (setError None) w5 in
  let w7 := setShowComparison false w6 in
  reset_fileInput w7.

(** The drag handlers; their [preventDefault] and [stopPropagation] act
    on the event, not on the page. *)
Definition handleDragOver (w : World) : World := setIsDragOver true w.

Definition handleDragLeave (w : World) : World := setIsDragOver false w.

(** [files] is [e.dataTransfer.files]. *)
Definition handleDrop (files : list File) (w : World) : World :=
  let w1 := setIsDragOver false w in
  match files with
  | file :: _ => handleFileSelect file w1
  | [] => w1
  end.

(** [files] is [e.target.files], [None] for [null]. *)
Definition handleInputChange (files : option (list File)) (w : World)
  : World :=
  match files with
  | Some (file :: _) => handleFileSelect file w
  | _ => w
  end.

(** What [response.blob()] settles to is carried by the response. *)
Record Blob := { blob_size : N }.

Inductive Response : Type :=
| response_with (body : Completion Blob).

(** What the download handler does to the document and the window. *)
Inductive DomCall : Type :=
| FetchCall (url : JsVal)
| CreateLink (href download : jstr)
| AppendLink
| ClickLink (href download : jstr)
| RemoveLink
| WindowOpen (url : JsVal) (target : jstr).

(** [url] of [handleDownload]. *)
Definition download_url (p : Page) : JsVal :=
  if useSampleData p then JStr SAMPLE_IMAGE_URL
  else resultImageUrl (session p).

(** The download handler, against what [fetch] answers.  The calls on
    the link and the document are taken not to throw. *)
Definition handleDownload (fetch : JsVal -> Completion Response)
           (w : World) : list DomCall * World :=
  let url := download_url (fst w) in
  if negb (truthy url) then ([], w)
  else
    let caught := [FetchCall url; WindowOpen url (lit "_blank")] in
    match fetch url with
    | Normal (response_with body) =>
        match body with
        | Normal blob =>
            let (blobUrl, w1) := URL_createObjectURL w in
            ([FetchCall url;
              CreateLink blobUrl (lit "lyzr-styled-image.png");
              AppendLink;
              ClickLink blobUrl (lit "lyzr-styled-image.png");
              RemoveLink],
             URL_revokeObjectURL blobUrl w1)
        | Throw _ => (caught, w)
        end
    | Throw _ => (caught, w)
    end.

(** The events of the page: what the user does with the view.  A click
    on Transform or Try Again stands for the whole run it starts, with
    the collaborators answering as [env] says. *)
Inductive Event : Type :=
| DragOver
| DragLeave
| Drop (files : list File)
| InputChange (files : option (list File))
| ClickRemove
| TypeStyleNote (text : jstr)
| SwitchSampleData (checked : bool)
| SwitchCompare (checked : bool)
| ClickTransform (env : Collaborators)
| ClickTryAgain (env : Collaborators)
| ClickDownload (fetch : JsVal -> Completion Response).

(** The values the view is computed from. *)
Definition displayImageUrl (p : Page) : JsVal :=
  if useSampleData p then JStr SAMPLE_IMAGE_URL
  else resultImageUrl (session p).

Definition displayDetails (p : Page) : option TransformationDetails :=
  if useSampleData p then Some SAMPLE_TRANSFORMATION_DETAILS
  else transformationDetails (session p).

(** [displayImageUrl !== null] *)
Definition hasResult (p : Page) : bool :=
  match displayImageUrl p with JNull => false | _ => true end.

Definition displayPreviewUrl (p : Page) : option jstr :=
  if useSampleData p then Some SAMPLE_PREVIEW_URL else previewUrl p.

Definition showComparisonToggle (p : Page) : bool :=
  hasResult p && (useSampleData p || nonempty (previewUrl p)).

(** [src={displayImageUrl || ''}] of the result image. *)
Definition result_src (p : Page) : JsVal :=
  js_or (displayImageUrl p) (JStr []).

(** [disabled] of the Transform button. *)
Definition transform_disabled (p : Page) : bool :=
  (match selectedFile (session p) with None => true | Some _ => false end
   && negb (useSampleData p))
  || isTransforming (session p).

(** The run a page's transform handler [h] makes from the state of the
    page, taken as a whole. *)
Definition transform_run (h : M unit) (env : Collaborators) (w : World)
  : World :=
  ({| session := session_after env h (session (fst w));
      previewUrl := previewUrl (fst w);
      showComparison := showComparison (fst w);
      isDragOver := isDragOver (fst w);
      useSampleData := useSampleData (fst w) |}, snd w).

(** The Try Again button: [setError(null); handleTransform()]. *)
Definition try_again (h : M unit) (env : Collaborators) (w : World)
  : World :=
  transform_run h env (in_session (setError None) w).

(** What an event does to the page and the browser, for a page whose
    transform handler is [h]. *)
Definition handle (h : M unit) (e : Event) (w : World) : World :=
  match e with
  | DragOver => handleDragOver w
  | DragLeave => handleDragLeave w
  | Drop files => handleDrop files w
  | InputChange files => handleInputChange files w
  | ClickRemove => handleRemoveFile w
  | TypeStyleNote text => in_session (setStyleNote text) w
  | SwitchSampleData checked => setUseSampleData checked w
  | SwitchCompare checked => setShowComparison checked w
  | ClickTransform env => transform_run h env w
  | ClickTryAgain env => try_again h env w
  | ClickDownload fetch => snd (handleDownload fetch w)
  end.

(** The collaborator calls an event makes. *)
Definition calls_at (h : M unit) (e : Event) (w : World) : list Call :=
  match e with
  | ClickTransform env => calls_of env h (session (fst w))
  | ClickTryAgain env =>
      calls_of env h (session (fst (in_session (setError None) w)))
  | _ => []
  end.

(** Whether the view of a state offers an event: the dropzone is there
    without a file and without sample data, the remove button with a
    file and without sample data, the compare switch and the Try Again
    and download buttons under the conditions of the view. *)
Definition offered (e : Event) (p : Page) : bool :=
  match e with
  | DragOver | DragLeave | Drop _ =>
      match selectedFile (session p) with None => true | Some _ => false end
      && negb (useSampleData p)
  | InputChange _ | TypeStyleNote _ | SwitchSampleData _ => true
  | ClickRemove =>
      negb (match selectedFile (session p) with
            | None => true
            | Some _ => false
            end && negb (useSampleData p))
      && negb (useSampleData p)
  | SwitchCompare _ => showComparisonToggle p
  | ClickTransform _ => negb (transform_disabled p)
  | ClickTryAgain _ =>
      match error (session p) with Some (_ :: _) => true | _ => false end
  | ClickDownload _ => negb (isTransforming (session p)) && hasResult p
  end.

(** The state after a sequence of events, the oldest first. *)
Definition after (h : M unit) (events : list Event) (w : World) : World :=
  fold_left (fun w e => handle h e w) events w.

End Handlers.

(* ===================================================================== *)
(** * What holds after any sequence of events *)
(* ===================================================================== *)

Lemma jstr_eqb_eq (a b : jstr) : jstr_eqb a b = true -> a = b.
Proof.
  revert b. induction a as [| x a IH]; intros [| y b]; cbn [jstr_eqb];
    try discriminate; [reflexivity |].
  intros H. apply andb_prop in H. destruct H as (Hx & Hab).
  apply N.eqb_eq in Hx. rewrite Hx, (IH b Hab). reflexivity.
Qed.

Lemma revoke_only (u : jstr) :
  filter (fun v => negb (jstr_eqb u v)) [u] = [].
Proof. cbn [filter]. rewrite jstr_eqb_refl. reflexivity. Qed.

Lemma revoke_last (u : jstr) (l : list jstr) :
  ~ In u l -> filter (fun v => negb (jstr_eqb u v)) (l ++ [u]) = l.
Proof.
  intros Hin. rewrite filter_app, revoke_only, app_nil_r.
  induction l as [| v l IH]; [reflexivity |]. cbn [filter].
  destruct (jstr_eqb u v) eqn:E.
  - exfalso. apply Hin. left. symmetry. apply jstr_eqb_eq. exact E.
  - cbn [negb]. f_equal. apply IH. intros H. apply Hin. right. exact H.
Qed.

Section PageFacts.
Context `{RT : JsRuntime}.
Variable object_url : Browser -> jstr.

(** The handler of either page. *)
Definition page_handler (h : M unit) : Prop :=
  h = Part000.handleTransform \/ h = AppPage.handleTransform.

(** The object URLs of the document are accounted for by the preview,
    the preview goes with the selection, and the selection is of an
    accepted type. *)
Definition tidy (w : World) : Prop :=
  objectURLs (snd w)
  = match previewUrl (fst w) with Some u => [u] | None => [] end
  /\ (forall u, previewUrl (fst w) = Some u -> u <> [])
  /\ (previewUrl (fst w) = None <-> selectedFile (session (fst w)) = None)
  /\ (forall f, selectedFile (session (fst w)) = Some f ->
                includes ACCEPTED_FORMATS (file_type f) = true).

Lemma tidy_initial : tidy initial.
Proof.
  unfold tidy, initial. cbn. repeat split; try discriminate.
Qed.

(** A change of the session that keeps the selection keeps [tidy]. *)
Lemma tidy_session (p : Page) (b : Browser) (s' : Session) :
  selectedFile s' = selectedFile (session p) ->
  tidy (p, b) ->
  tidy ({| session := s'; previewUrl := previewUrl p;
           showComparison := showComparison p;
           isDragOver := isDragOver p;
           useSampleData := useSampleData p |}, b).
Proof.
  intros Hsel (H1 & H2 & H3 & H4). unfold tidy. cbn [fst snd session previewUrl].
  rewrite Hsel. repeat split; try assumption; apply H3.
Qed.

Lemma Part000_keeps_selection (env : Collaborators) (s : Session) :
  selectedFile (session_after env Part000.handleTransform s)
  = selectedFile s.
Proof.
  unfold session_after. rewrite Part000_run. cbn [snd].
  destruct (selectedFile s) as [file |] eqn:Hsel; [| exact Hsel].
  destruct (upload_answer env file) as [uploadResult | e];
    [| exact Hsel].
  destruct (upload_refused uploadResult); [exact Hsel |].
  destruct (agent_answer env _ _ _) as [result | e]; [| exact Hsel].
  destruct (truthy (JObj result # "success")); [| exact Hsel].
  destruct (truthy (Part000.extractImageUrl result)); exact Hsel.
Qed.

Lemma AppPage_keeps_selection (env : Collaborators) (s : Session) :
  selectedFile (session_after env AppPage.handleTransform s)
  = selectedFile s.
Proof.
  unfold session_after. rewrite AppPage_run.
  destruct (selectedFile s) as [file |] eqn:Hsel; [| exact Hsel].
  destruct (upload_answer env file) as [uploadResult | e];
    [| exact Hsel].
  destruct (upload_refused uploadResult); [exact Hsel |].
  destruct (agent_answer env _ _ _) as [result | e]; [| exact Hsel].
  cbn [snd].
  destruct (truthy (JObj result # "success")); [| exact Hsel].
  unfold AppPage_outcome.
  destruct (nonempty_array _); [| exact Hsel].
  destruct (is_nullish _); exact Hsel.
Qed.

Lemma page_handler_keeps_selection (h : M unit) (env : Collaborators)
      (s : Session) :
  page_handler h -> selectedFile (session_after env h s) = selectedFile s.
Proof.
  intros [-> | ->];
    [apply Part000_keeps_selection | apply AppPage_keeps_selection].
Qed.

Hypothesis object_url_nonempty : forall b, object_url b <> [].

Lemma handleFileSelect_tidy (file : File) (w : World) :
  tidy w -> tidy (handleFileSelect object_url file w).
Proof.
  destruct w as [p b]. intros Ht. unfold handleFileSelect.
  destruct (includes ACCEPTED_FORMATS (file_type file)) eqn:Hacc;
    cbn [negb].
  - destruct Ht as (H1 & H2 & H3 & H4). cbn [fst snd] in *.
    set (w1 := match previewUrl p with
               | Some u => _
               | None => _
               end).
    assert (Hrev : objectURLs (snd w1) = [] /\ fst w1 = p).
    { unfold w1. destruct (previewUrl p) as [u |] eqn:Hp.
      - specialize (H2 u eq_refl). destruct u as [| c u]; [contradiction |].
        cbn [nonempty]. unfold URL_revokeObjectURL. cbn [fst snd objectURLs].
        rewrite H1, revoke_only. split; reflexivity.
      - split; [exact H1 | reflexivity]. }
    destruct Hrev as (Hrev1 & Hrev2). clearbody w1.
    destruct w1 as [p1 b1]. cbn [fst snd] in Hrev1, Hrev2. subst p1.
    unfold tidy. cbn. rewrite Hrev1. cbn.
    repeat split; try discriminate.
    + intros u Hu. injection Hu as <-. apply object_url_nonempty.
    + intros f Hf. injection Hf as <-. exact Hacc.
  - apply (@tidy_session p b); [reflexivity | exact Ht].
Qed.

Lemma handleRemoveFile_tidy (w : World) :
  tidy w -> tidy (handleRemoveFile w).
Proof.
  destruct w as [p b]. intros (H1 & H2 & H3 & H4). cbn [fst snd] in *.
  unfold handleRemoveFile. cbn [fst snd].
  set (w1 := match previewUrl p with
             | Some u => _
             | None => _
             end).
  assert (Hrev : objectURLs (snd w1) = []).
  { unfold w1. destruct (previewUrl p) as [u |] eqn:Hp; [| exact H1].
    specialize (H2 u eq_refl). destruct u as [| c u]; [contradiction |].
    cbn [nonempty]. unfold URL_revokeObjectURL. cbn [fst snd objectURLs].
    rewrite H1, revoke_only. reflexivity. }
  clearbody w1. destruct w1 as [p1 b1]. cbn [snd] in Hrev.
  unfold tidy. cbn. rewrite Hrev. repeat split; discriminate.
Qed.

Hypothesis object_url_fresh : forall b, ~ In (object_url b) (objectURLs b).

Lemma handleDownload_world (fetch : JsVal -> Completion Response)
      (w : World) :
  fst (snd (handleDownload object_url fetch w)) = fst w
  /\ objectURLs (snd (snd (handleDownload object_url fetch w)))
     = objectURLs (snd w)
  /\ fileInput (snd (snd (handleDownload object_url fetch w)))
     = fileInput (snd w).
Proof.
  unfold handleDownload.
  destruct (negb (truthy (download_url (fst w)))); [repeat split |].
  destruct (fetch (download_url (fst w))) as [[[blob | e]] | e];
    try (repeat split; reflexivity).
  cbn. rewrite revoke_last by apply object_url_fresh.
  repeat split; reflexivity.
Qed.

Lemma handle_tidy (h : M unit) (e : Event) (w : World) :
  page_handler h -> tidy w -> tidy (handle object_url h e w).
Proof.
  intros Hh Ht. destruct e; cbn [handle].
  - destruct w as [p b]. exact Ht.
  - destruct w as [p b]. exact Ht.
  - unfold handleDrop. destruct files as [| file files].
    + destruct w as [p b]. exact Ht.
    + apply handleFileSelect_tidy. destruct w as [p b]. exact Ht.
  - unfold handleInputChange. destruct files as [[| file files] |];
      try exact Ht.
    apply handleFileSelect_tidy. exact Ht.
  - apply handleRemoveFile_tidy. exact Ht.
  - destruct w as [p b]. apply (@tidy_session p b); [reflexivity | exact Ht].
  - destruct w as [p b]. exact Ht.
  - destruct w as [p b]. exact Ht.
  - destruct w as [p b]. apply (@tidy_session p b); [| exact Ht].
    apply page_handler_keeps_selection. exact Hh.
  - destruct w as [p b]. unfold try_again, transform_run, in_session.
    cbn [fst snd session previewUrl showComparison isDragOver useSampleData].
    apply (@tidy_session p b); [| exact Ht].
    rewrite page_handler_keeps_selection by exact Hh. reflexivity.
  - destruct (handleDownload_world fetch w) as (Hp & Hu & _).
    destruct Ht as (H1 & H2 & H3 & H4). unfold tidy.
    rewrite Hp, Hu. repeat split; try assumption; apply H3.
Qed.

Lemma after_tidy (h : M unit) (events : list Event) (w : World) :
  page_handler h -> tidy w -> tidy (after object_url h events w).
Proof.
  intros Hh. revert w. unfold after.
  induction events as [| e events IH]; intros w Ht; cbn [fold_left];
    [exact Ht |].
  apply IH. apply handle_tidy; assumption.
Qed.

End PageFacts.

Section PageTheorems.
Context `{RT : JsRuntime}.
Variable object_url : Browser -> jstr.

(** X16.  After any sequence of events on either page, each handler
    having run to its end before the next event, the object URLs the
    document holds are exactly the preview of the selected file: one
    URL while a file is selected, none otherwise.  Replacing and
    removing a file revoke the old preview, a download revokes the URL
    it made.  It takes a browser whose [URL.createObjectURL] answers
    with a non-empty URL that is not in use. *)
Theorem object_urls_accounted (h : M unit) (events : list Event) :
  page_handler h ->
  (forall b, object_url b <> []) ->
  (forall b, ~ In (object_url b) (objectURLs b)) ->
  objectURLs (snd (after object_url h events initial))
  = match previewUrl (fst (after object_url h events initial)) with
    | Some u => [u]
    | None => []
    end
  /\ (previewUrl (fst (after object_url h events initial)) = None
      <-> selectedFile (session (fst (after object_url h events initial)))
          = None).
Proof.
  intros Hh Hne Hfresh.
  destruct (@after_tidy RT object_url Hne Hfresh h events initial Hh
              tidy_initial) as (H1 & _ & H3 & _).
  split; assumption.
Qed.

Lemma handleDownload_page (fetch : JsVal -> Completion Response)
      (w : World) :
  fst (snd (handleDownload object_url fetch w)) = fst w.
Proof.
  unfold handleDownload.
  destruct (negb (truthy (download_url (fst w)))); [reflexivity |].
  destruct (fetch (download_url (fst w))) as [[[blob | e]] | e];
    reflexivity.
Qed.

(** The file a run uploads is the selected one. *)
Lemma upload_call_selected (h : M unit) (env : Collaborators) (s : Session)
      (file : File) :
  page_handler h ->
  In (UploadCall file) (calls_of env h s) -> selectedFile s = Some file.
Proof.
  intros [-> | ->].
  - rewrite Part000_calls.
    destruct (selectedFile s) as [f |]; [| intros []].
    intros [H | H]; [injection H as ->; reflexivity |]. exfalso.
    destruct (upload_answer env f) as [uploadResult | e]; [| exact H].
    destruct (upload_refused uploadResult); [exact H |].
    destruct H as [H | H]; [discriminate |].
    destruct (agent_answer env _ _ _) as [result | e]; [| exact H].
    destruct (truthy (JObj result # "success")
              && negb (truthy (Part000.extractImageUrl result)))%bool;
      [| exact H].
    destruct H as [H | []]. discriminate.
  - unfold calls_of. rewrite AppPage_run.
    destruct (selectedFile s) as [f |]; [| intros []].
    destruct (upload_answer env f) as [uploadResult | e].
    + destruct (upload_refused uploadResult).
      * intros [H | []]. injection H as ->. reflexivity.
      * destruct (agent_answer env _ _ _) as [result | e];
          (intros [H | [H | []]];
           [injection H as ->; reflexivity | discriminate]).
    + intros [H | []]. injection H as ->. reflexivity.
Qed.

(** Only a file of an accepted type becomes the selection. *)
Lemma handleFileSelect_selection (file : File) (w : World) (f : File) :
  selectedFile (session (fst (handleFileSelect object_url file w)))
  = Some f ->
  selectedFile (session (fst w)) = Some f
  \/ includes ACCEPTED_FORMATS (file_type f) = true.
Proof.
  unfold handleFileSelect.
  destruct (includes ACCEPTED_FORMATS (file_type file)) eqn:Hacc;
    cbn [negb].
  - set (w1 := match previewUrl (fst w) with
               | Some u => _
               | None => _
               end).
    destruct w1 as [p1 b1]. cbn. intros H. injection H as <-.
    right. exact Hacc.
  - cbn. intros H. left. exact H.
Qed.

Lemma handle_selection (h : M unit) (e : Event) (w : World) (f : File) :
  page_handler h ->
  selectedFile (session (fst (handle object_url h e w))) = Some f ->
  selectedFile (session (fst w)) = Some f
  \/ includes ACCEPTED_FORMATS (file_type f) = true.
Proof.
  intros Hh. destruct e; cbn [handle].
  - intros H. left. exact H.
  - intros H. left. exact H.
  - unfold handleDrop. destruct files as [| file files].
    + intros H. left. exact H.
    + intros H. apply handleFileSelect_selection in H. exact H.
  - unfold handleInputChange. destruct files as [[| file files] |];
      try (intros H; left; exact H).
    apply handleFileSelect_selection.
  - unfold handleRemoveFile.
    set (w1 := match previewUrl (fst w) with
               | Some u => _
               | None => _
               end).
    destruct w1 as [p1 b1]. cbn. discriminate.
  - intros H. left. exact H.
  - intros H. left. exact H.
  - intros H. left. exact H.
  - cbn. rewrite page_handler_keeps_selection by exact Hh.
    intros H. left. exact H.
  - cbn. rewrite page_handler_keeps_selection by exact Hh.
    intros H. left. exact H.
  - rewrite handleDownload_page. intros H. left. exact H.
Qed.

Lemma after_selection (h : M unit) (events : list Event) (w : World) :
  page_handler h ->
  (forall f, selectedFile (session (fst w)) = Some f ->
             includes ACCEPTED_FORMATS (file_type f) = true) ->
  forall f,
    selectedFile (session (fst (after object_url h events w))) = Some f ->
    includes ACCEPTED_FORMATS (file_type f) = true.
Proof.
  intros Hh. revert w. unfold after.
  induction events as [| e events IH]; intros w Hw; cbn [fold_left];
    [exact Hw |].
  apply IH. intros f Hf.
  destruct (@handle_selection h e w f Hh Hf) as [H | H];
    [apply Hw; exact H | exact H].
Qed.

(** X17.  Whatever the events before, each handler having run to its
    end before the next event, the file a click on Transform or Try
    Again uploads is of one of the accepted types [image/png],
    [image/jpeg], [image/webp]: a file of another type never becomes
    the selection, so it never reaches the upload. *)
Theorem uploads_carry_accepted_files (h : M unit) (events : list Event)
        (e : Event) (file : File) :
  page_handler h ->
  In (UploadCall file)
     (calls_at h e (after object_url h events initial)) ->
  includes ACCEPTED_FORMATS (file_type file) = true.
Proof.
  intros Hh Hin.
  apply (@after_selection h events initial Hh); [discriminate |].
  destruct e; cbn [calls_at] in Hin; try contradiction.
  - apply (@upload_call_selected h env _ file Hh Hin).
  - apply (@upload_call_selected h env _ file Hh) in Hin.
    exact Hin.
Qed.

(** Without a file selected a run is nothing at all. *)
Lemma no_file_no_run (h : M unit) (env : Collaborators) (s : Session) :
  page_handler h -> selectedFile s = None ->
  run env (h s) = ([], (Normal tt, s)).
Proof.
  intros [-> | ->] Hsel.
  - unfold Part000.handleTransform. rewrite Hsel. reflexivity.
  - unfold AppPage.handleTransform. rewrite Hsel. reflexivity.
Qed.

(** The session an accepted or refused file leaves. *)
Lemma handleFileSelect_session (file : File) (w : World) :
  session (fst (handleFileSelect object_url file w))
  = if includes ACCEPTED_FORMATS (file_type file)
    then {| selectedFile := Some file;
            styleNote := styleNote (session (fst w));
            isTransforming := isTransforming (session (fst w));
            error := None; resultImageUrl := JNull;
            transformationDetails := None;
            statusMessage := statusMessage (session (fst w)) |}
    else {| selectedFile := selectedFile (session (fst w));
            styleNote := styleNote (session (fst w));
            isTransforming := isTransforming (session (fst w));
            error := Some (lit "Please upload a PNG, JPG, or WEBP image.");
            resultImageUrl := resultImageUrl (session (fst w));
            transformationDetails :=
              transformationDetails (session (fst w));
            statusMessage := statusMessage (session (fst w)) |}.
Proof.
  unfold handleFileSelect.
  destruct (includes ACCEPTED_FORMATS (file_type file)); cbn [negb];
    [| reflexivity].
  assert (Hw1 : session (fst match previewUrl (fst w) with
                             | Some u => if nonempty (Some u)
                                         then URL_revokeObjectURL u w else w
                             | None => w
                             end) = session (fst w)).
  { destruct (previewUrl (fst w)) as [u |]; [| reflexivity].
    destruct (nonempty (Some u)); reflexivity. }
  set (w1 := match previewUrl (fst w) with
             | Some u => _
             | None => _
             end) in *.
  clearbody w1. destruct w1 as [p1 b1]. cbn in Hw1 |- *.
  rewrite Hw1. reflexivity.
Qed.

Lemma handleRemoveFile_session (w : World) :
  session (fst (handleRemoveFile w))
  = {| selectedFile := None;
       styleNote := styleNote (session (fst w));
       isTransforming := isTransforming (session (fst w));
       error := None; resultImageUrl := JNull;
       transformationDetails := None;
       statusMessage := statusMessage (session (fst w)) |}.
Proof.
  unfold handleRemoveFile.
  assert (Hw1 : session (fst match previewUrl (fst w) with
                             | Some u => if nonempty (Some u)
                                         then URL_revokeObjectURL u w else w
                             | None => w
                             end) = session (fst w)).
  { destruct (previewUrl (fst w)) as [u |]; [| reflexivity].
    destruct (nonempty (Some u)); reflexivity. }
  set (w1 := match previewUrl (fst w) with
             | Some u => _
             | None => _
             end) in *.
  clearbody w1. destruct w1 as [p1 b1]. cbn in Hw1 |- *.
  rewrite Hw1. reflexivity.
Qed.

(** A result is [null] or truthy, and a result that is not [null] has a
    file selected. *)
Definition result_sound (s : Session) : Prop :=
  resultImageUrl s = JNull
  \/ (truthy (resultImageUrl s) = true /\ selectedFile s <> None).


Lemma Part000_result_sound (env : Collaborators) (s : Session) :
  result_sound s ->
  result_sound (session_after env Part000.handleTransform s).
Proof.
  intros Hs. unfold session_after. rewrite Part000_run. cbn [snd].
  destruct (selectedFile s) as [file |] eqn:Hsel; [| exact Hs].
  assert (Hfail : forall m, result_sound (failed_with s m))
    by (intros m; left; reflexivity).
  destruct (upload_answer env file) as [uploadResult | e]; [| apply Hfail].
  destruct (upload_refused uploadResult); [apply Hfail |].
  destruct (agent_answer env _ _ _) as [result | e]; [| apply Hfail].
  destruct (truthy (JObj result # "success")); [| apply Hfail].
  destruct (truthy (Part000.extractImageUrl result)) eqn:E; [| apply Hfail].
  right. cbn. split; [exact E |]. rewrite Hsel. discriminate.
Qed.


Lemma handle_result_sound (e : Event) (w : World) :
  result_sound (session (fst w)) ->
  result_sound
    (session (fst (handle object_url Part000.handleTransform e w))).
Proof.
  intros Hs. destruct e; cbn [handle]; try exact Hs.
  - unfold handleDrop. destruct files as [| file files]; [exact Hs |].
    rewrite handleFileSelect_session.
    destruct (includes _ _); [left; reflexivity | exact Hs].
  - unfold handleInputChange. destruct files as [[| file files] |];
      try exact Hs.
    rewrite handleFileSelect_session.
    destruct (includes _ _); [left; reflexivity | exact Hs].
  - rewrite handleRemoveFile_session. left. reflexivity.
  - apply Part000_result_sound. exact Hs.
  - apply Part000_result_sound. exact Hs.
  - rewrite handleDownload_page. exact Hs.
Qed.


Lemma after_result_sound (events : list Event) (w : World) :
  result_sound (session (fst w)) ->
  result_sound
    (session (fst (after object_url Part000.handleTransform events w))).
Proof.
  revert w. unfold after.
  induction events as [| e events IH]; intros w Hs; cbn [fold_left];
    [exact Hs |].
  apply IH. apply handle_result_sound. exact Hs.
Qed.


Lemma SAMPLE_IMAGE_URL_truthy : truthy (JStr SAMPLE_IMAGE_URL) = true.
Proof. reflexivity. Qed.

(** X18.  On the page of [part_000], whatever the events before (each
    handler having run to its end before the next event), whenever the
    result panel is shown ([hasResult]) its image has a truthy source,
    the reference published or the sample image, never the empty string
    of [displayImageUrl || ''], and a click on Download fetches that
    reference. *)
Theorem result_panel_shows_image (events : list Event)
        (fetch : JsVal -> Completion Response) :
  hasResult
    (fst (after object_url Part000.handleTransform events initial)) = true ->
  truthy (displayImageUrl
            (fst (after object_url Part000.handleTransform events initial)))
  = true
  /\ result_src
       (fst (after object_url Part000.handleTransform events initial))
     = displayImageUrl
         (fst (after object_url Part000.handleTransform events initial))
  /\ exists rest,
      fst (handleDownload object_url fetch
             (after object_url Part000.handleTransform events initial))
      = FetchCall
          (displayImageUrl
             (fst (after object_url Part000.handleTransform events
                     initial)))
          :: rest.
Proof.
  pose proof (@after_result_sound events initial (or_introl eq_refl))
    as Hs.
  set (w := after object_url Part000.handleTransform events initial) in *.
  intros Hhas.
  assert (Ht : truthy (displayImageUrl (fst w)) = true).
  { unfold hasResult in Hhas. unfold displayImageUrl in *.
    destruct (useSampleData (fst w)); [reflexivity |].
    destruct Hs as [Hs | (Hs & _)]; [| exact Hs].
    rewrite Hs in Hhas. discriminate. }
  split; [exact Ht |]. split.
  - unfold result_src, js_or. rewrite Ht. reflexivity.
  - unfold handleDownload.
    change (download_url (fst w)) with (displayImageUrl (fst w)).
    rewrite Ht. cbn [negb].
    destruct (fetch (displayImageUrl (fst w))) as [[[blob | e]] | e];
      eexists; reflexivity.
Qed.


(** X20.  On the page of [page.tsx] the result panel can come up with
    nothing to show.  When a run reaches the extraction step and element
    0 of [module_outputs.artifact_files] has a falsy [file_url] that is
    not [null] ([undefined] when the field is missing, an empty string),
    then after the click, with sample data off, the panel is shown, the
    source of its image is the empty string, and the Download button is
    offered and does nothing. *)
Theorem AppPage_result_panel_can_be_empty (env : Collaborators) (w : World)
        (result : props) (f0 : JsVal) (fs : list JsVal)
        (fetch : JsVal -> Completion Response) :
  useSampleData (fst w) = false ->
  reaches_extraction env (session (fst w)) result ->
  JObj result # "module_outputs" # "artifact_files" = JArr (f0 :: fs) ->
  is_nullish f0 = false ->
  truthy (f0 # "file_url") = false ->
  f0 # "file_url" <> JNull ->
  hasResult
    (fst (handle object_url AppPage.handleTransform (ClickTransform env) w))
  = true
  /\ result_src
       (fst (handle object_url AppPage.handleTransform
               (ClickTransform env) w))
     = JStr []
  /\ offered (ClickDownload fetch)
       (fst (handle object_url AppPage.handleTransform
               (ClickTransform env) w))
     = true
  /\ handleDownload object_url fetch
       (handle object_url AppPage.handleTransform (ClickTransform env) w)
     = ([], handle object_url AppPage.handleTransform
              (ClickTransform env) w).
Proof.
  intros Hsample Hreach Hfiles Hnn Hfalsy Hnull.
  cbn [handle]. unfold transform_run.
  rewrite (AppPage_extraction Hreach). cbn zeta. rewrite Hfiles.
  cbn [nonempty_array Array_isArray elements length Nat.ltb Nat.leb andb
       elem0 nth].
  rewrite Hnn.
  assert (Hhas : hasResult
            (fst ({| session :=
                       published (session (fst w)) (f0 # "file_url")
                         (AppPage_details result);
                     previewUrl := previewUrl (fst w);
                     showComparison := showComparison (fst w);
                     isDragOver := isDragOver (fst w);
                     useSampleData := useSampleData (fst w) |}, snd w))
            = true).
  { unfold hasResult, displayImageUrl. cbn. rewrite Hsample.
    destruct (f0 # "file_url"); try reflexivity. contradiction Hnull.
    reflexivity. }
  split; [exact Hhas |]. split; [| split].
  - unfold result_src, displayImageUrl, js_or. cbn. rewrite Hsample.
    rewrite Hfalsy. reflexivity.
  - unfold offered. rewrite Hhas. reflexivity.
  - unfold handleDownload, download_url. cbn. rewrite Hsample.
    rewrite Hfalsy. reflexivity.
Qed.

(** X21.  On either page a click on Try Again with a file selected is a
    click on Transform: the same calls and the same state after, since
    a run clears the error itself.  Without a file a click on Transform
    changes nothing and calls nobody, also where sample data has the
    button enabled, and a click on Try Again only clears the error. *)
Theorem try_again_is_transform (h : M unit) (env : Collaborators)
        (w : World) :
  page_handler h ->
  (selectedFile (session (fst w)) <> None ->
   handle object_url h (ClickTryAgain env) w
   = handle object_url h (ClickTransform env) w
   /\ calls_at h (ClickTryAgain env) w = calls_at h (ClickTransform env) w)
  /\ (selectedFile (session (fst w)) = None ->
      handle object_url h (ClickTransform env) w = w
      /\ calls_at h (ClickTransform env) w = []
      /\ handle object_url h (ClickTryAgain env) w
         = in_session (setError None) w
      /\ calls_at h (ClickTryAgain env) w = []).
Proof.
  intros Hh. split.
  - intros Hsel. cbn [handle calls_at]. unfold try_again, transform_run.
    destruct w as [p b]. cbn [fst snd in_session session previewUrl
                              showComparison isDragOver useSampleData].
    assert (Hrun : run env (h (set_by (setError None) (session p)))
                   = run env (h (session p))).
    { destruct (selectedFile (session p)) as [file |] eqn:Hf;
        [| contradiction Hsel; reflexivity].
      destruct Hh as [-> | ->].
      - unfold Part000.handleTransform. cbn. rewrite Hf. reflexivity.
      - unfold AppPage.handleTransform. cbn. rewrite Hf. reflexivity. }
    unfold session_after, calls_of. rewrite Hrun. split; reflexivity.
  - intros Hsel. cbn [handle calls_at]. unfold try_again, transform_run.
    destruct w as [[s pv sc dr sd] b].
    cbn [fst snd in_session session previewUrl showComparison isDragOver
         useSampleData] in *.
    unfold session_after, calls_of.
    rewrite (@no_file_no_run h env s Hh Hsel).
    rewrite (@no_file_no_run h env (set_by (setError None) s) Hh Hsel).
    repeat split.
Qed.

Definition fetch_gives_blob (fetch : JsVal -> Completion Response)
           (url : JsVal) : Prop :=
  exists blob, fetch url = Normal (response_with (Normal blob)).

(** X22.  A click on Download leaves the page and the browser as they
    were: the object URL made for the blob is revoked again.  It does
    nothing for a falsy reference; otherwise it fetches the reference
    once and then either clicks a link to the blob, named
    [lyzr-styled-image.png], or, if the fetch or the reading of the body
    failed, opens the reference itself in a new tab; never both.  With
    sample data on the reference is the sample image.  It takes a
    browser whose [URL.createObjectURL] answers with a URL that is not
    in use. *)
Theorem download_outcome (fetch : JsVal -> Completion Response)
        (w : World) :
  (forall b, ~ In (object_url b) (objectURLs b)) ->
  snd (handleDownload object_url fetch w) = w
  /\ (useSampleData (fst w) = true ->
      download_url (fst w) = JStr SAMPLE_IMAGE_URL)
  /\ (truthy (download_url (fst w)) = false ->
      fst (handleDownload object_url fetch w) = [])
  /\ (truthy (download_url (fst w)) = true ->
      exists rest,
        fst (handleDownload object_url fetch w)
        = FetchCall (download_url (fst w)) :: rest
        /\ forall u, ~ In (FetchCall u) rest)
  /\ (forall href name,
         In (ClickLink href name) (fst (handleDownload object_url fetch w))
         <-> truthy (download_url (fst w)) = true
             /\ fetch_gives_blob fetch (download_url (fst w))
             /\ href = object_url (snd w)
             /\ name = lit "lyzr-styled-image.png")
  /\ (forall u target,
         In (WindowOpen u target) (fst (handleDownload object_url fetch w))
         <-> truthy (download_url (fst w)) = true
             /\ ~ fetch_gives_blob fetch (download_url (fst w))
             /\ u = download_url (fst w)
             /\ target = lit "_blank").
Proof.
  intros Hfresh. split; [| split; [| split; [| split; [| split]]]].
  - destruct (@handleDownload_world object_url Hfresh fetch w)
      as (Hp & Hu & Hi).
    destruct (snd (handleDownload object_url fetch w)) as [p' b'].
    destruct w as [p b]. cbn [fst snd] in *. subst p'.
    destruct b' as [us' fi'], b as [us fi]. cbn in Hu, Hi. subst.
    reflexivity.
  - unfold download_url. intros ->. reflexivity.
  - unfold handleDownload. intros ->. reflexivity.
  - unfold handleDownload. intros ->. cbn [negb].
    destruct (fetch (download_url (fst w))) as [[[blob | e]] | e];
      eexists; (split; [reflexivity |]); intros u Hin; cbn in Hin;
      repeat (destruct Hin as [Hin | Hin]; [discriminate |]); exact Hin.
  - intros href name. unfold handleDownload, fetch_gives_blob.
    destruct (truthy (download_url (fst w))); cbn [negb].
    + destruct (fetch (download_url (fst w))) as [[[blob | e]] | e].
      * cbn. split.
        -- intros Hin.
           repeat (destruct Hin as [Hin | Hin]; try discriminate);
             try contradiction.
           injection Hin as <- <-.
           split; [reflexivity |]. split; [exists blob; reflexivity |].
           split; reflexivity.
        -- intros (_ & _ & -> & ->). right; right; right; left.
           reflexivity.
      * split.
        -- intros Hin. cbn in Hin.
           repeat (destruct Hin as [Hin | Hin]; try discriminate).
           contradiction.
        -- intros (_ & (blob & Hb) & _). discriminate.
      * split.
        -- intros Hin. cbn in Hin.
           repeat (destruct Hin as [Hin | Hin]; try discriminate).
           contradiction.
        -- intros (_ & (blob & Hb) & _). discriminate.
    + split; [intros [] | intros (H & _); discriminate].
  - intros u target. unfold handleDownload, fetch_gives_blob.
    destruct (truthy (download_url (fst w))); cbn [negb].
    + destruct (fetch (download_url (fst w))) as [[[blob | e]] | e].
      * cbn. split.
        -- intros Hin.
           repeat (destruct Hin as [Hin | Hin]; try discriminate).
           contradiction.
        -- intros (_ & Hno & _). exfalso. apply Hno. exists blob.
           reflexivity.
      * split.
        -- intros Hin. cbn in Hin.
           destruct Hin as [Hin | [Hin | []]]; [discriminate |].
           injection Hin as <- <-.
           split; [reflexivity |].
           split; [intros (blob & Hb); discriminate |].
           split; reflexivity.
        -- intros (_ & _ & -> & ->). right; left. reflexivity.
      * split.
        -- intros Hin. cbn in Hin.
           destruct Hin as [Hin | [Hin | []]]; [discriminate |].
           injection Hin as <- <-.
           split; [reflexivity |].
           split; [intros (blob & Hb); discriminate |].
           split; reflexivity.
        -- intros (_ & _ & -> & ->). right; left. reflexivity.
    + split; [intros [] | intros (H & _); discriminate].
Qed.

End PageTheorems.

(* ===================================================================== *)
(** * Events on a concrete page *)
(* ===================================================================== *)

(** A browser that names an object URL after the ones in use. *)
Definition blob_url (b : Browser) : jstr :=
  lit "blob:" ++ concat (objectURLs b).

Lemma blob_url_nonempty (b : Browser) : blob_url b <> [].
Proof. unfold blob_url. apply app_nonempty_l. discriminate. Qed.

Lemma concat_member_length (u : jstr) (l : list jstr) :
  In u l -> length u <= length (concat l).
Proof.
  induction l as [| v l IH]; [intros [] |].
  cbn [concat]. rewrite length_app. intros [-> | H]; [lia |].
  specialize (IH H). lia.
Qed.

Lemma blob_url_fresh (b : Browser) : ~ In (blob_url b) (objectURLs b).
Proof.
  intros H. apply concat_member_length in H. unfold blob_url in H.
  rewrite length_app in H. change (length (lit "blob:")) with 5 in H. lia.
Qed.

Definition fetch_ok : JsVal -> Completion Response :=
  fun _ => Normal (response_with (Normal {| blob_size := 2048 |})).

Definition fetch_blocked : JsVal -> Completion Response :=
  fun _ => Throw (ErrorObject (lit "Failed to fetch")).

Definition a_pdf : File := {| file_type := lit "application/pdf" |}.

Definition a_webp : File := {| file_type := lit "image/webp" |}.

(** A file chosen, transformed, a refused file dropped, the result
    downloaded, another file chosen. *)
Definition a_visit : list Event :=
  [InputChange (Some [a_file]); TypeStyleNote (lit "neon");
   ClickTransform artifact_answer; Drop [a_pdf]; ClickDownload fetch_ok;
   InputChange (Some [a_webp])].

Lemma object_urls_accounted_witness :
  objectURLs (snd (after blob_url Part000.handleTransform a_visit initial))
  = match
      previewUrl (fst (after blob_url Part000.handleTransform a_visit
                         initial))
    with
    | Some u => [u]
    | None => []
    end
  /\ (previewUrl (fst (after blob_url Part000.handleTransform a_visit
                         initial)) = None
      <-> selectedFile
            (session (fst (after blob_url Part000.handleTransform a_visit
                             initial))) = None).
Proof.
  exact (@object_urls_accounted Reference.runtime blob_url
           Part000.handleTransform a_visit (or_introl eq_refl)
           blob_url_nonempty blob_url_fresh).
Defined.

Lemma uploads_carry_accepted_files_witness :
  includes ACCEPTED_FORMATS (file_type a_webp) = true.
Proof.
  apply (@uploads_carry_accepted_files Reference.runtime blob_url
           Part000.handleTransform a_visit (ClickTransform artifact_answer)
           a_webp (or_introl eq_refl)).
  vm_compute. left. reflexivity.
Defined.

Definition a_result : list Event :=
  [InputChange (Some [a_file]); ClickTransform artifact_answer].

Lemma result_panel_shows_image_witness :
  result_src (fst (after blob_url Part000.handleTransform a_result initial))
  = JStr (lit "https://cdn/1.png").
Proof.
  pose proof (@result_panel_shows_image Reference.runtime blob_url a_result
                fetch_ok ltac:(computed)) as (_ & H & _).
  etransitivity; [exact H | computed].
Defined.


Definition a_selection : World :=
  after blob_url AppPage.handleTransform [InputChange (Some [a_file])]
    initial.

Lemma bare_artifact_reached_after_selection :
  reaches_extraction bare_artifact_answer (session (fst a_selection))
    bare_artifact.
Proof.
  exists a_file, accepted_upload. repeat split; computed.
Qed.

Lemma AppPage_result_panel_can_be_empty_witness :
  hasResult
    (fst (handle blob_url AppPage.handleTransform
            (ClickTransform bare_artifact_answer) a_selection)) = true
  /\ result_src
       (fst (handle blob_url AppPage.handleTransform
               (ClickTransform bare_artifact_answer) a_selection))
     = JStr [].
Proof.
  assert (Hnull : JObj [(lit "name", JStr (lit "a.png"))] # "file_url"
                  <> JNull) by (vm_compute; discriminate).
  pose proof (@AppPage_result_panel_can_be_empty Reference.runtime blob_url
                bare_artifact_answer a_selection bare_artifact
                (JObj [(lit "name", JStr (lit "a.png"))]) [] fetch_ok
                ltac:(computed) bare_artifact_reached_after_selection
                ltac:(computed) ltac:(computed) ltac:(computed) Hnull)
    as (H1 & H2 & _).
  split; [exact H1 | exact H2].
Defined.

Lemma a_selection_has_file :
  selectedFile (session (fst a_selection)) <> None.
Proof. vm_compute. discriminate. Qed.

Lemma try_again_is_transform_witness :
  handle blob_url AppPage.handleTransform (ClickTryAgain refusing_agent)
    a_selection
  = handle blob_url AppPage.handleTransform (ClickTransform refusing_agent)
      a_selection.
Proof.
  pose proof (@try_again_is_transform Reference.runtime blob_url
                AppPage.handleTransform refusing_agent a_selection
                (or_intror eq_refl)) as (H & _).
  exact (proj1 (H a_selection_has_file)).
Defined.

Lemma download_outcome_witness :
  snd (handleDownload blob_url fetch_blocked
         (after blob_url Part000.handleTransform a_result initial))
  = after blob_url Part000.handleTransform a_result initial.
Proof.
  exact (proj1 (@download_outcome blob_url fetch_blocked
                  (after blob_url Part000.handleTransform a_result initial)
                  blob_url_fresh)).
Defined.

(* ===================================================================== *)
(** * The markdown renderer *)
(* ===================================================================== *)

(** Both pages render the details with the same two functions. *)

(** [.] of a pattern without the [s] flag: any code unit but a line
    terminator. *)
Definition is_line_terminator (c : N) : bool :=
  N.eqb c 10 || N.eqb c 13 || N.eqb c 8232 || N.eqb c 8233.

Definition dot (c : N) : bool := negb (is_line_terminator c).

(** RepeatMatcher of ECMA-262 for a lazy, unbounded quantifier whose
    lower bound is used up: the continuation [c] is tried first, then
    another round of [m], refused when it eats nothing. *)
Fixpoint lazy_repeat_matcher {A : Type}
         (m : jstr -> (jstr -> option A) -> option A)
         (c : jstr -> option A) (fuel : nat) (y : jstr) {struct fuel}
  : option A :=
  match c y with
  | Some a => Some a
  | None =>
      match fuel with
      | O => None
      | S fuel' =>
          m y (fun z => if Nat.ltb (length z) (length y)
                        then lazy_repeat_matcher m c fuel' z else None)
      end
  end.

(** The two stars that open and close a bold span. *)
Definition STARS : regex := Seq (Chr 42) (Chr 42).

(** One attempt of the pattern of [formatInline], two stars, a lazy run
    of [.] in a capture group, two stars, at the front of [x]: the text
    captured and what follows the match. *)
Definition bold_here (x : jstr) : option (jstr * jstr) :=
  matcher false STARS x
    (fun y =>
       lazy_repeat_matcher (matcher false (Class dot))
         (fun z =>
            matcher false STARS z
              (fun rest => Some (firstn (length y - length z) y, rest)))
         (length y) y).

(** The loop of [RegExp.prototype[Symbol.split]] for that pattern:
    [pending] is the text since the last split, reversed, [rest] the
    text from the index of the next attempt on.  A match ends the
    pending part and adds its capture; a match that ends where the last
    split ended is passed over. *)
Fixpoint split_loop (fuel : nat) (pending rest : jstr) {struct fuel}
  : list jstr :=
  match fuel with
  | O => [rev pending ++ rest]
  | S fuel' =>
      match rest with
      | [] => [rev pending]
      | c :: rest' =>
          match bold_here rest with
          | Some (capture, after) =>
              if Nat.eqb (length after) (length pending + length rest)
              then split_loop fuel' (c :: pending) rest'
              else rev pending :: capture :: split_loop fuel' [] after
          | None => split_loop fuel' (c :: pending) rest'
          end
      end
  end.

(** [text.split(re)] for the pattern of [formatInline]. *)
Definition split_bold (text : jstr) : list jstr :=
  match text with
  | [] => match bold_here [] with Some _ => [] | None => [[]] end
  | _ :: _ => split_loop (S (length text)) [] text
  end.

(** What [formatInline] returns: the text itself, or an array of
    strings and [strong] elements. *)
Inductive Inline : Type :=
| Plain (text : jstr)
| Strong (text : jstr).

Inductive Formatted : Type :=
| AsText (text : jstr)
| AsParts (parts : list Inline).

(** [a.map((x, i) => f(x, i))], from index [i] on. *)
Fixpoint map_index {A B : Type} (f : A -> nat -> B) (l : list A) (i : nat)
  : list B :=
  match l with
  | [] => []
  | x :: l' => f x i :: map_index f l' (S i)
  end.

Definition formatInline (text : jstr) : Formatted :=
  let parts := split_bold text in
  if Nat.eqb (length parts) 1 then AsText text
  else
    AsParts
      (map_index
         (fun part i =>
            if Nat.eqb (i mod 2) 1 then Strong part else Plain part)
         parts 0).

(** [s.split(sep)] for a separator of one code unit; [current] is the
    part being read, reversed. *)
Fixpoint split_on (sep : N) (current s : jstr) : list jstr :=
  match s with
  | [] => [rev current]
  | c :: s' =>
      if N.eqb c sep then rev current :: split_on sep [] s'
      else split_on sep (c :: current) s'
  end.

(** [s.startsWith(prefix)] *)
Fixpoint startsWith (s prefix : jstr) {struct prefix} : bool :=
  match prefix with
  | [] => true
  | p :: prefix' =>
      match s with
      | c :: s' => N.eqb c p && startsWith s' prefix'
      | [] => false
      end
  end.

Definition is_digit (c : N) : bool := N.leb 48 c && N.leb c 57.

(** The pattern of a numbered item, one or more digits, a dot and a
    white space character, which its [^] allows at index 0 only. *)
Definition NUMBERED_RE : RegExp :=
  {| source := Seq (Plus (Class is_digit))
                 (Seq (Chr 46) (Class is_js_whitespace));
     flag_i := false |}.

(** The elements [renderMarkdown] makes of the lines. *)
Inductive Block : Type :=
| H4 (text : jstr)
| H3 (text : jstr)
| H2 (text : jstr)
| Bullet (content : Formatted)
| Numbered (content : Formatted)
| Spacer
| Paragraph (content : Formatted).

Definition render_line (line : jstr) : Block :=
  if startsWith line (lit "### ") then H4 (skipn 4 line)
  else if startsWith line (lit "## ") then H3 (skipn 3 line)
  else if startsWith line (lit "# ") then H2 (skipn 2 line)
  else if startsWith line (lit "- ") || startsWith line (lit "* ")
  then Bullet (formatInline (skipn 2 line))
  else
    match match_here NUMBERED_RE line with
    | Some marker => Numbered (formatInline (skipn (length marker) line))
    | None =>
        match trim line with
        | [] => Spacer
        | _ :: _ => Paragraph (formatInline line)
        end
    end.

(** [None] is the [null] returned for an empty text. *)
Definition renderMarkdown (text : jstr) : option (list Block) :=
  match text with
  | [] => None
  | _ :: _ => Some (map render_line (split_on 10 [] text))
  end.

(** [DetailRow].  Its [value] is declared a string; at run time it is
    whatever the details record holds.  Nothing is rendered for a falsy
    value; a truthy value that is not a string has no [split] to call,
    and the TypeError of [renderMarkdown] ends the rendering. *)
Inductive Row : Type :=
| NoRow
| RowOf (label : jstr) (content : option (list Block))
| RowThrows.

Definition DetailRow (label : jstr) (value : JsVal) : Row :=
  if negb (truthy value) then NoRow
  else
    match value with
    | JStr text => RowOf label (renderMarkdown text)
    | _ => RowThrows
    end.

(* ===================================================================== *)
(** * Properties of the markdown renderer *)
(* ===================================================================== *)

(** Two stars at the front of [z], and what follows them. *)
Definition opens_bold (z : jstr) : option jstr :=
  match z with
  | a :: b :: rest => if N.eqb a 42 && N.eqb b 42 then Some rest else None
  | _ => None
  end.

Lemma opens_bold_Some (z rest : jstr) :
  opens_bold z = Some rest <-> z = 42%N :: 42%N :: rest.
Proof.
  unfold opens_bold. destruct z as [| a [| b z']].
  - split; discriminate.
  - split; discriminate.
  - destruct (N.eqb a 42) eqn:Ea; destruct (N.eqb b 42) eqn:Eb; cbn [andb].
    + apply N.eqb_eq in Ea, Eb. subst. split; intros H; inversion H;
        reflexivity.
    + split; [discriminate |]. intros H. inversion H. subst.
      rewrite N.eqb_refl in Eb. discriminate.
    + split; [discriminate |]. intros H. inversion H. subst.
      rewrite N.eqb_refl in Ea. discriminate.
    + split; [discriminate |]. intros H. inversion H. subst.
      rewrite N.eqb_refl in Ea. discriminate.
Qed.

Lemma STARS_matcher (A : Type) (z : jstr) (k : jstr -> option A) :
  matcher false STARS z k
  = match opens_bold z with Some rest => k rest | None => None end.
Proof.
  unfold STARS, opens_bold. cbn [matcher]. unfold canonicalize.
  cbn [andb].
  destruct z as [| a [| b z']]; [reflexivity | |].
  - destruct (N.eqb a 42); reflexivity.
  - destruct (N.eqb a 42); destruct (N.eqb b 42); reflexivity.
Qed.

(** The continuation of the lazy run: the closing stars, and then the
    capture read off [y0], the text after the opening stars. *)
Definition closes (y0 : jstr) (z : jstr) : option (jstr * jstr) :=
  matcher false STARS z
    (fun rest => Some (firstn (length y0 - length z) y0, rest)).

Lemma lazy_run_sound (fuel : nat) :
  forall y0 pre y capture after,
    y0 = pre ++ y ->
    lazy_repeat_matcher (matcher false (Class dot)) (closes y0) fuel y
    = Some (capture, after) ->
    exists w,
      y = w ++ 42%N :: 42%N :: after
      /\ capture = pre ++ w
      /\ forallb dot w = true
      /\ forall i, i < length w ->
                   opens_bold (skipn i (w ++ 42%N :: 42%N :: after)) = None.
Proof.
  induction fuel as [| fuel IH]; intros y0 pre y capture after Hy0;
    cbn [lazy_repeat_matcher]; unfold closes at 1; rewrite STARS_matcher;
    destruct (opens_bold y) as [rest |] eqn:E.
  - intros H. injection H as <- <-. apply opens_bold_Some in E.
    exists []. subst y0. rewrite firstn_prefix, app_nil_r.
    repeat split; [exact E |]. intros i Hi. inversion Hi.
  - discriminate.
  - intros H. injection H as <- <-. apply opens_bold_Some in E.
    exists []. subst y0. rewrite firstn_prefix, app_nil_r.
    repeat split; [exact E |]. intros i Hi. inversion Hi.
  - cbn [matcher]. destruct y as [| c y']; [discriminate |].
    destruct (dot c) eqn:Hc; [| discriminate].
    replace (Nat.ltb (length y') (length (c :: y'))) with true
      by (symmetry; apply Nat.ltb_lt; cbn [length]; lia).
    intros H.
    assert (Hy0' : y0 = (pre ++ [c]) ++ y')
      by (rewrite <- app_assoc; exact Hy0).
    destruct (IH y0 (pre ++ [c]) y' capture after Hy0' H)
      as (w & Hy' & Hcap & Hdot & Hmin).
    exists (c :: w). cbn [app forallb]. rewrite Hc, Hdot.
    split; [rewrite Hy'; reflexivity |].
    split; [rewrite Hcap, <- app_assoc; reflexivity |].
    split; [reflexivity |].
    intros [| i] Hi; cbn [skipn].
    + rewrite <- Hy'. exact E.
    + apply Hmin. cbn [length] in Hi. lia.
Qed.

Lemma lazy_run_complete (w : jstr) :
  forall fuel y0 after,
    forallb dot w = true -> length w <= fuel ->
    lazy_repeat_matcher (matcher false (Class dot)) (closes y0) fuel
      (w ++ 42%N :: 42%N :: after) <> None.
Proof.
  induction w as [| c w IH]; intros fuel y0 after Hdot Hfuel.
  - cbn [app]. destruct fuel; cbn [lazy_repeat_matcher]; unfold closes;
      rewrite STARS_matcher; cbn [opens_bold]; rewrite N.eqb_refl;
      discriminate.
  - destruct fuel as [| fuel]; [cbn [length] in Hfuel; lia |].
    cbn [lazy_repeat_matcher].
    destruct (closes y0 ((c :: w) ++ 42%N :: 42%N :: after));
      [discriminate |].
    cbn [forallb] in Hdot. apply andb_prop in Hdot.
    destruct Hdot as (Hc & Hdot). cbn [app matcher]. rewrite Hc.
    replace (Nat.ltb (length (w ++ 42%N :: 42%N :: after))
               (length (c :: w ++ 42%N :: 42%N :: after))) with true
      by (symmetry; apply Nat.ltb_lt; cbn [length]; lia).
    apply IH; [exact Hdot | cbn [length] in Hfuel; lia].
Qed.

(** A successful attempt took two stars, the capture, and two stars off
    the front; the capture has no line terminator, and the closing
    stars are the first two stars in a row after the opening ones. *)
Lemma bold_here_sound (x capture after : jstr) :
  bold_here x = Some (capture, after) ->
  x = 42%N :: 42%N :: capture ++ 42%N :: 42%N :: after
  /\ forallb dot capture = true
  /\ forall i, i < length capture ->
               opens_bold (skipn i (capture ++ 42%N :: 42%N :: after))
               = None.
Proof.
  unfold bold_here. rewrite STARS_matcher.
  destruct (opens_bold x) as [y |] eqn:E; [| discriminate].
  apply opens_bold_Some in E. intros H.
  destruct (@lazy_run_sound (length y) y [] y capture after eq_refl H)
    as (w & Hy & Hcap & Hdot & Hmin).
  cbn [app] in Hcap. subst capture x.
  split; [rewrite Hy; reflexivity |]. split; assumption.
Qed.

Lemma bold_here_complete (capture after : jstr) :
  forallb dot capture = true ->
  bold_here (42%N :: 42%N :: capture ++ 42%N :: 42%N :: after) <> None.
Proof.
  intros Hdot. unfold bold_here. rewrite STARS_matcher.
  cbn [opens_bold]. rewrite N.eqb_refl. cbn [andb].
  apply lazy_run_complete; [exact Hdot |].
  rewrite length_app. lia.
Qed.

(** The text a rendering stands for: the parts in order, each [strong]
    one between two pairs of stars. *)
Definition markup_inline (x : Inline) : jstr :=
  match x with
  | Plain t => t
  | Strong t => [42%N; 42%N] ++ t ++ [42%N; 42%N]
  end.

Definition markup (f : Formatted) : jstr :=
  match f with
  | AsText t => t
  | AsParts parts => concat (map markup_inline parts)
  end.

(** The parts of a split put together again, captures between stars. *)
Fixpoint rejoin (strong : bool) (parts : list jstr) : jstr :=
  match parts with
  | [] => []
  | p :: parts' =>
      (if strong then [42%N; 42%N] ++ p ++ [42%N; 42%N] else p)
        ++ rejoin (negb strong) parts'
  end.

(** A bold span in a text: two stars, a text without line terminator,
    two stars. *)
Definition has_bold_span (text : jstr) : Prop :=
  exists pre capture post,
    text = pre ++ [42%N; 42%N] ++ capture ++ [42%N; 42%N] ++ post
    /\ forallb dot capture = true.

(** What every capture is: free of line terminators and of two stars in
    a row. *)
Definition bold_text (t : jstr) : Prop :=
  forallb dot t = true /\ forall a b, t <> a ++ [42%N; 42%N] ++ b.

Fixpoint captures_bold (strong : bool) (parts : list jstr) : Prop :=
  match parts with
  | [] => True
  | p :: parts' =>
      (if strong then bold_text p else True)
      /\ captures_bold (negb strong) parts'
  end.

Lemma split_loop_rejoin (fuel : nat) :
  forall pending rest,
    rejoin false (split_loop fuel pending rest) = rev pending ++ rest.
Proof.
  induction fuel as [| fuel IH]; intros pending rest; cbn [split_loop].
  - cbn [rejoin]. apply app_nil_r.
  - destruct rest as [| c rest']; [reflexivity |].
    assert (Hstep : rejoin false (split_loop fuel (c :: pending) rest')
                    = rev pending ++ c :: rest').
    { rewrite IH. cbn [rev]. rewrite <- app_assoc. reflexivity. }
    destruct (bold_here (c :: rest')) as [[capture after] |] eqn:E;
      [| exact Hstep].
    destruct (Nat.eqb (length after) (length pending + length (c :: rest')));
      [exact Hstep |].
    apply bold_here_sound in E. destruct E as (Hx & _).
    cbn [rejoin negb]. rewrite IH, Hx. cbn [rev app].
    rewrite <- !app_assoc. reflexivity.
Qed.

Lemma split_loop_odd (fuel : nat) :
  forall pending rest,
    Nat.odd (length (split_loop fuel pending rest)) = true.
Proof.
  induction fuel as [| fuel IH]; intros pending rest; cbn [split_loop];
    [reflexivity |].
  destruct rest as [| c rest']; [reflexivity |].
  destruct (bold_here (c :: rest')) as [[capture after] |]; [| apply IH].
  destruct (Nat.eqb _ _); [apply IH |].
  cbn [length]. rewrite Nat.odd_succ, Nat.even_succ. apply IH.
Qed.

Lemma capture_bold_text (x capture after : jstr) :
  bold_here x = Some (capture, after) -> bold_text capture.
Proof.
  intros H. apply bold_here_sound in H. destruct H as (_ & Hdot & Hmin).
  split; [exact Hdot |]. intros a b Hab.
  assert (Hi : length a < length capture).
  { rewrite Hab, !length_app. cbn [length]. lia. }
  specialize (Hmin (length a) Hi).
  rewrite Hab in Hmin. rewrite <- app_assoc in Hmin.
  rewrite skipn_app, skipn_all, Nat.sub_diag in Hmin.
  cbn [skipn app opens_bold] in Hmin.
  rewrite N.eqb_refl in Hmin. discriminate.
Qed.

Lemma split_loop_captures (fuel : nat) :
  forall pending rest,
    captures_bold false (split_loop fuel pending rest).
Proof.
  induction fuel as [| fuel IH]; intros pending rest; cbn [split_loop].
  - cbn. auto.
  - destruct rest as [| c rest']; [cbn; auto |].
    destruct (bold_here (c :: rest')) as [[capture after] |] eqn:E;
      [| apply IH].
    destruct (Nat.eqb _ _); [apply IH |].
    cbn [captures_bold negb]. split; [exact I |].
    split; [exact (@capture_bold_text _ _ _ E) | apply IH].
Qed.

(** Without a match at any index the split is the text alone. *)
Lemma split_loop_no_match (fuel : nat) :
  forall pending rest,
    (forall pre post, rest = pre ++ post -> bold_here post = None) ->
    split_loop fuel pending rest = [rev pending ++ rest].
Proof.
  induction fuel as [| fuel IH]; intros pending rest Hno; cbn [split_loop];
    [reflexivity |].
  destruct rest as [| c rest']; [rewrite app_nil_r; reflexivity |].
  rewrite (Hno [] (c :: rest') eq_refl).
  rewrite IH.
  - cbn [rev]. rewrite <- app_assoc. reflexivity.
  - intros pre post Hr. apply (Hno (c :: pre) post). rewrite Hr.
    reflexivity.
Qed.

Lemma split_loop_nonempty (fuel : nat) (pending rest : jstr) :
  1 <= length (split_loop fuel pending rest).
Proof.
  pose proof (split_loop_odd fuel pending rest) as H.
  destruct (split_loop fuel pending rest); [discriminate | cbn; lia].
Qed.

(** With a match at some index the split has three parts or more. *)
Lemma split_loop_match (fuel : nat) :
  forall pending rest pre post,
    rest = pre ++ post -> bold_here post <> None ->
    length rest < fuel ->
    3 <= length (split_loop fuel pending rest).
Proof.
  induction fuel as [| fuel IH]; intros pending rest pre post Hr Hm Hfuel;
    [lia |].
  cbn [split_loop]. destruct rest as [| c rest'].
  - destruct pre; [| discriminate]. cbn [app] in Hr. subst post.
    contradiction Hm. reflexivity.
  - assert (Hstep : bold_here (c :: rest') = None ->
                    3 <= length (split_loop fuel (c :: pending) rest')).
    { intros Hnone. destruct pre as [| c' pre'].
      - cbn [app] in Hr. subst post. contradiction.
      - injection Hr as <- Hr'.
        apply (IH (c :: pending) rest' pre' post Hr' Hm).
        cbn [length] in Hfuel. lia. }
    destruct (bold_here (c :: rest')) as [[capture after] |] eqn:E;
      [| apply Hstep; reflexivity].
    destruct (Nat.eqb (length after) (length pending + length (c :: rest')))
      eqn:Elen.
    + exfalso. apply Nat.eqb_eq in Elen. apply bold_here_sound in E.
      destruct E as (Hx & _). apply (f_equal (@length N)) in Hx.
      cbn [length] in Hx. rewrite length_app in Hx. cbn [length] in *. lia.
    + cbn [length].
      pose proof (split_loop_nonempty fuel [] after). lia.
Qed.

Lemma bold_here_span (pre post : jstr) :
  bold_here post <> None -> has_bold_span (pre ++ post).
Proof.
  destruct (bold_here post) as [[capture after] |] eqn:E;
    [| intros H; contradiction H; reflexivity].
  intros _. apply bold_here_sound in E. destruct E as (Hx & Hdot & _).
  exists pre, capture, after. split; [rewrite Hx; reflexivity | exact Hdot].
Qed.

Lemma split_bold_single_iff (text : jstr) :
  length (split_bold text) = 1 <-> ~ has_bold_span text.
Proof.
  unfold split_bold. destruct text as [| c text].
  - assert (E : bold_here [] = None) by reflexivity. rewrite E.
    split; [| reflexivity]. intros _ (pre & capture & post & H & _).
    destruct pre; discriminate.
  - split.
    + intros Hlen (pre & capture & post & Ht & Hdot).
      pose proof (@split_loop_match (S (length (c :: text))) []
                    (c :: text) pre
                    ([42%N; 42%N] ++ capture ++ [42%N; 42%N] ++ post)
                    Ht (@bold_here_complete capture post Hdot)
                    (Nat.lt_succ_diag_r _)) as H3.
      lia.
    + intros Hno. rewrite split_loop_no_match; [reflexivity |].
      intros pre post Hr. destruct (bold_here post) eqn:E; [| reflexivity].
      exfalso. apply Hno. rewrite Hr. apply bold_here_span.
      rewrite E. discriminate.
Qed.

Lemma split_bold_rejoin (text : jstr) :
  rejoin false (split_bold text) = text.
Proof.
  unfold split_bold. destruct text as [| c text]; [reflexivity |].
  apply split_loop_rejoin.
Qed.

Lemma split_bold_odd (text : jstr) :
  Nat.odd (length (split_bold text)) = true.
Proof.
  unfold split_bold. destruct text as [| c text]; [reflexivity |].
  apply split_loop_odd.
Qed.

Lemma split_bold_captures (text : jstr) :
  captures_bold false (split_bold text).
Proof.
  unfold split_bold. destruct text as [| c text]; [cbn; auto |].
  apply split_loop_captures.
Qed.

(** The labelling of [formatInline]: the parts at odd indices are the
    [strong] ones. *)
Definition label (part : jstr) (i : nat) : Inline :=
  if Nat.eqb (i mod 2) 1 then Strong part else Plain part.

Lemma label_odd (part : jstr) (i : nat) :
  label part i = if Nat.odd i then Strong part else Plain part.
Proof.
  unfold label. rewrite <- Nat.bit0_mod, Nat.bit0_odd.
  destruct (Nat.odd i); reflexivity.
Qed.

Lemma markup_labelled (parts : list jstr) :
  forall i,
    concat (map markup_inline (map_index label parts i))
    = rejoin (Nat.odd i) parts.
Proof.
  induction parts as [| p parts IH]; intros i; [reflexivity |].
  cbn [map_index map concat rejoin]. rewrite IH, label_odd.
  rewrite Nat.odd_succ, <- Nat.negb_odd.
  destruct (Nat.odd i); reflexivity.
Qed.

Lemma labelled_nth (parts : list jstr) :
  forall i j x,
    nth_error (map_index label parts i) j = Some x ->
    exists t, nth_error parts j = Some t
              /\ x = if Nat.odd (i + j) then Strong t else Plain t.
Proof.
  induction parts as [| p parts IH]; intros i j x H.
  - destruct j; discriminate.
  - destruct j as [| j]; cbn [map_index nth_error] in H |- *.
    + injection H as <-. exists p. rewrite Nat.add_0_r, label_odd.
      split; reflexivity.
    + apply IH in H. destruct H as (t & Ht & Hx). exists t.
      rewrite Nat.add_succ_r, <- Nat.add_succ_l. split; assumption.
Qed.

Lemma labelled_strong (parts : list jstr) :
  forall i t,
    captures_bold (Nat.odd i) parts ->
    In (Strong t) (map_index label parts i) -> bold_text t.
Proof.
  induction parts as [| p parts IH]; intros i t Hc Hin; [contradiction |].
  cbn [map_index captures_bold] in *. destruct Hc as (Hp & Hc).
  destruct Hin as [Hin | Hin].
  - rewrite label_odd in Hin. destruct (Nat.odd i); [| discriminate].
    injection Hin as <-. exact Hp.
  - apply (IH (S i)); [| exact Hin].
    rewrite Nat.odd_succ, <- Nat.negb_odd. exact Hc.
Qed.

Lemma formatInline_unfold (text : jstr) :
  formatInline text
  = if Nat.eqb (length (split_bold text)) 1 then AsText text
    else AsParts (map_index label (split_bold text) 0).
Proof. reflexivity. Qed.

Lemma map_index_length (A B : Type) (f : A -> nat -> B) (l : list A) :
  forall i, length (map_index f l i) = length l.
Proof.
  induction l as [| x l IH]; intros i; [reflexivity |].
  cbn [map_index length]. rewrite IH. reflexivity.
Qed.

(** X23.  [formatInline] loses nothing of its text but the stars it
    turns into bold: putting the parts back in order, each [strong] one
    between two pairs of stars, gives the text again.  When it returns
    parts there are three or more, an odd number, and they alternate:
    plain at the even indices, [strong] at the odd ones. *)
Theorem formatInline_keeps_text (text : jstr) :
  markup (formatInline text) = text
  /\ forall parts,
      formatInline text = AsParts parts ->
      3 <= length parts
      /\ Nat.odd (length parts) = true
      /\ forall i x,
          nth_error parts i = Some x ->
          exists t, x = if Nat.odd i then Strong t else Plain t.
Proof.
  rewrite formatInline_unfold.
  destruct (Nat.eqb (length (split_bold text)) 1) eqn:E.
  - split; [reflexivity | discriminate].
  - split.
    + cbn [markup]. rewrite markup_labelled. apply split_bold_rejoin.
    + intros parts H. injection H as <-.
      rewrite map_index_length.
      pose proof (split_bold_odd text) as Hodd.
      apply Nat.eqb_neq in E.
      split; [| split; [exact Hodd |]].
      * destruct (split_bold text) as [| a [| b [| c l]]];
          cbn [length] in *; try discriminate; try lia.
      * intros i x Hx. apply labelled_nth in Hx.
        destruct Hx as (t & _ & Hx). exists t. exact Hx.
Qed.

(** X24.  What [formatInline] makes bold: it returns its text unchanged
    exactly when the text has no bold span (two stars, any text without
    a line terminator, two stars), and every [strong] part it returns is
    free of line terminators and of two stars in a row: a span always
    closes at the first two stars after its opening. *)
Theorem formatInline_bold_spans (text : jstr) :
  (formatInline text = AsText text <-> ~ has_bold_span text)
  /\ forall parts t,
      formatInline text = AsParts parts ->
      In (Strong t) parts ->
      forallb dot t = true /\ forall a b, t <> a ++ [42%N; 42%N] ++ b.
Proof.
  rewrite formatInline_unfold. split.
  - rewrite <- split_bold_single_iff.
    destruct (Nat.eqb (length (split_bold text)) 1) eqn:E.
    + apply Nat.eqb_eq in E. split; [intros _; exact E | reflexivity].
    + apply Nat.eqb_neq in E. split; [discriminate | contradiction].
  - intros parts t H Hin.
    destruct (Nat.eqb (length (split_bold text)) 1); [discriminate |].
    injection H as <-.
    apply (@labelled_strong (split_bold text) 0 t);
      [apply split_bold_captures | exact Hin].
Qed.

(** The fuel of the loop is never used up: more of it changes nothing. *)
Lemma split_loop_fuel (fuel : nat) :
  forall fuel' pending rest,
    length rest < fuel -> length rest < fuel' ->
    split_loop fuel pending rest = split_loop fuel' pending rest.
Proof.
  induction fuel as [| fuel IH]; intros fuel' pending rest H H'; [lia |].
  destruct fuel' as [| fuel']; [lia |].
  cbn [split_loop]. destruct rest as [| c rest']; [reflexivity |].
  cbn [length] in H, H'.
  assert (Hstep : split_loop fuel (c :: pending) rest'
                  = split_loop fuel' (c :: pending) rest')
    by (apply IH; lia).
  destruct (bold_here (c :: rest')) as [[capture after] |] eqn:E;
    [| exact Hstep].
  destruct (Nat.eqb _ _); [exact Hstep |].
  apply bold_here_sound in E. destruct E as (Hx & _).
  apply (f_equal (@length N)) in Hx. cbn [length] in Hx.
  rewrite length_app in Hx. cbn [length] in Hx.
  do 2 f_equal. apply IH; lia.
Qed.

Lemma startsWith_prefix (prefix : jstr) :
  forall s, startsWith s prefix = true ->
            s = prefix ++ skipn (length prefix) s.
Proof.
  induction prefix as [| p prefix IH]; intros s H; [reflexivity |].
  destruct s as [| c s]; [discriminate |].
  cbn [startsWith] in H. apply andb_prop in H. destruct H as (Hc & H).
  apply N.eqb_eq in Hc. subst c. cbn [length skipn app].
  f_equal. apply IH. exact H.
Qed.

Lemma join_cons (sep p : jstr) (parts : list jstr) :
  parts <> [] ->
  Reference.join sep (p :: parts) = p ++ sep ++ Reference.join sep parts.
Proof. destruct parts; [contradiction | reflexivity]. Qed.

Lemma split_on_nonempty (sep : N) (s : jstr) :
  forall current, split_on sep current s <> [].
Proof.
  induction s as [| c s IH]; intros current; cbn [split_on];
    [discriminate |].
  destruct (N.eqb c sep); [discriminate | apply IH].
Qed.

Lemma split_on_join (sep : N) (s : jstr) :
  forall current,
    Reference.join [sep] (split_on sep current s) = rev current ++ s.
Proof.
  induction s as [| c s IH]; intros current; cbn [split_on].
  - cbn [Reference.join]. rewrite app_nil_r. reflexivity.
  - destruct (N.eqb c sep) eqn:E.
    + apply N.eqb_eq in E. subst c.
      rewrite join_cons by apply split_on_nonempty.
      rewrite IH. reflexivity.
    + rewrite IH. cbn [rev]. rewrite <- app_assoc. reflexivity.
Qed.

Lemma split_on_lines (sep : N) (s : jstr) :
  forall current,
    ~ In sep current ->
    Forall (fun line => ~ In sep line) (split_on sep current s).
Proof.
  induction s as [| c s IH]; intros current Hc; cbn [split_on].
  - constructor; [| constructor]. rewrite <- in_rev. exact Hc.
  - destruct (N.eqb c sep) eqn:E.
    + constructor; [rewrite <- in_rev; exact Hc |].
      apply IH. intros [].
    + apply IH. intros [H | H]; [| exact (Hc H)].
      subst c. rewrite N.eqb_refl in E. discriminate.
Qed.

(** The numbered marker: digits, a dot, a white space character. *)
Definition numbered_marker (marker : jstr) : Prop :=
  exists digits w,
    marker = digits ++ [46%N; w]
    /\ digits <> [] /\ forallb is_digit digits = true
    /\ is_js_whitespace w = true.

Lemma lang_Plus_Class_exact (member : N -> bool) (m : jstr) :
  lang false (Plus (Class member)) m ->
  m <> [] /\ forallb member m = true.
Proof.
  intros H. remember (Plus (Class member)) as R eqn:HR.
  induction H as [| | | | | | | r m H | r m1 m2 H1 _ H2 IH];
    inversion HR; subst.
  - inversion H; subst. split; [discriminate |].
    cbn [forallb]. rewrite andb_true_r. assumption.
  - inversion H1; subst. destruct (IH eq_refl) as (_ & Hall).
    split; [discriminate |]. cbn [app forallb].
    apply andb_true_iff. split; assumption.
Qed.

Lemma NUMBERED_RE_marker (line marker : jstr) :
  match_here NUMBERED_RE line = Some marker ->
  numbered_marker marker /\ line = marker ++ skipn (length marker) line.
Proof.
  intros H. apply match_here_sound in H. destruct H as (Hm & y & Hy).
  split.
  - unfold matches, NUMBERED_RE in Hm. cbn [source flag_i] in Hm.
    inversion Hm as [| | r1 r2 m1 m23 H1 H23 | | | | | |]; subst.
    inversion H23 as [| | r2' r3 m2 m3 H2 H3 | | | | | |]; subst.
    inversion H2 as [p c Hc | | | | | | | |]; subst.
    inversion H3 as [| member w Hw | | | | | | |]; subst.
    apply lang_Plus_Class_exact in H1. destruct H1 as (Hne & Hall).
    unfold canonicalize in Hc. cbn [andb] in Hc. subst c.
    exists m1, w. repeat split; assumption.
  - rewrite Hy at 1. rewrite Hy, skipn_app, skipn_all, Nat.sub_diag.
    reflexivity.
Qed.

(** The text of a block: what it shows, bold spans between their
    stars. *)
Definition block_text (b : Block) : jstr :=
  match b with
  | H4 t | H3 t | H2 t => t
  | Bullet c | Numbered c | Paragraph c => markup c
  | Spacer => []
  end.

(** The marker a block stands for at the front of its line. *)
Definition marker_of (b : Block) (marker : jstr) : Prop :=
  match b with
  | H4 _ => marker = lit "### "
  | H3 _ => marker = lit "## "
  | H2 _ => marker = lit "# "
  | Bullet _ => marker = lit "- " \/ marker = lit "* "
  | Numbered _ => numbered_marker marker
  | Spacer => blank marker = true
  | Paragraph _ => marker = []
  end.

Lemma markup_formatInline (text : jstr) : markup (formatInline text) = text.
Proof.
  rewrite formatInline_unfold.
  destruct (Nat.eqb (length (split_bold text)) 1); [reflexivity |].
  cbn [markup]. rewrite markup_labelled. apply split_bold_rejoin.
Qed.

Lemma render_line_marker (line : jstr) :
  exists marker,
    marker_of (render_line line) marker
    /\ line = marker ++ block_text (render_line line).
Proof.
  unfold render_line.
  destruct (startsWith line (lit "### ")) eqn:E4.
  { exists (lit "### "). split; [reflexivity |].
    exact (startsWith_prefix _ _ E4). }
  destruct (startsWith line (lit "## ")) eqn:E3.
  { exists (lit "## "). split; [reflexivity |].
    exact (startsWith_prefix _ _ E3). }
  destruct (startsWith line (lit "# ")) eqn:E2.
  { exists (lit "# "). split; [reflexivity |].
    exact (startsWith_prefix _ _ E2). }
  destruct (startsWith line (lit "- ")) eqn:Ed.
  { exists (lit "- "). split; [left; reflexivity |].
    cbn [orb block_text]. rewrite markup_formatInline.
    exact (startsWith_prefix _ _ Ed). }
  destruct (startsWith line (lit "* ")) eqn:Es.
  { exists (lit "* "). split; [right; reflexivity |].
    cbn [orb block_text]. rewrite markup_formatInline.
    exact (startsWith_prefix _ _ Es). }
  cbn [orb].
  destruct (match_here NUMBERED_RE line) as [marker |] eqn:En.
  { apply NUMBERED_RE_marker in En. destruct En as (Hm & Hline).
    exists marker. split; [exact Hm |].
    cbn [block_text]. rewrite markup_formatInline. exact Hline. }
  destruct (trim line) as [| c t] eqn:Et.
  { exists line. split; [apply trim_nil_iff; exact Et |].
    cbn [block_text]. rewrite app_nil_r. reflexivity. }
  exists []. split; [reflexivity |].
  cbn [block_text app]. rewrite markup_formatInline. reflexivity.
Qed.

Lemma startsWith_app (prefix rest : jstr) :
  startsWith (prefix ++ rest) prefix = true.
Proof.
  induction prefix as [| p prefix IH]; [reflexivity |].
  cbn [app startsWith]. rewrite N.eqb_refl. exact IH.
Qed.

Lemma Plus_Class_lang (member : N -> bool) (m : jstr) :
  m <> [] -> forallb member m = true ->
  lang false (Plus (Class member)) m.
Proof.
  induction m as [| y m IH]; [contradiction |]. intros _ Hall.
  cbn [forallb] in Hall. apply andb_true_iff in Hall.
  destruct Hall as (Hy & Hall). destruct m as [| z m].
  - apply lang_Plus_one. constructor. exact Hy.
  - change (y :: z :: m) with ([y] ++ z :: m). apply lang_Plus_more.
    + constructor. exact Hy.
    + apply IH; [discriminate | exact Hall].
Qed.

Lemma numbered_marker_matches (marker rest : jstr) :
  numbered_marker marker -> match_here NUMBERED_RE (marker ++ rest) <> None.
Proof.
  intros (digits & w & -> & Hne & Hall & Hw).
  apply match_here_complete. unfold matches, NUMBERED_RE.
  cbn [source flag_i]. constructor.
  - apply Plus_Class_lang; assumption.
  - change [46%N; w] with ([46%N] ++ [w]). constructor.
    + constructor. reflexivity.
    + constructor. exact Hw.
Qed.

(** The markers that open a line that is not a paragraph. *)
Definition opening_marker (marker : jstr) : Prop :=
  marker = lit "### " \/ marker = lit "## " \/ marker = lit "# "
  \/ marker = lit "- " \/ marker = lit "* " \/ numbered_marker marker.

Lemma render_line_paragraph (line : jstr) (content : Formatted) :
  render_line line = Paragraph content ->
  blank line = false
  /\ forall marker rest,
      line = marker ++ rest -> ~ opening_marker marker.
Proof.
  unfold render_line.
  destruct (startsWith line (lit "### ")) eqn:E4; [discriminate |].
  destruct (startsWith line (lit "## ")) eqn:E3; [discriminate |].
  destruct (startsWith line (lit "# ")) eqn:E2; [discriminate |].
  destruct (startsWith line (lit "- ")) eqn:Ed; [discriminate |].
  destruct (startsWith line (lit "* ")) eqn:Es; [discriminate |].
  cbn [orb].
  destruct (match_here NUMBERED_RE line) as [m |] eqn:En; [discriminate |].
  destruct (trim line) as [| c t] eqn:Et; [discriminate |].
  intros _. split.
  - destruct (blank line) eqn:Eb; [| reflexivity].
    apply trim_nil_iff in Eb. rewrite Eb in Et. discriminate.
  - intros marker rest Hline [H | [H | [H | [H | [H | H]]]]];
      subst line; try subst marker.
    + rewrite startsWith_app in E4. discriminate.
    + rewrite startsWith_app in E3. discriminate.
    + rewrite startsWith_app in E2. discriminate.
    + rewrite startsWith_app in Ed. discriminate.
    + rewrite startsWith_app in Es. discriminate.
    + apply (@numbered_marker_matches marker rest H). exact En.
Qed.

(** How a block stands for its line. *)
Definition renders (line : jstr) (block : Block) : Prop :=
  (exists marker,
      marker_of block marker /\ line = marker ++ block_text block)
  /\ forall content,
      block = Paragraph content ->
      blank line = false
      /\ forall marker rest,
          line = marker ++ rest -> ~ opening_marker marker.

(** X25.  [renderMarkdown] returns [null] for the empty text only.
    Otherwise it makes one block for each line of the text, the lines
    being what the line feeds separate, and each block stands for its
    whole line: the line is the marker of the block ([### ], [## ],
    [# ] for the three headings, [- ] or [* ] for a bullet, digits with
    a dot and a white space character for a numbered item, nothing for
    a paragraph, the blank line itself for a spacer) followed by the
    text the block shows.  A line becomes a paragraph only when it is
    not blank and opens with none of the markers. *)
Theorem renderMarkdown_keeps_lines (text : jstr) :
  (renderMarkdown text = None <-> text = [])
  /\ forall blocks,
      renderMarkdown text = Some blocks ->
      exists lines,
        text = Reference.join [10%N] lines
        /\ Forall (fun line => ~ In 10%N line) lines
        /\ Forall2 renders lines blocks.
Proof.
  split.
  - destruct text; cbn [renderMarkdown]; split; intros H;
      try reflexivity; discriminate.
  - intros blocks H. destruct text as [| c text]; [discriminate |].
    assert (Hb : blocks = map render_line (split_on 10 [] (c :: text)))
      by (injection H as <-; reflexivity).
    rewrite Hb. clear Hb H.
    exists (split_on 10 [] (c :: text)).
    split; [rewrite split_on_join; reflexivity |].
    split; [apply split_on_lines; intros [] |].
    generalize (split_on 10 [] (c :: text)). intros lines.
    induction lines as [| line lines IH];
      cbn [map]; constructor; [| exact IH].
    split; [apply render_line_marker |].
    intros content. apply render_line_paragraph.
Qed.

Section DetailRows.
Context `{RT : JsRuntime}.

(** A row throws exactly for a truthy value that is not a string. *)
Lemma DetailRow_throws_iff (label : jstr) (value : JsVal) :
  DetailRow label value = RowThrows
  <-> truthy value = true /\ is_string value = false.
Proof.
  unfold DetailRow.
  destruct value as [| | [|] | n | [| c s] | l | ps]; cbn [truthy negb is_string];
    try (split; [discriminate | intros (H & _); discriminate]);
    try (split; [intros _; split; reflexivity | reflexivity]);
    try (split; [discriminate | intros (_ & H); discriminate]).
  destruct (number_truthy n); cbn [negb].
  - split; [intros _; split; reflexivity | reflexivity].
  - split; [discriminate | intros (H & _); discriminate].
Qed.

(** The three rows of the details panel. *)
Definition detail_rows (d : TransformationDetails) : list Row :=
  [DetailRow (lit "Transformation") (transformation_description d);
   DetailRow (lit "Style Elements Applied") (style_elements_applied d);
   DetailRow (lit "Color Palette Used") (color_palette_used d)].

(** X26.  Whether the details panel can be rendered.  The rows of a
    record that [extractTransformationDetails] of [part_000] read off
    [response.result] never throw: every field is a string.  The record
    of its fallback shows one row at most, which throws exactly when
    [response.message] is not a string.  On [page.tsx], whose handler
    keeps the fields of [response.result] as they are, a row throws
    exactly when its field is truthy and not a string. *)
Theorem detail_rows_render (result : props) (d : TransformationDetails) :
  (Part000.details_of_result result = Some d ->
   ~ In RowThrows (detail_rows d))
  /\ (Part000.details_of_result result = None ->
      Part000.extractTransformationDetails result = Some d ->
      detail_rows d
      = [DetailRow (lit "Transformation")
           (JObj result # "response" # "message"); NoRow; NoRow]
      /\ (In RowThrows (detail_rows d)
          <-> is_string (JObj result # "response" # "message") = false))
  /\ (AppPage_details result = Some d ->
      forall (key : string) (label : jstr),
        In (key, label)
           [("transformation_description"%string, lit "Transformation");
            ("style_elements_applied"%string,
             lit "Style Elements Applied");
            ("color_palette_used"%string, lit "Color Palette Used")] ->
        In (DetailRow label
              (js_or (JObj result # "response" # "result" # key) (JStr [])))
           (detail_rows d)
        /\ (DetailRow label
              (js_or (JObj result # "response" # "result" # key) (JStr []))
            = RowThrows
            <-> truthy (JObj result # "response" # "result" # key) = true
                /\ is_string (JObj result # "response" # "result" # key)
                   = false)).
Proof.
  split; [| split].
  - unfold Part000.details_of_result.
    destruct (truthy _ && typeof_object _)%bool; [| discriminate].
    destruct (truthy (js_or _ _)); [| discriminate].
    intros H. injection H as <-. unfold detail_rows.
    cbn [transformation_description style_elements_applied
         color_palette_used].
    intros [H | [H | [H | []]]];
      apply DetailRow_throws_iff in H; destruct H as (_ & H);
      rewrite stringified_is_string in H; discriminate.
  - intros Hnone. unfold Part000.extractTransformationDetails.
    rewrite Hnone. unfold or_else.
    destruct (truthy (JObj result # "response" # "message")) eqn:Em;
      [| discriminate].
    intros H. injection H as <-. unfold detail_rows.
    cbn [transformation_description style_elements_applied
         color_palette_used].
    split; [reflexivity |]. split.
    + intros [H | [H | [H | []]]]; try discriminate.
      apply DetailRow_throws_iff in H. exact (proj2 H).
    + intros H. left. apply DetailRow_throws_iff.
      split; assumption.
  - unfold AppPage_details.
    destruct (truthy _ && typeof_object _)%bool; [| discriminate].
    intros H. injection H as <-. intros key label Hin.
    split.
    + unfold detail_rows.
      cbn [transformation_description style_elements_applied
           color_palette_used].
      destruct Hin as [H | [H | [H | []]]]; injection H as <- <-.
      * left. reflexivity.
      * right; left. reflexivity.
      * right; right; left. reflexivity.
    + rewrite DetailRow_throws_iff. unfold js_or.
      destruct (truthy (JObj result # "response" # "result" # key)) eqn:Et.
      * rewrite Et. split; intros (_ & H); (split; [reflexivity | exact H]).
      * cbn [truthy]. split; intros (H & _); discriminate.
Qed.

End DetailRows.

(* ===================================================================== *)
(** * The renderer on concrete texts *)
(* ===================================================================== *)

Definition a_sentence : jstr := lit "Deep **purple** and ***blue** tones".

Definition a_sentence_parts : list Inline :=
  [Plain (lit "Deep "); Strong (lit "purple"); Plain (lit " and ");
   Strong (lit "*blue"); Plain (lit " tones")].

Lemma formatInline_keeps_text_witness :
  markup (AsParts a_sentence_parts) = a_sentence
  /\ Nat.odd (length a_sentence_parts) = true.
Proof.
  pose proof (formatInline_keeps_text a_sentence) as (H1 & H2).
  destruct (H2 a_sentence_parts ltac:(computed)) as (_ & H3 & _).
  split; [| exact H3].
  etransitivity; [| exact H1]. computed.
Defined.

Lemma formatInline_bold_spans_witness :
  forallb dot (lit "*blue") = true
  /\ forall a b, lit "*blue" <> a ++ [42%N; 42%N] ++ b.
Proof.
  apply (proj2 (formatInline_bold_spans a_sentence) a_sentence_parts
           (lit "*blue")); [computed |].
  vm_compute. right; right; right; left. reflexivity.
Defined.

(** A description of five lines: a heading [## Palette], a numbered
    item with a bold span, an empty line, a bullet, and a line that
    opens with four hashes. *)
Definition a_description : jstr :=
  [35; 35; 32; 80; 97; 108; 101; 116; 116; 101; 10;
   49; 46; 32; 42; 42; 68; 101; 101; 112; 42; 42; 32; 112; 117; 114; 112;
   108; 101; 10;
   10;
   45; 32; 98; 108; 117; 101; 10;
   35; 35; 35; 35; 32; 110; 111; 116; 101]%N.

Lemma renderMarkdown_keeps_lines_witness :
  exists lines,
    a_description = Reference.join [10%N] lines
    /\ Forall (fun line => ~ In 10%N line) lines
    /\ Forall2 renders lines
         [H3 (lit "Palette");
          Numbered (AsParts [Plain []; Strong (lit "Deep");
                             Plain (lit " purple")]);
          Spacer;
          Bullet (AsText (lit "blue"));
          Paragraph (AsText (lit "#### note"))].
Proof.
  apply (proj2 (renderMarkdown_keeps_lines a_description)). computed.
Defined.

Definition mixed_details_envelope : props :=
  envelope "{'response':{'result':{'description':'## Palette','styles':['gradient','glow'],'colors':{'primary':'#7458e8'}}}}".

Lemma detail_rows_render_witness :
  ~ In RowThrows
      (detail_rows
         {| transformation_description := JStr (lit "## Palette");
            style_elements_applied :=
              JStr (Reference.json "['gradient','glow']");
            color_palette_used :=
              JStr (Reference.json "{'primary':'#7458e8'}") |}).
Proof.
  exact (proj1 (@detail_rows_render Reference.runtime mixed_details_envelope
                  {| transformation_description := JStr (lit "## Palette");
                     style_elements_applied :=
                       JStr (Reference.json "['gradient','glow']");
                     color_palette_used :=
                       JStr (Reference.json "{'primary':'#7458e8'}") |})
           ltac:(computed)).
Defined.

(* ===================================================================== *)
(** * The details the two pages keep *)
(* ===================================================================== *)

Section DetailsCompared.
Context `{RT : JsRuntime}.

(** A non-empty string under [key]. *)
Definition text_under (r : props) (key : string) : Prop :=
  truthy (JObj r # key) = true /\ is_string (JObj r # key) = true.

(** X27.  Where the two pages keep the same details.  When
    [response.result] is a mapping that has a non-empty string under
    each of [transformation_description], [style_elements_applied] and
    [color_palette_used], the record [page.tsx] builds is the one
    [extractTransformationDetails] of [part_000] returns: those three
    strings, whatever the other keys of the mapping and
    [response.message] hold. *)
Theorem details_agree_on_canonical_keys (result r : props) :
  JObj result # "response" # "result" = JObj r ->
  text_under r "transformation_description" ->
  text_under r "style_elements_applied" ->
  text_under r "color_palette_used" ->
  AppPage_details result = Part000.extractTransformationDetails result
  /\ AppPage_details result
     = Some {| transformation_description :=
                 JObj r # "transformation_description";
               style_elements_applied := JObj r # "style_elements_applied";
               color_palette_used := JObj r # "color_palette_used" |}.
Proof.
  intros Hr (Ht1 & Hs1) (Ht2 & Hs2) (Ht3 & Hs3).
  assert (Hpage :
    AppPage_details result
    = Some {| transformation_description :=
                JObj r # "transformation_description";
              style_elements_applied := JObj r # "style_elements_applied";
              color_palette_used := JObj r # "color_palette_used" |}).
  { unfold AppPage_details. rewrite Hr. cbn [truthy typeof_object andb].
    rewrite !js_or_truthy by assumption. reflexivity. }
  split; [| exact Hpage]. rewrite Hpage.
  unfold Part000.extractTransformationDetails, Part000.details_of_result.
  rewrite Hr. cbn [truthy typeof_object andb].
  unfold Part000.result_desc, Part000.result_styles, Part000.result_colors.
  repeat rewrite (@js_or_truthy (JObj r # "transformation_description")
                    _ Ht1).
  repeat rewrite (@js_or_truthy (JObj r # "style_elements_applied") _ Ht2).
  repeat rewrite (@js_or_truthy (JObj r # "color_palette_used") _ Ht3).
  rewrite Ht1.
  unfold or_else, Part000.stringified. rewrite Hs1, Hs2, Hs3.
  reflexivity.
Qed.

End DetailsCompared.

Definition canonical_envelope : props :=
  envelope "{'response':{'result':{'transformation_description':'Recolored.','style_elements_applied':'gradients','color_palette_used':'#7458e8','styles':'ignored'},'message':'done'}}".

Lemma details_agree_on_canonical_keys_witness :
  AppPage_details canonical_envelope
  = Part000.extractTransformationDetails canonical_envelope.
Proof.
  exact (proj1 (@details_agree_on_canonical_keys Reference.runtime
                  canonical_envelope
                  [(lit "transformation_description",
                    JStr (lit "Recolored."));
                   (lit "style_elements_applied", JStr (lit "gradients"));
                   (lit "color_palette_used", JStr (lit "#7458e8"));
                   (lit "styles", JStr (lit "ignored"))]
                  ltac:(computed) ltac:(split; computed)
                  ltac:(split; computed) ltac:(split; computed))).
Defined.

(* ===================================================================== *)
(** * A details record always has something to show *)
(* ===================================================================== *)

Section DetailsShown.
Context `{RT : JsRuntime}.




End DetailsShown.


